(** * Banquet back end: booking and quote handlers

    A shallow embedding of the request handlers of the booking service
    (create booking, update status, delete) and of the quote routes of the
    service-provider service (accept, reject, create invoice), with the
    properties of the specification that are about them.

    Modelling conventions.
    - A JavaScript value is a [value]; a JavaScript number is a [number]:
      [NaN] or a rational.  A sum and a product are rounded to the nearest
      double ([round64]); a result beyond the largest double is kept as
      plus or minus 2^1024, which stands for the infinity of that sign.
      The sign of zero is outside the model.
    - The built-ins whose code is the JavaScript runtime's ([parseInt],
      [parseFloat], [toString], [new Date(x)]) are the fields of the class
      [JSRuntime]; every theorem holds for every runtime.
    - A handler is a function from the authenticated principal, the request,
      the clock and the store to a response and a new store.  It starts after
      [authenticateJWT] has attached [req.user].  Log lines are left out.
    - The columns of a booking are typed.  A new row holds, and the answer
      to its creation shows, what the database makes of the values that the
      handler hands to the ORM: the parameter [column] for the INTEGER,
      FLOAT, DATEONLY and JSONB columns, the members of the ENUM for the
      two ENUM columns; the other checks of the database on a new row are
      the parameter [insert_ok].  The columns [createdAt] and [updatedAt],
      which the ORM keeps and no handler reads, are left out of the rows.
      The table of bookings answers every read and write; the tables of
      quotes and invoices may throw on a write. *)

From Stdlib Require Import QArith Qround Qabs DecimalString.
From Stdlib Require Qcanon.
From stdpp Require Import gmap strings list fin_maps.

Set Warnings "-register-all".
Local Open Scope string_scope.

(** ** JavaScript values *)

Module JS.

Inductive number :=
| NaN
| Num (q : Q).

Inductive value :=
| VUndefined
| VNull
| VBool (b : bool)
| VNum (n : number)
| VStr (s : string)
| VArr (l : list value)
| VObj (o : gmap string value).

(** [!v] is false *)
Definition truthy (v : value) : bool :=
  match v with
  | VUndefined | VNull => false
  | VBool b => b
  | VNum NaN => false
  | VNum (Num q) => negb (Qeq_bool q 0)
  | VStr s => negb (String.eqb s "")
  | VArr _ | VObj _ => true
  end.

(** [a || b] *)
Definition js_or (a b : value) : value := if truthy a then a else b.

(** [a === b]; two arrays or objects read from different places are
    different references *)
Definition strict_eq (a b : value) : bool :=
  match a, b with
  | VUndefined, VUndefined | VNull, VNull => true
  | VBool x, VBool y => Bool.eqb x y
  | VNum (Num x), VNum (Num y) => Qeq_bool x y
  | VStr x, VStr y => String.eqb x y
  | _, _ => false
  end.

(** [o[k]] on an object: a missing key reads [undefined] *)
Definition field (k : string) (o : gmap string value) : value :=
  default VUndefined (o !! k).

(** [isNaN(n)] on a number *)
Definition isNaN (n : number) : bool :=
  match n with NaN => true | Num _ => false end.

(** [a < b], [a <= b] on numbers: false as soon as one side is NaN *)
Definition num_lt (a b : number) : bool :=
  match a, b with
  | Num x, Num y => negb (Qle_bool y x)
  | _, _ => false
  end.

Definition num_le (a b : number) : bool :=
  match a, b with
  | Num x, Num y => Qle_bool x y
  | _, _ => false
  end.

(** [2^e] *)
Definition pow2 (e : Z) : Q :=
  if (0 <=? e)%Z then inject_Z (2 ^ e) else / inject_Z (2 ^ (- e)).

(** The exponent [e] of a rational other than 0: [2^e <= |q| < 2^(e+1)]. *)
Definition exponent (q : Q) : Z :=
  let e := (Z.log2 (Z.abs (Qnum q)) - Z.log2 (Zpos (Qden q)))%Z in
  if Qle_bool (pow2 e) (Qabs q) then e else (e - 1)%Z.

(** The nearest whole number, the even one of two that are equally near. *)
Definition round_half_even (q : Q) : Z :=
  let f := Qfloor q in
  match (q - inject_Z f ?= 1 # 2)%Q with
  | Lt => f
  | Gt => (f + 1)%Z
  | Eq => if Z.even f then f else (f + 1)%Z
  end.

(** What stands for Infinity: the least power of two above every double. *)
Definition infinity : Q := inject_Z (2 ^ 1024).

(** The rounding of IEEE 754 binary64 arithmetic, to nearest and ties to
    even: the result has 53 significant bits, its unit in the last place is
    not below 2^-1074, and a result that leaves the range of the doubles is
    the infinity of its sign. *)
Definition round64 (q : Q) : Q :=
  let q := Qred q in
  if Qeq_bool q 0 then 0
  else
    let u := pow2 (Z.max (exponent q - 52) (-1074)) in
    let r := Qred (inject_Z (round_half_even (q / u)) * u) in
    if Qle_bool infinity (Qabs r)
    then (if Qle_bool 0 r then infinity else - infinity)
    else r.

(** [a + b] and [a * b] on numbers: the exact result, rounded *)
Definition num_add (a b : number) : number :=
  match a, b with
  | Num x, Num y => Num (round64 (x + y))
  | _, _ => NaN
  end.

Definition num_mul (a b : number) : number :=
  match a, b with
  | Num x, Num y => Num (round64 (x * y))
  | _, _ => NaN
  end.

(** [a - b] and [a / b].  The handlers subtract time values and divide a
    difference of time values by the length of a day, and a count of rows by
    a page size: whole numbers below 2^53.  Their difference is exact, and
    their quotient only goes through [Math.ceil], which is the same on the
    rounded quotient as on the exact one. *)
Definition num_sub (a b : number) : number :=
  match a, b with
  | Num x, Num y => Num (x - y)
  | _, _ => NaN
  end.

Definition num_div (a b : number) : number :=
  match a, b with
  | Num x, Num y => if Qeq_bool y 0 then NaN else Num (x / y)
  | _, _ => NaN
  end.

(** [Math.ceil] *)
Definition Math_ceil (a : number) : number :=
  match a with
  | Num x => Num (inject_Z (Qceiling x))
  | NaN => NaN
  end.

Definition of_Z (z : Z) : number := Num (inject_Z z).

(** The built-ins of the runtime.  [toString v] is the string conversion of
    a value that is neither [undefined] nor [null]; it is [None] when the
    conversion throws a TypeError (an object parsed from JSON whose own
    [toString] key shadows the method).  [newDate v] is the time value, in
    milliseconds, of [new Date(v)]: NaN for an invalid date. *)
Class JSRuntime := {
  parseInt : value → number;
  parseFloat : value → number;
  toString : value → option string;
  newDate : value → number
}.

Section Operators.
Context `{JSRuntime}.

(** [v.toString()]: a TypeError on [undefined] and [null] *)
Definition call_toString (v : value) : option string :=
  match v with
  | VUndefined | VNull => None
  | _ => toString v
  end.

(** [a.toString() === b.toString()], left operand first *)
Definition same_string (a b : value) : option bool :=
  x ← call_toString a; y ← call_toString b; Some (String.eqb x y).

(** [`${v}`] for a value whose conversion cannot throw *)
Definition show (v : value) : string := default "" (toString v).

(** [v[k]] for a key that no prototype defines: a TypeError on [undefined]
    and [null], [undefined] on the other primitives and on arrays *)
Definition get_prop (k : string) (v : value) : option value :=
  match v with
  | VUndefined | VNull => None
  | VObj o => Some (field k o)
  | _ => Some VUndefined
  end.

(** ToNumber on the primitives that are not strings *)
Definition to_number (v : value) : number :=
  match v with
  | VNull => Num 0
  | VBool b => if b then Num 1 else Num 0
  | VNum n => n
  | _ => NaN
  end.

(** [a + b]: concatenation as soon as one operand is a string, an array or
    an object, numeric addition otherwise *)
Definition js_add (a b : value) : option value :=
  match a, b with
  | (VStr _ | VArr _ | VObj _), _ | _, (VStr _ | VArr _ | VObj _) =>
      x ← toString a; y ← toString b; Some (VStr (x ++ y))
  | _, _ => Some (VNum (num_add (to_number a) (to_number b)))
  end.
End Operators.

End JS.

(** ** The authenticated caller *)

Module Auth.
Import JS.

(** [req.user].  A role that is not a string behaves as a role of an unknown
    name. *)
Record Principal := { id : value; role : string }.

(** The test of [requireRole(roles)]: [roles.includes(req.user.role)] *)
Definition hasRole (roles : list string) (p : Principal) : bool :=
  existsb (String.eqb (role p)) roles.

End Auth.

(** ** The booking service *)

Module Booking.
Import JS.
Export Auth.

(** The ENUM of the [status] column *)
Inductive Status := pending | confirmed | cancelled.

Global Instance Status_eq_dec : EqDecision Status.
Proof. solve_decision. Defined.

Definition status_name (s : Status) : string :=
  match s with
  | pending => "pending"
  | confirmed => "confirmed"
  | cancelled => "cancelled"
  end.

(** [allowedStatuses.includes(v)], with the member found *)
Definition status_of_value (v : value) : option Status :=
  match v with
  | VStr s =>
      if String.eqb s "pending" then Some pending
      else if String.eqb s "confirmed" then Some confirmed
      else if String.eqb s "cancelled" then Some cancelled
      else None
  | _ => None
  end.

(** The attributes of the Sequelize model [Booking]: the columns of a row.
    [userId], [venueId], [vendorId], [guestCount] and [minGuests] are
    INTEGER, [date] is DATEONLY, [flatPrice], [perHeadPrice] and
    [totalPrice] are FLOAT, [additionalServices] is JSONB, [pricingType] and
    [status] are ENUM. *)
Record Booking := {
  userId : value;
  venueId : value;
  vendorId : value;
  date : value;
  guestCount : value;
  pricingType : value;
  flatPrice : value;
  perHeadPrice : value;
  minGuests : value;
  additionalServices : value;
  totalPrice : value;
  status : Status
}.

(** The object handed to [Booking.create] *)
Record BookingAttrs := {
  a_userId : value;
  a_venueId : value;
  a_vendorId : value;
  a_date : value;
  a_guestCount : value;
  a_pricingType : value;
  a_flatPrice : value;
  a_perHeadPrice : value;
  a_minGuests : value;
  a_additionalServices : value;
  a_totalPrice : value;
  a_status : value
}.

(** The types of the columns whose values the database converts. *)
Inductive ColumnType := INTEGER | FLOAT | DATEONLY | JSONB.

(** The table: rows by primary key, and the next key of the sequence. *)
Record Store := { rows : gmap Z Booking; nextId : Z }.

(** What a handler may throw into its [catch]. *)
Inductive exn :=
| TypeError
| DatabaseError.

Inductive Response :=
| ErrorJson (code : Z) (message : string) (details : option value)
| ThrownJson (code : Z) (err : exn)
| BookingJson (code : Z) (key : Z) (b : Booking)
| DeletedJson.

(** [errorResponse(res, status, message, details = null)] *)
Definition errorResponse (code : Z) (message : string) (details : value) : Response :=
  ErrorJson code message (if truthy details then Some details else None).

Definition is_success (r : Response) : bool :=
  match r with
  | BookingJson _ _ _ | DeletedJson => true
  | _ => false
  end.

Definition is_forbidden (r : Response) : bool :=
  match r with
  | ErrorJson 403 _ _ => true
  | _ => false
  end.

(** The course of a handler body: an early [return] of a response, an
    exception on its way to the [catch], or the next statement. *)
Inductive outcome (A : Type) :=
| Return (r : Response)
| Throw (e : exn)
| Next (a : A).
Arguments Return {A} r.
Arguments Throw {A} e.
Arguments Next {A} a.

Global Instance outcome_bind : MBind outcome := λ A B f m,
  match m with
  | Return r => Return r
  | Throw e => Throw e
  | Next a => f a
  end.

Definition or_throw {A} (o : option A) : outcome A :=
  match o with
  | Some a => Next a
  | None => Throw TypeError
  end.

(** [v === s] for a string literal [s] *)
Definition is_str (s : string) (v : value) : bool :=
  match v with
  | VStr t => String.eqb t s
  | _ => false
  end.

Definition dquote : string := String (Ascii.ascii_of_nat 34) EmptyString.

Definition day_ms : Q := 1000 * 60 * 60 * 24.

Section Handlers.
Context `{JSRuntime}.

(** The venue service: the body of the reply to
    GET /api/venue/venues/:venueId, [None] when the call fails. *)
Variable venueService_get : value → option value.

(** The verdict of the database on the columns of a new row. *)
Variable insert_ok : BookingAttrs → bool.

(** The conversion of the database: [column t v] is the value that a column
    of type [t] holds once [v] has been written to it, which is also the
    value in the row that [Booking.create] answers; [None] when the database
    refuses [v] for the type. *)
Variable column : ColumnType → value → option value.

(** *** POST /api/booking/bookings *)

(** The user the booking is for. *)
Definition resolveUserId (p : Principal) (body : gmap string value) : outcome value :=
  requestedUserId ←
    (if negb (String.eqb (role p) "admin") then
       _ ← (if truthy (field "userId" body)
            then or_throw (same_string (field "userId" body) (id p))
            else Next false);
       Next (id p)
     else if negb (truthy (field "userId" body)) then
       Return (errorResponse 400
         "userId is required when admin creates booking for a user" VNull)
     else Next (field "userId" body));
  if negb (truthy requestedUserId)
  then Return (errorResponse 400 "userId is required" VNull)
  else Next requestedUserId.

(** [venueId] and [vendorId] are present and the venue belongs to the vendor. *)
Definition verifyVenue (body : gmap string value) : outcome unit :=
  let venueId := field "venueId" body in
  let vendorId := field "vendorId" body in
  if negb (truthy venueId) then
    Return (errorResponse 400 "venueId is required" VNull)
  else if negb (truthy vendorId) then
    Return (errorResponse 400 "vendorId is required" VNull)
  else
    match venue ← venueService_get venueId;
          v ← get_prop "vendorId" venue;
          same_string v vendorId with
    | Some true => Next ()
    | Some false =>
        Return (errorResponse 400 "vendorId does not match the venue's vendor" VNull)
    | None => Return (errorResponse 500 "Error verifying venue ownership" VNull)
    end.

(** [guests] stands in for a missing [guestCount]; the count is parsed. *)
Definition guestCount_of (body : gmap string value) : value :=
  if negb (truthy (field "guestCount" body)) && truthy (field "guests" body)
  then field "guests" body
  else field "guestCount" body.

Definition resolveGuestCount (body : gmap string value) : outcome number :=
  let guestCount := guestCount_of body in
  if negb (truthy guestCount)
     || isNaN (parseInt guestCount)
     || num_le (parseInt guestCount) (Num 0)
  then Return (errorResponse 400 "Valid guestCount is required" VNull)
  else Next (parseInt guestCount).

Definition validateDate (now : Z) (body : gmap string value) : outcome unit :=
  let date := field "date" body in
  if negb (truthy date) then
    Return (errorResponse 400 "Booking date is required" VNull)
  else if num_lt (newDate date) (of_Z now) then
    Return (errorResponse 400 "Booking date must be in the future" VNull)
  else Next ().

(** The pricing fields after normalisation, and the price before the
    additional services. *)
Record Priced := {
  p_flatPrice : value;
  p_perHeadPrice : value;
  p_minGuests : value;
  p_totalPrice : number
}.

(** [pricingType = 'flat'] in the destructuring: the default of a missing key *)
Definition pricingType_of (body : gmap string value) : value :=
  match field "pricingType" body with
  | VUndefined => VStr "flat"
  | v => v
  end.

(** [minGuests] after its normalisation: 1 when it is not supplied *)
Definition minGuests_of (body : gmap string value) : number :=
  if negb (truthy (field "minGuests" body)) then Num 1
  else parseInt (field "minGuests" body).

Definition computePrice (body : gmap string value) (guestCount : number) : outcome Priced :=
  let flatPrice := field "flatPrice" body in
  let perHeadPrice := field "perHeadPrice" body in
  let minGuests := field "minGuests" body in
  if is_str "flat" (pricingType_of body) then
    if negb (truthy flatPrice)
       || isNaN (parseFloat flatPrice)
       || num_le (parseFloat flatPrice) (Num 0)
    then Return (errorResponse 400 "flatPrice is required for flat pricing type" VNull)
    else Next {| p_flatPrice := VNum (parseFloat flatPrice);
                 p_perHeadPrice := perHeadPrice;
                 p_minGuests := minGuests;
                 p_totalPrice := parseFloat flatPrice |}
  else if is_str "per_head" (pricingType_of body) then
    if negb (truthy perHeadPrice)
       || isNaN (parseFloat perHeadPrice)
       || num_le (parseFloat perHeadPrice) (Num 0)
    then Return (errorResponse 400 "perHeadPrice is required for per_head pricing type" VNull)
    else
      let minGuests' := minGuests_of body in
      if num_lt guestCount minGuests' then
        Return (errorResponse 400
          ("Guest count (" ++ show (VNum guestCount)
           ++ ") below minimum required (" ++ show (VNum minGuests') ++ ")") VNull)
      else Next {| p_flatPrice := flatPrice;
                   p_perHeadPrice := VNum (parseFloat perHeadPrice);
                   p_minGuests := VNum minGuests';
                   p_totalPrice := num_mul guestCount (parseFloat perHeadPrice) |}
  else
    Return (errorResponse 400
      ("Invalid pricingType. Must be " ++ dquote ++ "flat" ++ dquote
       ++ " or " ++ dquote ++ "per_head" ++ dquote ++ ".") VNull).

(** [items.reduce((sum, s) => sum + (s.price || 0), sum0)] *)
Fixpoint reduce_prices (sum : value) (items : list value) : option value :=
  match items with
  | [] => Some sum
  | s :: rest =>
      price ← get_prop "price" s;
      sum' ← js_add sum (js_or price (VNum (Num 0)));
      reduce_prices sum' rest
  end.

(** [if (Array.isArray(additionalServices)) totalPrice += ...] *)
Definition addServices (totalPrice : number) (additionalServices : value) : outcome value :=
  match additionalServices with
  | VArr items =>
      or_throw (extra ← reduce_prices (VNum (Num 0)) items;
                js_add (VNum totalPrice) extra)
  | _ => Next (VNum totalPrice)
  end.

(** [v] is a member of ENUM('flat', 'per_head') *)
Definition is_pricingType (v : value) : bool := is_str "flat" v || is_str "per_head" v.

(** The row of a new booking: each value as its column holds it. *)
Definition Booking_row (a : BookingAttrs) (st : Status) : option Booking :=
  userId ← column INTEGER (a_userId a);
  venueId ← column INTEGER (a_venueId a);
  vendorId ← column INTEGER (a_vendorId a);
  date ← column DATEONLY (a_date a);
  guestCount ← column INTEGER (a_guestCount a);
  flatPrice ← column FLOAT (a_flatPrice a);
  perHeadPrice ← column FLOAT (a_perHeadPrice a);
  minGuests ← column INTEGER (a_minGuests a);
  additionalServices ← column JSONB (a_additionalServices a);
  totalPrice ← column FLOAT (a_totalPrice a);
  Some {| userId := userId; venueId := venueId; vendorId := vendorId; date := date;
          guestCount := guestCount; pricingType := a_pricingType a;
          flatPrice := flatPrice; perHeadPrice := perHeadPrice;
          minGuests := minGuests; additionalServices := additionalServices;
          totalPrice := totalPrice; status := st |}.

(** [Booking.create]: the two ENUMs are checked, the values are converted
    to their columns, the row gets the next key and is the answer. *)
Definition Booking_create (a : BookingAttrs) (db : Store) : outcome (Z * Booking * Store) :=
  match status_of_value (a_status a) with
  | Some st =>
      if is_pricingType (a_pricingType a) && insert_ok a then
        match Booking_row a st with
        | Some b =>
            Next (nextId db, b,
                  {| rows := <[nextId db := b]> (rows db); nextId := (nextId db + 1)%Z |})
        | None => Throw DatabaseError
        end
      else Throw DatabaseError
  | None => Throw DatabaseError
  end.

Definition createBooking_body (now : Z) (p : Principal) (body : gmap string value)
    (db : Store) : outcome (Z * Booking * Store) :=
  userId ← resolveUserId p body;
  _ ← verifyVenue body;
  guestCount ← resolveGuestCount body;
  _ ← validateDate now body;
  priced ← computePrice body guestCount;
  totalPrice ← addServices (p_totalPrice priced) (field "additionalServices" body);
  Booking_create
    {| a_userId := userId;
       a_venueId := field "venueId" body;
       a_vendorId := field "vendorId" body;
       a_date := field "date" body;
       a_guestCount := VNum guestCount;
       a_pricingType := pricingType_of body;
       a_flatPrice := p_flatPrice priced;
       a_perHeadPrice := p_perHeadPrice priced;
       a_minGuests := p_minGuests priced;
       a_additionalServices := field "additionalServices" body;
       a_totalPrice := totalPrice;
       a_status := js_or (field "status" body) (VStr "pending") |} db.

Definition createBooking (now : Z) (p : Principal) (body : gmap string value)
    (db : Store) : Response * Store :=
  match createBooking_body now p body db with
  | Return r => (r, db)
  | Throw e => (ThrownJson 400 e, db)
  | Next (key, b, db') => (BookingJson 201 key b, db')
  end.

(** *** The instance method [booking.update(values)] *)

(** [booking.set(k, v)]: a key that is no attribute of the model is
    dropped; the ENUM of [status] is checked ([None]: the update throws). *)
Definition set_attribute (k : string) (v : value) (b : Booking) : option Booking :=
  let 'Build_Booking u ve vd d g pt fp ph mg ad tp st := b in
  if String.eqb k "userId" then Some (Build_Booking v ve vd d g pt fp ph mg ad tp st)
  else if String.eqb k "venueId" then Some (Build_Booking u v vd d g pt fp ph mg ad tp st)
  else if String.eqb k "vendorId" then Some (Build_Booking u ve v d g pt fp ph mg ad tp st)
  else if String.eqb k "date" then Some (Build_Booking u ve vd v g pt fp ph mg ad tp st)
  else if String.eqb k "guestCount" then Some (Build_Booking u ve vd d v pt fp ph mg ad tp st)
  else if String.eqb k "pricingType" then Some (Build_Booking u ve vd d g v fp ph mg ad tp st)
  else if String.eqb k "flatPrice" then Some (Build_Booking u ve vd d g pt v ph mg ad tp st)
  else if String.eqb k "perHeadPrice" then Some (Build_Booking u ve vd d g pt fp v mg ad tp st)
  else if String.eqb k "minGuests" then Some (Build_Booking u ve vd d g pt fp ph v ad tp st)
  else if String.eqb k "additionalServices" then Some (Build_Booking u ve vd d g pt fp ph mg v tp st)
  else if String.eqb k "totalPrice" then Some (Build_Booking u ve vd d g pt fp ph mg ad v st)
  else if String.eqb k "status" then
    st' ← status_of_value v; Some (Build_Booking u ve vd d g pt fp ph mg ad tp st')
  else Some b.

Fixpoint set_attributes (values : list (string * value)) (b : Booking) : option Booking :=
  match values with
  | [] => Some b
  | (k, v) :: rest =>
      match v with
      | VUndefined => set_attributes rest b
      | _ => b' ← set_attribute k v b; set_attributes rest b'
      end
  end.

(** The row of the instance is written back under its key. *)
Definition Booking_update (key : Z) (b : Booking) (values : list (string * value))
    (db : Store) : outcome (Booking * Store) :=
  match set_attributes values b with
  | Some b' => Next (b', {| rows := <[key := b']> (rows db); nextId := nextId db |})
  | None => Throw DatabaseError
  end.

(** *** The middleware [requireBookingOwnership] *)

(** The test of the middleware; [None] when a [toString] call throws. *)
Definition canAccessBooking (p : Principal) (b : Booking) : option bool :=
  if String.eqb (role p) "admin" then Some true
  else
    owner ← (if truthy (userId b) then same_string (userId b) (id p) else Some false);
    if owner : bool then Some true
    else if String.eqb (role p) "vendor" && truthy (vendorId b)
    then same_string (vendorId b) (id p)
    else Some false.

Definition requireBookingOwnership (p : Principal) (key : Z) (db : Store) : outcome Booking :=
  match rows db !! key with
  | None => Return (errorResponse 404 "Booking not found" VNull)
  | Some b =>
      match canAccessBooking p b with
      | Some true => Next b
      | Some false =>
          Return (errorResponse 403 "You do not have permission to access this booking" VNull)
      | None => Return (errorResponse 500 "Error verifying booking ownership" VNull)
      end
  end.

(** *** PUT /api/booking/bookings/:id/status *)

(** [Math.ceil((bookingDate - currentDate) / (1000 * 60 * 60 * 24))] *)
Definition daysDifference (now : Z) (b : Booking) : number :=
  Math_ceil (num_div (num_sub (newDate (date b)) (of_Z now)) (Num day_ms)).

(** The role checks of a change of status. *)
Definition checkTransition (now : Z) (p : Principal) (b : Booking) (newStatus : Status)
    : outcome unit :=
  match newStatus with
  | confirmed =>
      if negb (String.eqb (role p) "admin") then
        denied ← (if negb (String.eqb (role p) "vendor") then Next true
                  else same ← or_throw (same_string (vendorId b) (id p));
                       Next (negb same));
        if denied : bool then
          Return (errorResponse 403
            "Only the venue vendor or administrators can confirm bookings" VNull)
        else Next ()
      else Next ()
  | cancelled =>
      if decide (status b = confirmed) then
        if num_lt (daysDifference now b) (Num 3) && String.eqb (role p) "user" then
          Return (errorResponse 403
            "Cannot cancel confirmed booking with less than 3 days notice"
            (VObj (<["daysDifference" := VNum (daysDifference now b)]>
                   (<["minDaysRequired" := VNum (Num 3)]> ∅))))
        else Next ()
      else Next ()
  | pending => Next ()
  end.

Definition updateStatus_body (now : Z) (p : Principal) (key : Z) (b : Booking)
    (body : gmap string value) (db : Store) : outcome (Booking * Store) :=
  match (if truthy (field "status" body)
         then status_of_value (field "status" body) else None) with
  | None =>
      Return (errorResponse 400 "Invalid status value"
                (VStr "Status must be one of: pending, confirmed, cancelled"))
  | Some newStatus =>
      if decide (status b = newStatus) then Return (BookingJson 200 key b)
      else
        _ ← checkTransition now p b newStatus;
        Booking_update key b [("status", VStr (status_name newStatus))] db
  end.

Definition updateBookingStatus (now : Z) (p : Principal) (key : Z)
    (body : gmap string value) (db : Store) : Response * Store :=
  match requireBookingOwnership p key db with
  | Return r => (r, db)
  | Throw _ => (errorResponse 500 "Error verifying booking ownership" VNull, db)
  | Next b =>
      match updateStatus_body now p key b body db with
      | Return r => (r, db)
      | Throw _ => (errorResponse 500 "Failed to update booking status" VNull, db)
      | Next (b', db') => (BookingJson 200 key b', db')
      end
  end.

(** *** DELETE /api/booking/bookings/:id *)

Definition deletion_values (now : Z) (p : Principal) (body : gmap string value)
    : list (string * value) :=
  [ ("status", VStr "cancelled");
    ("deletedBy", id p);
    ("deletedAt", VNum (of_Z now));
    ("deletionReason", js_or (field "reason" body) (VStr "User requested deletion")) ].

Definition deleteBooking_body (now : Z) (p : Principal) (key : Z) (b : Booking)
    (body : gmap string value) (db : Store) : outcome (Booking * Store) :=
  denied ← (if negb (String.eqb (role p) "admin")
            then same ← or_throw (same_string (userId b) (id p)); Next (negb same)
            else Next false);
  if denied : bool then
    Return (errorResponse 403
      "Only administrators or the booking owner can delete bookings" VNull)
  else Booking_update key b (deletion_values now p body) db.

Definition deleteBooking (now : Z) (p : Principal) (key : Z)
    (body : gmap string value) (db : Store) : Response * Store :=
  match requireBookingOwnership p key db with
  | Return r => (r, db)
  | Throw _ => (errorResponse 500 "Error verifying booking ownership" VNull, db)
  | Next b =>
      match deleteBooking_body now p key b body db with
      | Return r => (r, db)
      | Throw _ => (errorResponse 500 "Failed to delete booking" VNull, db)
      | Next (_, db') => (DeletedJson, db')
      end
  end.

(** *** GET /api/booking/bookings/:id *)

Definition getBooking (p : Principal) (key : Z) (db : Store) : Response :=
  match rows db !! key with
  | None => errorResponse 404 "Booking not found" VNull
  | Some b =>
      match
        isVendor ← (if String.eqb (role p) "vendor"
                    then same_string (vendorId b) (id p) else Some false);
        isOwner ← same_string (userId b) (id p);
        Some (String.eqb (role p) "admin" || isVendor || isOwner)
      with
      | Some true => BookingJson 200 key b
      | Some false =>
          errorResponse 403 "You do not have permission to access this booking" VNull
      | None => errorResponse 500 "Failed to retrieve booking" VNull
      end
  end.

End Handlers.

End Booking.


(** ** The quote routes of the service-provider service *)

Module Quotes.
Import JS.
Export Auth.

(** The ENUM of [Quote.status] *)
Inductive QuoteStatus := draft | sent | viewed | accepted | rejected | expired | invoiced.

Global Instance QuoteStatus_eq_dec : EqDecision QuoteStatus.
Proof. solve_decision. Defined.

Definition quoteStatus_name (s : QuoteStatus) : string :=
  match s with
  | draft => "draft" | sent => "sent" | viewed => "viewed"
  | accepted => "accepted" | rejected => "rejected"
  | expired => "expired" | invoiced => "invoiced"
  end.

(** The attributes of the models [Quote], [QuoteItem], [Invoice] and
    [InvoiceItem]; the primary key of a quote and of an invoice is the key of
    its row in the table. *)
Record Quote := {
  quoteRequestId : value;
  serviceProviderId : value;
  userId : value;
  customerName : value;
  customerEmail : value;
  serviceDate : value;
  totalAmount : value;
  note : value;
  status : QuoteStatus;
  validUntil : value
}.

Record QuoteItem := {
  qi_quoteId : Z;
  qi_itemName : value;
  qi_description : value;
  qi_quantity : value;
  qi_unitPrice : value
}.

Inductive InvoiceStatus := inv_pending | inv_paid | inv_overdue | inv_cancelled.

Record Invoice := {
  i_quoteId : Z;
  i_serviceProviderId : value;
  i_userId : value;
  i_customerName : value;
  i_customerEmail : value;
  i_serviceDate : value;
  i_totalAmount : value;
  i_status : InvoiceStatus;
  i_dueDate : Z;
  i_paymentLink : string;
  i_paymentDate : value;
  i_paymentReference : value
}.

Record InvoiceItem := {
  ii_invoiceId : Z;
  ii_itemName : value;
  ii_description : value;
  ii_quantity : value;
  ii_unitPrice : value
}.

(** The tables. *)
Record Store := {
  quotes : gmap Z Quote;
  quoteItems : list QuoteItem;
  invoices : gmap Z Invoice;
  invoiceItems : list InvoiceItem
}.

(** The database as a request sees it: the committed tables, the working
    copy of the open transaction if there is one, the sequence of invoice
    keys (a sequence is not rolled back), and for each write to come
    whether it throws. *)
Record World := {
  store : Store;
  tx : option Store;
  invoiceSeq : Z;
  faults : list bool
}.

Inductive exn :=
| ReferenceError
| DatabaseError.

(** A database action: its result or the exception it throws, and the world
    it leaves. *)
Definition DB (A : Type) : Type := World → (exn + A) * World.

Global Instance DB_bind : MBind DB := λ A B f m w,
  match m w with
  | (inl e, w') => (inl e, w')
  | (inr a, w') => f a w'
  end.

Definition ret {A} (a : A) : DB A := λ w, (inr a, w).
Definition throw {A} (e : exn) : DB A := λ w, (inl e, w).

(** A write.  With [{ transaction: t }] it goes to the working copy of the
    transaction; without, it is committed at once. *)
Definition write (in_tx : bool) (f : Store → Store) : DB () := λ w,
  match faults w with
  | true :: rest =>
      (inl DatabaseError,
       {| store := store w; tx := tx w; invoiceSeq := invoiceSeq w; faults := rest |})
  | _ =>
      let rest := tail (faults w) in
      match in_tx, tx w with
      | true, Some s =>
          (inr (), {| store := store w; tx := Some (f s);
                      invoiceSeq := invoiceSeq w; faults := rest |})
      | _, _ =>
          (inr (), {| store := f (store w); tx := f <$> tx w;
                      invoiceSeq := invoiceSeq w; faults := rest |})
      end
  end.

(** [sequelize.transaction(async t => body)]: the body runs on a working
    copy; the copy is committed when the body returns and dropped when it
    throws.  The commit is a write that may throw. *)
Definition transaction {A} (body : DB A) : DB A := λ w,
  match body {| store := store w; tx := Some (store w);
                invoiceSeq := invoiceSeq w; faults := faults w |} with
  | (inl e, w') =>
      (inl e, {| store := store w'; tx := None;
                 invoiceSeq := invoiceSeq w'; faults := faults w' |})
  | (inr a, w') =>
      match faults w' with
      | true :: rest =>
          (inl DatabaseError, {| store := store w'; tx := None;
                                 invoiceSeq := invoiceSeq w'; faults := rest |})
      | _ =>
          (inr a, {| store := default (store w') (tx w'); tx := None;
                     invoiceSeq := invoiceSeq w'; faults := tail (faults w') |})
      end
  end.

Definition set_quote_status (st : QuoteStatus) (q : Quote) : Quote :=
  {| quoteRequestId := quoteRequestId q;
     serviceProviderId := serviceProviderId q; userId := userId q;
     customerName := customerName q; customerEmail := customerEmail q;
     serviceDate := serviceDate q; totalAmount := totalAmount q;
     note := note q; status := st; validUntil := validUntil q |}.

Definition put_quote (key : Z) (q : Quote) (s : Store) : Store :=
  {| quotes := <[key := q]> (quotes s); quoteItems := quoteItems s;
     invoices := invoices s; invoiceItems := invoiceItems s |}.

Definition put_invoice (key : Z) (i : Invoice) (s : Store) : Store :=
  {| quotes := quotes s; quoteItems := quoteItems s;
     invoices := <[key := i]> (invoices s); invoiceItems := invoiceItems s |}.

Definition add_invoiceItem (it : InvoiceItem) (s : Store) : Store :=
  {| quotes := quotes s; quoteItems := quoteItems s;
     invoices := invoices s; invoiceItems := invoiceItems s ++ [it] |}.

(** [quote.update({ status }, options)] *)
Definition Quote_update (in_tx : bool) (key : Z) (q : Quote) (st : QuoteStatus) : DB () :=
  write in_tx (put_quote key (set_quote_status st q)).

(** [Invoice.create(values, { transaction: t })]: the key comes from the
    sequence. *)
Definition Invoice_create (in_tx : bool) (i : Invoice) : DB Z := λ w,
  let key := invoiceSeq w in
  match write in_tx (put_invoice key i)
          {| store := store w; tx := tx w; invoiceSeq := (key + 1)%Z; faults := faults w |} with
  | (inl e, w') => (inl e, w')
  | (inr _, w') => (inr key, w')
  end.

Definition InvoiceItem_create (in_tx : bool) (it : InvoiceItem) : DB InvoiceItem :=
  _ ← write in_tx (add_invoiceItem it); ret it.

(** [Promise.all(items.map(create))], one creation after the other *)
Fixpoint create_all {A B} (create : A → DB B) (items : list A) : DB (list B) :=
  match items with
  | [] => ret []
  | x :: rest => y ← create x; ys ← create_all create rest; ret (y :: ys)
  end.

(** The items of a quote: the association [items] *)
Definition items_of (key : Z) (s : Store) : list QuoteItem :=
  filter (λ it, qi_quoteId it = key) (quoteItems s).

(** [Quote.findByPk(id)] and [Quote.findByPk(id, { include: items })] *)
Definition Quote_findByPk (key : Z) : DB (option Quote) := λ w,
  (inr (quotes (store w) !! key), w).

Definition Quote_findByPk_items (key : Z) : DB (option (Quote * list QuoteItem)) := λ w,
  (inr ((λ q, (q, items_of key (store w))) <$> quotes (store w) !! key), w).

Inductive Body :=
| ErrorBody (error : string)
| QuoteBody (message : string) (q : option (Quote * list QuoteItem))
| InvoiceBody (message : string) (key : Z) (i : Invoice) (items : list InvoiceItem).

Record Response := { code : Z; body : Body }.

Definition seven_days : Z := 7 * 24 * 60 * 60 * 1000.

Section Handlers.
Context `{JSRuntime}.

(** Whether the identifier [sequelize] resolves in the route module.  The
    module takes the models from ../models and does not take [sequelize];
    the identifier resolves only if a global of that name exists. *)
Variable sequelize_in_scope : bool.

(** The handler body behind [authorizeRole(['user'])]:
    POST /:id/accept. *)
Definition acceptQuote_body (now : Z) (p : Principal) (key : Z) : DB Response :=
  found ← Quote_findByPk key;
  match found with
  | None => ret {| code := 404; body := ErrorBody "Quote not found" |}
  | Some quote =>
      if negb (strict_eq (userId quote) (id p)) then
        ret {| code := 403;
               body := ErrorBody "You are not authorized to accept this quote" |}
      else if negb (bool_decide (status quote = sent))
              && negb (bool_decide (status quote = viewed)) then
        ret {| code := 400;
               body := ErrorBody ("Cannot accept quote with status: "
                                  ++ quoteStatus_name (status quote)) |}
      else if num_lt (newDate (validUntil quote)) (of_Z now) then
        _ ← Quote_update false key quote expired;
        ret {| code := 400; body := ErrorBody "This quote has expired" |}
      else
        _ ← Quote_update false key quote accepted;
        q ← Quote_findByPk_items key;
        ret {| code := 200; body := QuoteBody "Quote accepted successfully" q |}
  end.

(** POST /:id/reject. *)
Definition rejectQuote_body (now : Z) (p : Principal) (key : Z) : DB Response :=
  found ← Quote_findByPk key;
  match found with
  | None => ret {| code := 404; body := ErrorBody "Quote not found" |}
  | Some quote =>
      if negb (strict_eq (userId quote) (id p)) then
        ret {| code := 403;
               body := ErrorBody "You are not authorized to reject this quote" |}
      else if negb (bool_decide (status quote = sent))
              && negb (bool_decide (status quote = viewed)) then
        ret {| code := 400;
               body := ErrorBody ("Cannot reject quote with status: "
                                  ++ quoteStatus_name (status quote)) |}
      else
        _ ← Quote_update false key quote rejected;
        q ← Quote_findByPk_items key;
        ret {| code := 200; body := QuoteBody "Quote rejected successfully" q |}
  end.

Definition invoice_of (now : Z) (key : Z) (quote : Quote) : Invoice :=
  {| i_quoteId := key;
     i_serviceProviderId := serviceProviderId quote;
     i_userId := userId quote;
     i_customerName := customerName quote;
     i_customerEmail := customerEmail quote;
     i_serviceDate := serviceDate quote;
     i_totalAmount := totalAmount quote;
     i_status := inv_pending;
     i_dueDate := (now + seven_days)%Z;
     i_paymentLink := "/payment/" ++ show (VNum (of_Z key));
     i_paymentDate := VNull;
     i_paymentReference := VNull |}.

Definition invoiceItem_of (invoiceId : Z) (item : QuoteItem) : InvoiceItem :=
  {| ii_invoiceId := invoiceId;
     ii_itemName := qi_itemName item;
     ii_description := qi_description item;
     ii_quantity := qi_quantity item;
     ii_unitPrice := qi_unitPrice item |}.

(** The callback of the transaction. *)
Definition invoice_transaction (now : Z) (key : Z) (quote : Quote)
    (items : list QuoteItem) : DB (Z * Invoice * list InvoiceItem) :=
  invoiceId ← Invoice_create true (invoice_of now key quote);
  invoiceItems ←
    create_all (λ item, InvoiceItem_create true (invoiceItem_of invoiceId item)) items;
  _ ← Quote_update true key quote invoiced;
  ret (invoiceId, invoice_of now key quote, invoiceItems).

(** POST /:id/invoice, behind [authorizeRole(['service_provider'])]. *)
Definition createInvoice_body (now : Z) (p : Principal) (key : Z) : DB Response :=
  found ← Quote_findByPk_items key;
  match found with
  | None => ret {| code := 404; body := ErrorBody "Quote not found" |}
  | Some (quote, items) =>
      if negb (strict_eq (serviceProviderId quote) (id p)) then
        ret {| code := 403;
               body := ErrorBody "You are not authorized to create an invoice for this quote" |}
      else if negb (bool_decide (status quote = accepted)) then
        ret {| code := 400;
               body := ErrorBody ("Cannot create invoice for quote with status: "
                                  ++ quoteStatus_name (status quote)) |}
      else
        result ← (if sequelize_in_scope
                  then transaction (invoice_transaction now key quote items)
                  else throw ReferenceError);
        let '(invoiceId, invoice, invoiceItems) := result in
        ret {| code := 201;
               body := InvoiceBody "Invoice created successfully"
                         invoiceId invoice invoiceItems |}
  end.

(** Modelled from the spec: the middleware [authorizeRole(roles)] of
    middleware/auth.js, which is not among the sources; it lets through the
    principals whose role is one of [roles] and answers 403 to the others,
    as [requireRole] of the booking service does.  A route is this gate,
    the handler body, and the [catch] of the body. *)
Definition route (roles : list string) (failure : string) (handler : DB Response)
    (p : Principal) : World → Response * World := λ w,
  if negb (hasRole roles p) then
    ({| code := 403; body := ErrorBody "Insufficient permissions" |}, w)
  else
    match handler w with
    | (inr r, w') => (r, w')
    | (inl _, w') => ({| code := 500; body := ErrorBody failure |}, w')
    end.

Definition acceptQuote (now : Z) (p : Principal) (key : Z) :=
  route ["user"] "Error accepting quote" (acceptQuote_body now p key) p.

Definition rejectQuote (now : Z) (p : Principal) (key : Z) :=
  route ["user"] "Error rejecting quote" (rejectQuote_body now p key) p.

Definition createInvoiceFromQuote (now : Z) (p : Principal) (key : Z) :=
  route ["service_provider"] "Error creating invoice" (createInvoice_body now p key) p.

End Handlers.

End Quotes.

(** ** A reference runtime

    A runtime to run the handlers on concrete requests.  It is exact on the
    values the examples use: integers below 10^15 in absolute value, strings
    of decimal digits and calendar dates written YYYY-MM-DD with a day up to
    28, which JavaScript reads at midnight UTC; elsewhere it answers NaN or
    [None]. *)

Module Reference.
Import JS.

Definition digits (s : string) : option Z :=
  match s with
  | "" => None
  | _ => Z.of_uint <$> NilEmpty.uint_of_string s
  end.

Definition integral (q : Q) : bool :=
  Qeq_bool q (inject_Z (Qfloor q)) && (Z.abs (Qfloor q) <? 10 ^ 15)%Z.

Definition ref_parseInt (v : value) : number :=
  match v with
  | VNum (Num q) => if integral q then Num (inject_Z (Qfloor q)) else NaN
  | VStr s => from_option of_Z NaN (digits s)
  | _ => NaN
  end.

Definition ref_parseFloat (v : value) : number :=
  match v with
  | VNum n => n
  | VStr s => from_option of_Z NaN (digits s)
  | _ => NaN
  end.

Definition ref_toString (v : value) : option string :=
  match v with
  | VStr s => Some s
  | VBool b => Some (if b then "true" else "false")
  | VNum (Num q) =>
      if integral q then Some (NilZero.string_of_int (Z.to_int (Qfloor q))) else None
  | _ => None
  end.

(** Days from 1970-01-01 to the civil date [y]-[m]-[d]. *)
Definition days_from_civil (y m d : Z) : Z :=
  let y' := (if m <=? 2 then y - 1 else y)%Z in
  let era := (y' / 400)%Z in
  let yoe := (y' - era * 400)%Z in
  let doy := ((153 * (if 2 <? m then m - 3 else m + 9) + 2) / 5 + d - 1)%Z in
  let doe := (yoe * 365 + yoe / 4 - yoe / 100 + doy)%Z in
  (era * 146097 + doe - 719468)%Z.

Definition ref_newDate (v : value) : number :=
  match v with
  | VNum (Num q) => if integral q then Num (inject_Z (Qfloor q)) else NaN
  | VStr s =>
      if (String.length s =? 10)%nat
         && String.eqb (String.substring 4 1 s) "-" && String.eqb (String.substring 7 1 s) "-"
      then
        match digits (String.substring 0 4 s), digits (String.substring 5 2 s), digits (String.substring 8 2 s) with
        | Some y, Some m, Some d =>
            if ((1 <=? m) && (m <=? 12) && (1 <=? d) && (d <=? 28))%Z
            then of_Z (days_from_civil y m d * 86400000)
            else NaN
        | _, _, _ => NaN
        end
      else NaN
  | _ => NaN
  end.

Definition runtime : JSRuntime :=
  {| parseInt := ref_parseInt;
     parseFloat := ref_parseFloat;
     toString := ref_toString;
     newDate := ref_newDate |}.

End Reference.

(** ** Concrete requests

    The data of the examples, run on the reference runtime.  The clock reads
    1793577600000 at 2026-11-02T00:00:00Z and 1793620800000 at noon of that
    day. *)

Module Scenario.
Import JS Booking Reference.

Definition obj (l : list (string * value)) : value := VObj (list_to_map l).
Definition n (z : Z) : value := VNum (of_Z z).

Definition midnight : Z := 1793577600000.
Definition noon : Z := 1793620800000.

Definition user7 : Principal := {| id := VStr "7"; role := "user" |}.
Definition vendor3 : Principal := {| id := VStr "3"; role := "vendor" |}.
Definition admin1 : Principal := {| id := VStr "1"; role := "admin" |}.

(** Venue 5 belongs to vendor 3. *)
Definition venue5 (venueId : value) : option value := Some (obj [("vendorId", n 3)]).
Definition accept_all (a : BookingAttrs) : bool := true.

(** A database that takes whole numbers and strings of digits for INTEGER
    and FLOAT, numbers for FLOAT, a date of the form YYYY-MM-DD for
    DATEONLY and every value for JSONB; a value that is not supplied is
    NULL. *)
Definition pg_column (t : ColumnType) (v : value) : option value :=
  match v with
  | VUndefined | VNull => Some VNull
  | _ =>
      match t, v with
      | INTEGER, VNum (Num q) =>
          if integral q && (Z.abs (Qfloor q) <? 2 ^ 31)%Z
          then Some (VNum (of_Z (Qfloor q))) else None
      | INTEGER, VStr s =>
          z ← digits s; if (z <? 2 ^ 31)%Z then Some (VNum (of_Z z)) else None
      | FLOAT, VNum (Num q) => Some v
      | FLOAT, VStr s => (λ z, VNum (of_Z z)) <$> digits s
      | DATEONLY, VStr s => if isNaN (ref_newDate v) then None else Some v
      | JSONB, _ => Some v
      | _, _ => None
      end
  end.
Definition empty_db : Store := {| rows := ∅; nextId := 1 |}.

(** 80 guests at 50 a head, minimum 50, with two services of 500 and 300. *)
Definition per_head_request : gmap string value := list_to_map
  [("venueId", n 5); ("vendorId", n 3); ("date", VStr "2026-12-20");
   ("guestCount", n 80); ("pricingType", VStr "per_head");
   ("perHeadPrice", n 50); ("minGuests", n 50);
   ("additionalServices",
      VArr [obj [("name", VStr "Decoration"); ("price", n 500)];
            obj [("name", VStr "DJ"); ("price", n 300)]])].

(** The same request with one service, whose price arrives as the string
    500. *)
Definition string_price_request : gmap string value :=
  <["additionalServices" := VArr [obj [("price", VStr "500")]]]> per_head_request.

(** The row that [per_head_request] of user 7 creates, with the status
    [st]. *)
Definition row1 (st : Status) : Booking :=
  {| userId := n 7; venueId := n 5; vendorId := n 3;
     date := VStr "2026-12-20"; guestCount := n 80;
     pricingType := VStr "per_head"; flatPrice := VNull;
     perHeadPrice := n 50; minGuests := n 50;
     additionalServices := field "additionalServices" per_head_request;
     totalPrice := n 4800; status := st |}.

(** A flat-price request for the day on which it is sent. *)
Definition today_request : gmap string value := list_to_map
  [("venueId", n 5); ("vendorId", n 3); ("date", VStr "2026-11-02");
   ("guestCount", n 80); ("flatPrice", n 5000)].

(** Booking 12 of user 7 at venue 5 of vendor 3. *)
Definition booking12 (st : Status) (day : string) : Booking :=
  {| userId := n 7; venueId := n 5; vendorId := n 3; date := VStr day;
     guestCount := n 80; pricingType := VStr "per_head"; flatPrice := VNull;
     perHeadPrice := n 50; minGuests := n 50; additionalServices := VArr [];
     totalPrice := n 4000; status := st |}.

Definition db12 (st : Status) (day : string) : Store :=
  {| rows := {[ 12%Z := booking12 st day ]}; nextId := 13 |}.

Definition ask (st : string) : gmap string value := {[ "status" := VStr st ]}.

End Scenario.

(** ** Vocabulary of the properties *)

Module BookingSpec.
Import JS Booking.

(** Two request bodies that differ at most at the key [k]. *)
Definition agree_except (k : string) (b1 b2 : gmap string value) : Prop :=
  ∀ k', k' ≠ k → b1 !! k' = b2 !! k'.

(** The price of an item, 0 when it is missing. *)
Definition item_price (s : value) : Q :=
  match s with
  | VObj o => match o !! "price" with Some (VNum (Num q)) => q | _ => 0 end
  | _ => 0
  end.

(** The sum of the prices of the additional services, 0 when there are none. *)
Definition services_sum (v : value) : Q :=
  match v with
  | VArr items => foldr (λ s acc, (item_price s + acc)%Q) 0%Q items
  | _ => 0
  end.

(** A whole number that is not negative, and an item of
    [additionalServices] whose price is such a number or is missing. *)
Definition whole (q : Q) : Prop := ∃ z : Z, (0 <= z)%Z ∧ (q == inject_Z z)%Q.

Definition whole_item (s : value) : Prop :=
  ∃ o, s = VObj o
       ∧ (o !! "price" = None ∨ ∃ q, o !! "price" = Some (VNum (Num q)) ∧ whole q).

Definition whole_services (v : value) : Prop :=
  match v with
  | VArr items => Forall whole_item items
  | _ => True
  end.

(** The object that the creation handler hands to [Booking.create], from
    what its checks have computed. *)
Definition attributes (body : gmap string value) (userId : value) (guestCount : number)
    (priced : Priced) (totalPrice : value) : BookingAttrs :=
  {| a_userId := userId;
     a_venueId := field "venueId" body;
     a_vendorId := field "vendorId" body;
     a_date := field "date" body;
     a_guestCount := VNum guestCount;
     a_pricingType := pricingType_of body;
     a_flatPrice := p_flatPrice priced;
     a_perHeadPrice := p_perHeadPrice priced;
     a_minGuests := p_minGuests priced;
     a_additionalServices := field "additionalServices" body;
     a_totalPrice := totalPrice;
     a_status := js_or (field "status" body) (VStr "pending") |}.

(** The status that a request asks for its booking: the member of the ENUM
    that the body names, [pending] when the body supplies none (a value that
    is missing, null, empty, 0 or false), and none when the body supplies
    something else. *)
Definition initial_status (body : gmap string value) : option Status :=
  match field "status" body with
  | VStr s =>
      if String.eqb s "" then Some pending
      else if String.eqb s "pending" then Some pending
      else if String.eqb s "confirmed" then Some confirmed
      else if String.eqb s "cancelled" then Some cancelled
      else None
  | VUndefined | VNull | VBool false => Some pending
  | VNum NaN => Some pending
  | VNum (Num q) => if Qeq_bool q 0 then Some pending else None
  | _ => None
  end.

(** The whole numbers that a double holds exactly lie below 2^53. *)
Definition exact_bound : Q := inject_Z (2 ^ 53).

(** A handler body that leaves early only with an error response. *)
Definition only_errors {A} (m : outcome A) : Prop :=
  ∀ r, m = Return r → is_success r = false.

(** The row [b] with the status [st]. *)
Definition with_status (st : Status) (b : Booking) : Booking :=
  {| userId := userId b; venueId := venueId b; vendorId := vendorId b;
     date := date b; guestCount := guestCount b; pricingType := pricingType b;
     flatPrice := flatPrice b; perHeadPrice := perHeadPrice b;
     minGuests := minGuests b; additionalServices := additionalServices b;
     totalPrice := totalPrice b; status := st |}.

(** The store with the row [b] under [key]. *)
Definition with_row (key : Z) (b : Booking) (db : Store) : Store :=
  {| rows := <[key := b]> (rows db); nextId := nextId db |}.

(** The status of the row under [key], if there is one. *)
Definition status_at (key : Z) (db : Store) : option Status :=
  status <$> rows db !! key.

Section Roles.
Context `{JSRuntime}.

(** A value whose [toString()] returns. *)
Definition printable (v : value) : Prop := is_Some (call_toString v).

Definition is_admin (p : Principal) : Prop := role p = "admin".

(** The vendor of the booking: a principal of role vendor whose id is the
    [vendorId] of the row. *)
Definition owning_vendor (p : Principal) (b : Booking) : Prop :=
  role p = "vendor" ∧ same_string (vendorId b) (id p) = Some true.

Definition may_confirm (p : Principal) (b : Booking) : Prop :=
  is_admin p ∨ owning_vendor p b.

Definition may_confirmb (p : Principal) (b : Booking) : bool :=
  String.eqb (role p) "admin"
  || (String.eqb (role p) "vendor"
      && bool_decide (same_string (vendorId b) (id p) = Some true)).

(** The status that the body of a status update asks for. *)
Definition requested (body : gmap string value) : option Status :=
  if truthy (field "status" body) then status_of_value (field "status" body) else None.

(** The status of a cancelled booking after a status update. *)
Definition after_cancelled (p : Principal) (b : Booking) (body : gmap string value) : Status :=
  if bool_decide (canAccessBooking p b = Some true) then
    match requested body with
    | Some pending => pending
    | Some confirmed => if may_confirmb p b then confirmed else cancelled
    | _ => cancelled
    end
  else cancelled.

(** The notice rule as the handler applies it: a user may not cancel a
    confirmed booking whose date is at most two days after now. *)
Definition short_notice (now : Z) (p : Principal) (b : Booking) : Prop :=
  status b = confirmed ∧ role p = "user"
  ∧ ∃ t, newDate (date b) = Num t ∧ (t - inject_Z now <= 2 * day_ms)%Q.

(** The claim that no status update leaves [cancelled]. *)
Definition cancelled_is_final : Prop :=
  ∀ now p key body db b,
    rows db !! key = Some b → status b = cancelled →
    status_at key (updateBookingStatus now p key body db).2 = Some cancelled.

(** The claim that a status update to [confirmed] succeeds only for an
    admin or the vendor of the booking, and is answered 403 for every other
    principal. *)
Definition confirm_only_by_vendor_or_admin : Prop :=
  ∀ now p key body db b,
    rows db !! key = Some b → field "status" body = VStr "confirmed" →
    printable (id p) → printable (userId b) → printable (vendorId b) →
    (is_success (updateBookingStatus now p key body db).1 = true → may_confirm p b)
    ∧ (¬ may_confirm p b →
       is_forbidden (updateBookingStatus now p key body db).1 = true).

(** The claim that the user who owns a confirmed booking is refused its
    cancellation whenever the date is fewer than three days after now. *)
Definition three_day_notice : Prop :=
  ∀ now p key body db b t,
    rows db !! key = Some b → status b = confirmed →
    canAccessBooking p b = Some true → role p = "user" →
    newDate (date b) = Num t → (t - inject_Z now < 3 * day_ms)%Q →
    field "status" body = VStr "cancelled" →
    is_forbidden (updateBookingStatus now p key body db).1 = true.

End Roles.

(** The price of a request: the pricing branch, then the additional
    services, as the creation handler chains them. *)
Definition computeTotal `{JSRuntime} (body : gmap string value) (guestCount : number)
    : outcome value :=
  priced ← computePrice body guestCount;
  addServices (p_totalPrice priced) (field "additionalServices" body).

End BookingSpec.

Module QuoteSpec.
Import JS Quotes Reference.

(** The tables after the invoice [invoiceId] of the quote [key] has been
    created with its items and the quote has been marked invoiced. *)
Definition invoiced_store `{JSRuntime} (now key : Z) (q : Quote) (invoiceId : Z)
    (s : Store) : Store :=
  put_quote key (set_quote_status invoiced q)
    (foldl (λ s' item, add_invoiceItem (invoiceItem_of invoiceId item) s')
       (put_invoice invoiceId (invoice_of now key q) s)
       (items_of key s)).

Definition n (z : Z) : value := VNum (of_Z z).

(** The client 7 and the provider 9, with the numeric ids of a decoded
    token. *)
Definition client7 : Principal := {| id := n 7; role := "user" |}.
Definition provider9 : Principal := {| id := n 9; role := "service_provider" |}.

(** Quote 5 of provider 9 for client 7, valid until 2026-11-02T00:00:00Z. *)
Definition quote5 (st : QuoteStatus) : Quote :=
  {| quoteRequestId := VNull; serviceProviderId := n 9; userId := n 7;
     customerName := VStr "Ann"; customerEmail := VStr "ann@example.org";
     serviceDate := VStr "2026-12-20"; totalAmount := n 800; note := VNull;
     status := st; validUntil := n 1793577600000 |}.

Definition items5 : list QuoteItem :=
  [ {| qi_quoteId := 5; qi_itemName := VStr "Decoration"; qi_description := VNull;
       qi_quantity := n 1; qi_unitPrice := n 500 |};
    {| qi_quoteId := 5; qi_itemName := VStr "DJ"; qi_description := VNull;
       qi_quantity := n 1; qi_unitPrice := n 300 |} ].

Definition store5 (st : QuoteStatus) : Store :=
  {| quotes := {[ 5%Z := quote5 st ]}; quoteItems := items5;
     invoices := ∅; invoiceItems := [] |}.

Definition world5 (st : QuoteStatus) (faults : list bool) : World :=
  {| store := store5 st; tx := None; invoiceSeq := 1; faults := faults |}.

End QuoteSpec.

(** ** Authentication: the booking service behind the gateway *)

Module Authn.
Import JS Booking.

Definition space : Ascii.ascii := Ascii.ascii_of_nat 32.

(** [s.split(' ')] *)
Fixpoint split_space (s : string) : list string :=
  match s with
  | EmptyString => [EmptyString]
  | String a rest =>
      if Ascii.eqb a space then EmptyString :: split_space rest
      else match split_space rest with
           | [] => [String a EmptyString]
           | h :: t => String a h :: t
           end
  end.

(** [authHeader.split(' ')[1]], [undefined] as [None] *)
Definition bearer_token (authHeader : string) : option string :=
  split_space authHeader !! 1%nat.

(** A header that is present and not empty: a truthy [req.headers[k]]. *)
Definition present (k : string) (headers : gmap string string) : bool :=
  match headers !! k with
  | Some v => negb (String.eqb v "")
  | None => false
  end.

(** [req.user = decoded]: the principal that the handlers read off a token
    payload.  A payload that is no object has neither id nor role. *)
Definition principal_of (decoded : value) : Principal :=
  match decoded with
  | VObj o =>
      {| id := field "id" o;
         role := match field "role" o with VStr r => r | _ => "" end |}
  | _ => {| id := VUndefined; role := "" |}
  end.

Inductive AuthResult :=
| Authenticated (user : Principal)
| Unauthorized (code : Z) (message : string).

(** The gateway's verdict on a request: passed on, with [req.user] when a
    token was verified, or answered by the gateway. *)
Inductive GatewayResult :=
| Forward (user : option value)
| Answered (code : Z) (message : string).

Record Request := { path : string; headers : gmap string string }.

Definition publicPaths : list string :=
  ["/api/health"; "/api/auth/login"; "/api/auth/register"].

Section Middleware.

(** [jwt.verify(token, JWT_SECRET)]: the payload, [None] when it throws. *)
Variable jwt_verify : string → option value.

(** The text that [proxyReq.setHeader] puts on the wire for a value, [None]
    when it throws. *)
Variable headerValue : value → option string.

(** [authenticateJWT] of the booking service. *)
Definition authenticateJWT (headers : gmap string string) : AuthResult :=
  if present "x-user-id" headers && present "x-user-role" headers then
    Authenticated {| id := VStr (default "" (headers !! "x-user-id"));
                     role := default "" (headers !! "x-user-role") |}
  else if negb (present "authorization" headers) then
    Unauthorized 401 "Authentication required"
  else
    let authHeader := default "" (headers !! "authorization") in
    if negb (String.prefix "Bearer " authHeader) then
      Unauthorized 401 "Invalid authorization format. Format is: Bearer [token]"
    else
      match bearer_token authHeader with
      | None | Some EmptyString => Unauthorized 401 "Empty token provided"
      | Some token =>
          match jwt_verify token with
          | Some decoded => Authenticated (principal_of decoded)
          | None => Unauthorized 401 "Invalid token"
          end
      end.

(** [requireRole(roles)] behind [authenticateJWT]. *)
Definition requireRole (roles : list string) (user : option Principal) : option Response :=
  match user with
  | None => Some (errorResponse 401 "Authentication required" VNull)
  | Some p =>
      if negb (hasRole roles p)
      then Some (errorResponse 403 "Insufficient permissions" VNull)
      else None
  end.

(** [jwtMiddleware] of the gateway. *)
Definition jwtMiddleware (req : Request) : GatewayResult :=
  if bool_decide (path req ∈ publicPaths) then Forward None
  else if negb (present "authorization" (headers req))
          || negb (String.prefix "Bearer " (default "" (headers req !! "authorization")))
  then Answered 401 "Invalid or missing token"
  else
    match jwt_verify (default "" (bearer_token (default "" (headers req !! "authorization")))) with
    | Some decoded => Forward (Some decoded)
    | None => Answered 401 "Invalid token"
    end.

(** [u.k] on a truthy [req.user] *)
Definition user_prop (k : string) (u : value) : value :=
  match u with
  | VObj o => field k o
  | _ => VUndefined
  end.

(** The headers that reach the service: those of the request, with
    X-User-Id and X-User-Role set by [onProxyReq] when [req.user] is set;
    [None] when [setHeader] throws. *)
Definition onProxyReq (user : option value) (headers : gmap string string)
    : option (gmap string string) :=
  match user with
  | Some u =>
      if truthy u then
        i ← headerValue (user_prop "id" u);
        r ← headerValue (user_prop "role" u);
        Some (<["x-user-role" := r]> (<["x-user-id" := i]> headers))
      else Some headers
  | None => Some headers
  end.

(** What the booking service makes of a request that comes through the
    gateway. *)
Inductive Arrival :=
| AtService (result : AuthResult)
| AtGateway (code : Z) (message : string)
| ProxyError.

Definition through_gateway (req : Request) : Arrival :=
  match jwtMiddleware req with
  | Answered code message => AtGateway code message
  | Forward user =>
      match onProxyReq user (headers req) with
      | Some headers' => AtService (authenticateJWT headers')
      | None => ProxyError
      end
  end.

End Middleware.

End Authn.

(** ** GET /api/booking/bookings *)

Module BookingList.
Import JS Booking.

(** The condition on [date] of the where clause. *)
Inductive DateFilter :=
| AnyDate
| Between (fromDate toDate : value)
| From (fromDate : value)
| Until (toDate : value).

(** [whereClause] *)
Record Where := {
  w_status : option Status;
  w_date : DateFilter;
  w_vendorId : option value;
  w_userId : option value
}.

Record Pagination := { total : Z; page : number; limit : number; pages : number }.

Inductive ListResponse :=
| ListJson (bookings : list (Z * Booking)) (pagination : Pagination)
| ListError (code : Z) (message : string).

Section List.
Context `{JSRuntime}.

(** [Booking.findAndCountAll({ where, limit, offset, order })]: the count and
    the rows of the page, [None] when it throws. *)
Variable findAndCountAll : Where → number → number → option (Z * list (Z * Booking)).

(** [parseInt(v) || d] *)
Definition parse_or (v : value) (d : Q) : number :=
  match parseInt v with
  | Num q => if Qeq_bool q 0 then Num d else Num q
  | NaN => Num d
  end.

Definition listWhere (p : Principal) (query : gmap string value) : Where :=
  let status := field "status" query in
  let fromDate := field "fromDate" query in
  let toDate := field "toDate" query in
  {| w_status := if truthy status then status_of_value status else None;
     w_date :=
       if truthy fromDate && truthy toDate then Between fromDate toDate
       else if truthy fromDate then From fromDate
       else if truthy toDate then Until toDate
       else AnyDate;
     w_vendorId :=
       if String.eqb (role p) "admin" then None
       else if String.eqb (role p) "vendor" then Some (id p)
       else None;
     w_userId :=
       if String.eqb (role p) "admin" then None
       else if String.eqb (role p) "vendor" then None
       else Some (id p) |}.

Definition listBookings (p : Principal) (query : gmap string value) : ListResponse :=
  let page := parse_or (field "page" query) 1 in
  let limit := parse_or (field "limit" query) 10 in
  let offset := num_mul (num_sub page (Num 1)) limit in
  match findAndCountAll (listWhere p query) limit offset with
  | Some (count, bookings) =>
      ListJson bookings
        {| total := count; page := page; limit := limit;
           pages := Math_ceil (num_div (of_Z count) limit) |}
  | None => ListError 500 "Failed to retrieve bookings"
  end.

End List.
End BookingList.

(** ** More quote routes: read, send *)

Module QuoteRoutes.
Import JS Quotes.

Inductive Reply :=
| ErrorReply (code : Z) (error : string)
| QuoteReply (q : Quote) (items : list QuoteItem)
| MessageReply (code : Z) (message : string) (q : option (Quote * list QuoteItem)).

(** The test of the middleware [checkQuoteAccess]. *)
Definition quoteAccess (p : Principal) (q : Quote) : bool :=
  (String.eqb (role p) "service_provider" && strict_eq (serviceProviderId q) (id p))
  || (String.eqb (role p) "user" && strict_eq (userId q) (id p))
  || String.eqb (role p) "admin".

(** [checkQuoteAccess]: the quote for the next handler, or the answer. *)
Definition checkQuoteAccess (p : Principal) (key : Z) (s : Store) : Reply + Quote :=
  match quotes s !! key with
  | None => inl (ErrorReply 404 "Quote not found")
  | Some quote =>
      if quoteAccess p quote then inr quote
      else inl (ErrorReply 403 "You do not have permission to access this quote")
  end.

(** GET /:id behind [checkQuoteAccess]: a user who reads a sent quote marks
    it viewed. *)
Definition getQuote_body (p : Principal) (key : Z) : DB Reply :=
  found ← Quote_findByPk_items key;
  match found with
  | None => ret (ErrorReply 404 "Quote not found")
  | Some (quote, items) =>
      if String.eqb (role p) "user" && bool_decide (status quote = sent) then
        _ ← Quote_update false key quote viewed;
        ret (QuoteReply (set_quote_status viewed quote) items)
      else ret (QuoteReply quote items)
  end.

Definition getQuote (p : Principal) (key : Z) (w : World) : Reply * World :=
  match checkQuoteAccess p key (store w) with
  | inl r => (r, w)
  | inr _ =>
      match getQuote_body p key w with
      | (inr r, w') => (r, w')
      | (inl _, w') => (ErrorReply 500 "Error fetching quote", w')
      end
  end.

(** POST /:id/send *)
Definition sendQuote_body (p : Principal) (key : Z) : DB Reply :=
  found ← Quote_findByPk key;
  match found with
  | None => ret (ErrorReply 404 "Quote not found")
  | Some quote =>
      if negb (strict_eq (serviceProviderId quote) (id p)) then
        ret (ErrorReply 403 "You are not authorized to send this quote")
      else if negb (bool_decide (status quote = draft)) then
        ret (ErrorReply 400 ("Cannot send quote with status: "
                             ++ quoteStatus_name (status quote)))
      else
        _ ← Quote_update false key quote sent;
        q ← Quote_findByPk_items key;
        ret (MessageReply 200 "Quote sent successfully" q)
  end.

(** Modelled from the spec: the gate [authorizeRole(['service_provider'])]
    of middleware/auth.js in front of the route, as in [Quotes.route]. *)
Definition sendQuote (p : Principal) (key : Z) (w : World) : Reply * World :=
  if negb (hasRole ["service_provider"] p) then
    (ErrorReply 403 "Insufficient permissions", w)
  else
    match sendQuote_body p key w with
    | (inr r, w') => (r, w')
    | (inl _, w') => (ErrorReply 500 "Error sending quote", w')
    end.

End QuoteRoutes.

(** ** Vocabulary of the further properties *)

Module MoreSpec.
Import JS Booking BookingSpec.

(** The keys of the table lie below the next key of the sequence. *)
Definition wf_store (db : Store) : Prop :=
  ∀ k, is_Some (rows db !! k) → (k < nextId db)%Z.

Section Readers.
Context `{JSRuntime}.

(** The user of the booking: the principal whose id is the [userId] of the
    row. *)
Definition is_owner (p : Principal) (b : Booking) : Prop :=
  same_string (userId b) (id p) = Some true.

(** The principals that GET /api/booking/bookings/:id answers. *)
Definition may_read (p : Principal) (b : Booking) : Prop :=
  is_admin p ∨ owning_vendor p b ∨ is_owner p b.

End Readers.

(** The row that [Scenario.per_head_request] of user 7 creates in the empty
    table, and the table after it. *)
Definition created1 : Booking := Scenario.row1 pending.

Definition db1 : Store := {| rows := {[ 1%Z := created1 ]}; nextId := 2 |}.

(** A flat request at 5000 with one service at 250, and a per-head request
    of 40 guests where 50 are required. *)
Definition flat_request : gmap string value := list_to_map
  [("venueId", Scenario.n 5); ("vendorId", Scenario.n 3); ("date", VStr "2026-12-20");
   ("guestCount", Scenario.n 80); ("flatPrice", Scenario.n 5000);
   ("additionalServices", VArr [Scenario.obj [("price", Scenario.n 250)]])].

Definition small_party_request : gmap string value :=
  <["guestCount" := Scenario.n 40]> Scenario.per_head_request.

(** A token service that knows one token, of user 7, and a request to the
    booking routes that carries it together with headers naming an admin. *)
Definition payload7 : value :=
  Scenario.obj [("id", Scenario.n 7); ("role", VStr "user")].

Definition verify7 (token : string) : option value :=
  if String.eqb token "tok7" then Some payload7 else None.

Definition spoofed_request : Authn.Request :=
  {| Authn.path := "/api/booking/bookings";
     Authn.headers := list_to_map [("authorization", "Bearer tok7");
                                   ("x-user-id", "1"); ("x-user-role", "admin")] |}.

Definition plain_request : Authn.Request :=
  {| Authn.path := "/api/booking/bookings";
     Authn.headers := {[ "authorization" := "Bearer tok7" ]} |}.

(** A row that satisfies the role and status conditions of a where clause,
    for an equality [sql_eq] of the database between a column and a
    parameter. *)
Definition matches (sql_eq : value → value → bool) (w : BookingList.Where)
    (row : Z * Booking) : Prop :=
  (∀ v, BookingList.w_userId w = Some v → sql_eq (userId row.2) v = true)
  ∧ (∀ v, BookingList.w_vendorId w = Some v → sql_eq (vendorId row.2) v = true)
  ∧ (∀ st, BookingList.w_status w = Some st → status row.2 = st).

Definition matchesb (sql_eq : value → value → bool) (w : BookingList.Where)
    (row : Z * Booking) : bool :=
  from_option (sql_eq (userId row.2)) true (BookingList.w_userId w)
  && from_option (sql_eq (vendorId row.2)) true (BookingList.w_vendorId w)
  && from_option (λ st, bool_decide (status row.2 = st)) true (BookingList.w_status w).

(** A table of bookings queried by filtering and slicing, with the
    equality of the printed values. *)
Definition printed_eq (a b : value) : bool :=
  match Reference.ref_toString a, Reference.ref_toString b with
  | Some x, Some y => String.eqb x y
  | _, _ => false
  end.

Definition table_find (table : list (Z * Booking)) (w : BookingList.Where)
    (limit offset : number) : option (Z * list (Z * Booking)) :=
  match limit, offset with
  | Num l, Num o =>
      let found := filter (λ row, matchesb printed_eq w row = true) table in
      Some (Z.of_nat (length found),
            take (Z.to_nat (Qfloor l)) (drop (Z.to_nat (Qfloor o)) found))
  | _, _ => None
  end.

Definition two_bookings : list (Z * Booking) :=
  [ (12%Z, Scenario.booking12 pending "2026-12-20"); (1%Z, created1) ].

(** A string without a space. *)
Fixpoint spaceless (s : string) : bool :=
  match s with
  | EmptyString => true
  | String a rest => negb (Ascii.eqb a Authn.space) && spaceless rest
  end.

End MoreSpec.

(** ** The life of a quote *)

Module QuoteLife.
Import JS Quotes QuoteRoutes.

(** The routes that write the status of a quote and nothing else. *)
Inductive Action := Send | Read | Accept | Reject.

(** The change of status a route can make. *)
Definition edge (a : Action) (from to : QuoteStatus) : bool :=
  match a, from, to with
  | Send, draft, sent => true
  | Read, sent, viewed => true
  | Accept, (sent | viewed), (accepted | expired) => true
  | Reject, (sent | viewed), rejected => true
  | _, _, _ => false
  end.

(** The tables [s'] are the tables [s], or [s] with the status of the quote
    [key] moved along an edge of the route. *)
Definition moved (a : Action) (key : Z) (s s' : Store) : Prop :=
  s' = s
  ∨ ∃ q st, quotes s !! key = Some q ∧ edge a (status q) st = true
            ∧ s' = put_quote key (set_quote_status st q) s.

(** No write to come throws. *)
Definition no_faults (w : World) : Prop := Forall (λ b, b = false) (faults w).

(** An action that returns whenever no write throws. *)
Definition succeeds {A} (m : DB A) : Prop :=
  ∀ w, no_faults w → ∃ a w', m w = (inr a, w') ∧ no_faults w'.

(** Another client, who is party to no quote of the examples. *)
Definition client8 : Principal := {| id := VNum (of_Z 8); role := "user" |}.

End QuoteLife.

(** ** Properties of booking creation *)

Module CreateProps.
Import JS Booking BookingSpec.

Lemma bind_Next {A B} (m : outcome A) (f : A → outcome B) (b : B) :
  m ≫= f = Next b → ∃ a, m = Next a ∧ f a = Next b.
Proof. destruct m; simpl; try discriminate. eauto. Qed.

Lemma only_errors_bind {A B} (m : outcome A) (f : A → outcome B) :
  only_errors m → (∀ a, only_errors (f a)) → only_errors (m ≫= f).
Proof.
  intros Hm Hf r. destruct m as [r'|e|a]; simpl.
  - intros [= ->]. by apply Hm.
  - discriminate.
  - apply Hf.
Qed.

Lemma only_errors_or_throw {A} (o : option A) : only_errors (or_throw o).
Proof. by destruct o. Qed.

Ltac only_errors_cases :=
  unfold only_errors; intros; repeat case_match; simplify_eq; done.

Lemma Qle_bool_false x y : (y < x)%Q → Qle_bool x y = false.
Proof.
  intros Hlt. destruct (Qle_bool x y) eqn:E; [|done].
  apply Qle_bool_iff in E. by apply Qlt_not_le in Hlt.
Qed.

Lemma Qle_bool_true x y : (x <= y)%Q → Qle_bool x y = true.
Proof. apply Qle_bool_iff. Qed.

Lemma status_of_value_name v st :
  status_of_value v = Some st → v = VStr (status_name st).
Proof.
  destruct v as [| | |?|s| |]; simpl; try discriminate.
  destruct (String.eqb_spec s "pending") as [->|_]; [by intros [= <-]|].
  destruct (String.eqb_spec s "confirmed") as [->|_]; [by intros [= <-]|].
  destruct (String.eqb_spec s "cancelled") as [->|_]; [by intros [= <-]|].
  discriminate.
Qed.

Lemma status_of_value_of_name st : status_of_value (VStr (status_name st)) = Some st.
Proof. by destruct st. Qed.

Section Create.
Context `{JSRuntime}.
Variable venueService_get : value → option value.
Variable insert_ok : BookingAttrs → bool.
Variable column : ColumnType → value → option value.

Abbreviation createBooking := (createBooking venueService_get insert_ok column).
Abbreviation createBooking_body := (createBooking_body venueService_get insert_ok column).
Abbreviation Booking_row := (Booking_row column).

Lemma field_agree k b1 b2 :
  agree_except "totalPrice" b1 b2 → k ≠ "totalPrice" → field k b1 = field k b2.
Proof. intros Hag Hk. unfold field. by rewrite (Hag k Hk). Qed.

Lemma createBooking_body_agree now p b1 b2 db :
  agree_except "totalPrice" b1 b2 →
  createBooking_body now p b1 db = createBooking_body now p b2 db.
Proof.
  intros Hag.
  unfold Booking.createBooking_body, resolveUserId, verifyVenue, resolveGuestCount,
    guestCount_of, validateDate, computePrice, minGuests_of, pricingType_of.
  rewrite !(field_agree _ b1 b2 Hag) by discriminate.
  reflexivity.
Qed.

(** C7: two creation requests that differ at most in the [totalPrice] field
    of the body get the same response and leave the same store: the stored
    total is the one the handler computes, whatever the client sent. *)
Theorem totalPrice_ignored now p b1 b2 db :
  agree_except "totalPrice" b1 b2 →
  createBooking now p b1 db = createBooking now p b2 db.
Proof.
  intros Hag. unfold Booking.createBooking.
  by rewrite (createBooking_body_agree now p b1 b2 db Hag).
Qed.

Lemma createBooking_body_only_errors now p body db :
  only_errors (createBooking_body now p body db).
Proof.
  unfold Booking.createBooking_body.
  apply only_errors_bind.
  { unfold resolveUserId. apply only_errors_bind; [|only_errors_cases].
    case_match; [|only_errors_cases].
    apply only_errors_bind; [|done].
    case_match; [apply only_errors_or_throw|done]. }
  intros userId. apply only_errors_bind; [unfold verifyVenue; only_errors_cases|].
  intros _. apply only_errors_bind; [unfold resolveGuestCount; only_errors_cases|].
  intros g. apply only_errors_bind; [unfold validateDate; only_errors_cases|].
  intros _. apply only_errors_bind; [unfold computePrice; only_errors_cases|].
  intros priced. apply only_errors_bind.
  { unfold addServices. case_match; try done. apply only_errors_or_throw. }
  intros total. unfold Booking_create. only_errors_cases.
Qed.

Lemma Booking_row_inv a st b :
  Booking_row a st = Some b →
  column INTEGER (a_userId a) = Some (userId b)
  ∧ column INTEGER (a_venueId a) = Some (venueId b)
  ∧ column INTEGER (a_vendorId a) = Some (vendorId b)
  ∧ column DATEONLY (a_date a) = Some (date b)
  ∧ column INTEGER (a_guestCount a) = Some (guestCount b)
  ∧ pricingType b = a_pricingType a
  ∧ column FLOAT (a_flatPrice a) = Some (flatPrice b)
  ∧ column FLOAT (a_perHeadPrice a) = Some (perHeadPrice b)
  ∧ column INTEGER (a_minGuests a) = Some (minGuests b)
  ∧ column JSONB (a_additionalServices a) = Some (additionalServices b)
  ∧ column FLOAT (a_totalPrice a) = Some (totalPrice b)
  ∧ status b = st.
Proof.
  unfold Booking.Booking_row. intros Hrow.
  repeat match type of Hrow with
         | context [column ?t ?v] =>
             destruct (column t v); cbn [mbind option_bind] in Hrow; [|discriminate]
         end.
  by injection Hrow as <-.
Qed.

(** What an accepted request went through. *)
Lemma createBooking_accepted now p body db c key b db' :
  createBooking now p body db = (BookingJson c key b, db') →
  ∃ userId priced total st,
    resolveUserId p body = Next userId
    ∧ verifyVenue venueService_get body = Next ()
    ∧ resolveGuestCount body = Next (parseInt (guestCount_of body))
    ∧ validateDate now body = Next ()
    ∧ computePrice body (parseInt (guestCount_of body)) = Next priced
    ∧ addServices (p_totalPrice priced) (field "additionalServices" body) = Next total
    ∧ status_of_value (js_or (field "status" body) (VStr "pending")) = Some st
    ∧ c = 201%Z ∧ key = nextId db
    ∧ db' = {| rows := <[key := b]> (rows db); nextId := (nextId db + 1)%Z |}
    ∧ Booking_row (attributes body userId (parseInt (guestCount_of body)) priced total) st
      = Some b.
Proof.
  unfold Booking.createBooking.
  destruct (createBooking_body now p body db) as [r|e|[[key' b'] db'']] eqn:Hb;
    intros Heq; simplify_eq.
  { by apply createBooking_body_only_errors in Hb. }
  unfold Booking.createBooking_body in Hb.
  apply bind_Next in Hb as (userId & Hu & Hb).
  apply bind_Next in Hb as ([] & Hv & Hb).
  apply bind_Next in Hb as (g & Hg & Hb).
  assert (g = parseInt (guestCount_of body) ∧
          resolveGuestCount body = Next (parseInt (guestCount_of body))) as [-> Hg'].
  { unfold resolveGuestCount in *.
    destruct (_ || _); [discriminate|]. by injection Hg as <-. }
  apply bind_Next in Hb as ([] & Hd & Hb).
  apply bind_Next in Hb as (priced & Hp & Hb).
  apply bind_Next in Hb as (total & Ht & Hb).
  unfold Booking_create in Hb. cbn [a_status a_pricingType] in Hb.
  destruct (status_of_value _) as [st|] eqn:Hst; [|discriminate].
  destruct (_ && _); [|discriminate].
  destruct (Booking.Booking_row _ _ _) as [row|] eqn:Hrow; [|discriminate].
  injection Hb as <- <- <-.
  exists userId, priced, total, st. by repeat split.
Qed.

(** A request whose checks pass and whose values the database takes is
    answered with the row. *)
Lemma createBooking_created now p body db userId g priced total st b :
  resolveUserId p body = Next userId →
  verifyVenue venueService_get body = Next () →
  resolveGuestCount body = Next g →
  validateDate now body = Next () →
  computePrice body g = Next priced →
  addServices (p_totalPrice priced) (field "additionalServices" body) = Next total →
  initial_status body = Some st →
  insert_ok (attributes body userId g priced total) = true →
  Booking_row (attributes body userId g priced total) st = Some b →
  createBooking now p body db
  = (BookingJson 201 (nextId db) b, with_row (nextId db) b
                                       {| rows := rows db; nextId := (nextId db + 1)%Z |}).
Proof.
  intros Hu Hv Hg Hd Hp Ht Hst Hok Hrow.
  assert (status_of_value (js_or (field "status" body) (VStr "pending")) = Some st) as Hst'.
  { unfold initial_status, js_or in *.
    destruct (field "status" body) as [| |[]|[|q]|s| |]; simpl in *; simplify_eq; try done.
    - destruct (Qeq_bool q 0); [by simplify_eq|discriminate].
    - destruct (String.eqb_spec s "") as [Hs|Hs]; [by simplify_eq|]. exact Hst. }
  assert (is_pricingType (pricingType_of body) = true) as Hpt.
  { unfold computePrice, is_pricingType in *.
    destruct (is_str "flat" _); [done|].
    by destruct (is_str "per_head" _). }
  unfold Booking.createBooking, Booking.createBooking_body.
  rewrite Hu. cbn [mbind outcome_bind]. rewrite Hv. cbn [mbind outcome_bind].
  rewrite Hg. cbn [mbind outcome_bind]. rewrite Hd. cbn [mbind outcome_bind].
  rewrite Hp. cbn [mbind outcome_bind]. rewrite Ht. cbn [mbind outcome_bind].
  unfold Booking_create. cbn [a_status a_pricingType]. rewrite Hst', Hpt.
  fold (attributes body userId g priced total). rewrite Hok. simpl.
  by rewrite Hrow.
Qed.

(** C10: the status of a new booking is the status that the body names,
    and [pending] when the body supplies none.  A request whose checks pass
    and whose values the database takes is stored with that status, whatever
    the role of the caller and whatever the status is; and no booking is
    stored with another status than the one its request asks for. *)
Theorem initial_status_from_body now p body db :
  (∀ userId g priced total st b,
     resolveUserId p body = Next userId →
     verifyVenue venueService_get body = Next () →
     resolveGuestCount body = Next g →
     validateDate now body = Next () →
     computePrice body g = Next priced →
     addServices (p_totalPrice priced) (field "additionalServices" body) = Next total →
     initial_status body = Some st →
     insert_ok (attributes body userId g priced total) = true →
     Booking_row (attributes body userId g priced total) st = Some b →
     (createBooking now p body db).1 = BookingJson 201 (nextId db) b
     ∧ rows (createBooking now p body db).2 !! nextId db = Some b
     ∧ status b = st)
  ∧ (∀ c key b db',
       createBooking now p body db = (BookingJson c key b, db') →
       rows db' !! key = Some b ∧ initial_status body = Some (status b)).
Proof.
  split.
  - intros userId g priced total st b Hu Hv Hg Hd Hp Ht Hst Hok Hrow.
    rewrite (createBooking_created now p body db userId g priced total st b) by done.
    simpl. split; [done|]. split; [apply lookup_insert_eq|].
    by apply Booking_row_inv in Hrow as (_ & _ & _ & _ & _ & _ & _ & _ & _ & _ & _ & ?).
  - intros c key b db' Hc.
    apply createBooking_accepted in Hc
      as (u & priced & total & st & _ & _ & _ & _ & _ & _ & Hst & _ & _ & -> & Hrow).
    split; [apply lookup_insert_eq|].
    apply Booking_row_inv in Hrow as (_ & _ & _ & _ & _ & _ & _ & _ & _ & _ & _ & ->).
    unfold initial_status, js_or in *.
    destruct (field "status" body) as [| |[]|[|q]|s| |]; simpl in *; simplify_eq; try done.
    + destruct (Qeq_bool q 0); by simplify_eq.
    + destruct (String.eqb_spec s "") as [Hs|Hs]; [by simplify_eq|]. exact Hst.
Qed.

(** Rounding leaves a whole number below 2^53 as it is. *)
Lemma Qred_inject_Z z : Qred (inject_Z z) = inject_Z z.
Proof. apply Qcanon.Qred_identity. simpl. apply Z.gcd_1_r. Qed.

Lemma round_half_even_whole q m : (q == inject_Z m)%Q → round_half_even q = m.
Proof.
  intros Hq. unfold round_half_even.
  assert (Qfloor q = m) as -> by (rewrite Hq; apply Qfloor_Z).
  assert ((q - inject_Z m ?= 1 # 2)%Q = Lt) as ->; [|done].
  rewrite Hq. apply (proj1 (Qlt_alt _ _)).
  assert (inject_Z m - inject_Z m == 0)%Q as -> by ring. reflexivity.
Qed.

Lemma pow2_neg k : (0 <= k)%Z → (pow2 (- k) == / inject_Z (2 ^ k))%Q.
Proof.
  intros Hk. unfold pow2. destruct (Z.leb_spec 0 (- k)).
  - assert (k = 0%Z) as -> by lia. reflexivity.
  - by rewrite Z.opp_involutive.
Qed.

Lemma round64_whole q z :
  (q == inject_Z z)%Q → (Z.abs z < 2 ^ 53)%Z → round64 q = inject_Z z.
Proof.
  intros Hq Hz. unfold round64.
  rewrite (Qred_complete _ _ Hq), Qred_inject_Z.
  destruct (Z.eq_dec z 0%Z) as [->|Hz0]; [reflexivity|].
  assert (Qeq_bool (inject_Z z) 0 = false) as ->.
  { apply not_true_is_false. intros Heq. apply Qeq_bool_iff in Heq.
    apply Hz0. unfold Qeq in Heq. simpl in Heq. lia. }
  cbv zeta.
  assert (0 < Z.abs z)%Z as Hpos by lia.
  pose proof (Z.log2_spec _ Hpos) as [Hlo Hhi].
  pose proof (Z.log2_nonneg (Z.abs z)) as Hnn.
  assert (Z.log2 (Z.abs z) < 53)%Z as Hlt by (apply Z.log2_lt_pow2; lia).
  assert (exponent (inject_Z z) = Z.log2 (Z.abs z)) as ->.
  { unfold exponent. change (Qnum (inject_Z z)) with z.
    change (Z.log2 (Z.pos (Qden (inject_Z z)))) with 0%Z. rewrite Z.sub_0_r.
    assert (Qle_bool (pow2 (Z.log2 (Z.abs z))) (Qabs (inject_Z z)) = true) as ->; [|done].
    apply Qle_bool_iff. unfold pow2.
    destruct (Z.leb_spec 0 (Z.log2 (Z.abs z))); [|lia].
    unfold Qle. simpl. lia. }
  set (k := (52 - Z.log2 (Z.abs z))%Z).
  assert (0 <= k)%Z as Hk by lia.
  replace (Z.max (Z.log2 (Z.abs z) - 52) (-1074)) with (- k)%Z by lia.
  assert (0 < 2 ^ k)%Z as Hp by (apply Z.pow_pos_nonneg; lia).
  assert (¬ (inject_Z (2 ^ k) == 0)%Q) as Hne.
  { unfold Qeq. simpl. lia. }
  assert (round_half_even (inject_Z z / pow2 (- k)) = (z * 2 ^ k)%Z) as ->.
  { apply round_half_even_whole. rewrite pow2_neg by done.
    rewrite inject_Z_mult. field. done. }
  assert (Qred (inject_Z (z * 2 ^ k) * pow2 (- k)) = inject_Z z) as ->.
  { transitivity (Qred (inject_Z z)); [|apply Qred_inject_Z].
    apply Qred_complete.
    rewrite pow2_neg by done. rewrite inject_Z_mult. field. done. }
  assert (Qle_bool infinity (Qabs (inject_Z z)) = false) as ->; [|done].
  apply not_true_is_false. intros Hle. apply Qle_bool_iff in Hle.
  unfold infinity, Qle in Hle. simpl in Hle.
  assert (2 ^ 53 < 2 ^ 1024)%Z by (apply Z.pow_lt_mono_r; lia). lia.
Qed.

(** The sum of two whole numbers that stays below 2^53 is exact. *)
Lemma num_add_whole x y a b :
  (x == inject_Z a)%Q → (y == inject_Z b)%Q → (0 <= a)%Z → (0 <= b)%Z →
  (a + b < 2 ^ 53)%Z →
  num_add (Num x) (Num y) = Num (inject_Z (a + b)).
Proof.
  intros Hx Hy Ha Hb Hab. simpl. f_equal. apply round64_whole; [|lia].
  by rewrite Hx, Hy, inject_Z_plus.
Qed.

Lemma item_price_whole s : whole_item s → whole (item_price s).
Proof.
  intros (o & -> & [Hnone|(q & Hq & Hw)]); simpl.
  - rewrite Hnone. by exists 0%Z.
  - by rewrite Hq.
Qed.

Lemma services_sum_whole items :
  Forall whole_item items → whole (services_sum (VArr items)).
Proof.
  induction 1 as [|s items Hs _ (b & Hb & IH)]; simpl.
  - by exists 0%Z.
  - destruct (item_price_whole s Hs) as (a & Ha & Hp).
    exists (a + b)%Z. split; [lia|]. by rewrite Hp, IH, inject_Z_plus.
Qed.

(** The reduction over items with whole prices adds the prices up, as long
    as the sum stays below 2^53. *)
Lemma reduce_prices_whole items : ∀ acc,
  Forall whole_item items → whole acc →
  (acc + services_sum (VArr items) < exact_bound)%Q →
  ∃ t, reduce_prices (VNum (Num acc)) items = Some (VNum (Num t))
       ∧ (t == acc + services_sum (VArr items))%Q.
Proof.
  induction items as [|s items IH]; intros acc Hall Hacc Hbound.
  - exists acc. split; [done|simpl; ring].
  - apply Forall_cons in Hall as [Hs Hall].
    destruct Hacc as (a & Ha & Hacc).
    destruct (item_price_whole s Hs) as (z & Hz & Hprice).
    destruct (services_sum_whole items Hall) as (r & Hr & Hrest).
    assert (a + z + r < 2 ^ 53)%Z as Hlt.
    { rewrite Zlt_Qlt, !inject_Z_plus, <- Hacc, <- Hprice, <- Hrest.
      unfold exact_bound in Hbound. cbn [services_sum foldr] in Hbound.
      by rewrite Qplus_assoc in Hbound. }
    destruct Hs as (o & -> & Hp).
    cbn [reduce_prices get_prop mbind option_bind].
    assert (js_add (VNum (Num acc)) (js_or (field "price" o) (VNum (Num 0)))
            = Some (VNum (Num (inject_Z (a + z))))) as ->.
    { unfold field, item_price in *. destruct Hp as [Hnone|(q & Hq & _)].
      - rewrite Hnone in *. simpl. do 2 f_equal.
        apply (num_add_whole acc 0 a z); try done; lia.
      - rewrite Hq in *. unfold js_or. simpl.
        destruct (Qeq_bool q 0) eqn:Hq0; simpl; do 2 f_equal.
        + apply Qeq_bool_eq in Hq0.
          apply (num_add_whole acc 0 a z); try done; [|lia].
          by rewrite <- Hq0.
        + apply (num_add_whole acc q a z); try done; lia. }
    cbn [mbind option_bind].
    destruct (IH (inject_Z (a + z)) Hall) as (t & -> & Ht).
    { exists (a + z)%Z. split; [lia|done]. }
    { rewrite Hrest, <- inject_Z_plus. unfold exact_bound. rewrite <- Zlt_Qlt. lia. }
    exists t. split; [done|]. rewrite Ht, inject_Z_plus.
    cbn [services_sum foldr]. rewrite Hacc, Hprice. ring.
Qed.

Lemma addServices_whole total services :
  whole total → whole_services services →
  (total + services_sum services < exact_bound)%Q →
  ∃ t, addServices (Num total) services = Next (VNum (Num t))
       ∧ (t == total + services_sum services)%Q.
Proof.
  intros Htotal Hall Hbound.
  destruct services as [| | |?|?|items|?];
    try (exists total; split; [done|simpl; ring]).
  destruct (services_sum_whole items Hall) as (r & Hr & Hrest).
  destruct Htotal as (a & Ha & Htotal).
  assert (a + r < 2 ^ 53)%Z as Hlt.
  { by rewrite Zlt_Qlt, inject_Z_plus, <- Htotal, <- Hrest. }
  destruct (reduce_prices_whole items 0) as (x & Hred & Hx); [done|by exists 0%Z| |].
  { rewrite Hrest, Qplus_0_l. unfold exact_bound. rewrite <- Zlt_Qlt. lia. }
  rewrite Qplus_0_l in Hx.
  exists (inject_Z (a + r)). split.
  - unfold addServices. rewrite Hred. simpl. do 3 f_equal.
    apply round64_whole; [|lia]. by rewrite Htotal, Hx, Hrest, inject_Z_plus.
  - by rewrite inject_Z_plus, Htotal, Hrest.
Qed.

(** On whole numbers the per-head total is right: a per-head request with
    a whole price R > 0 per head, a guest count that parses to a whole
    G > 0, a minimum M <= G (1 when not supplied) and services with whole
    prices passes the guest and pricing checks, and as long as the sum stays
    below 2^53 its total is G * R plus the prices of the additional
    services, a missing price counting 0. *)
Lemma per_head_total_whole body (G R M : Q) :
  field "pricingType" body = VStr "per_head" →
  truthy (field "perHeadPrice" body) = true →
  parseFloat (field "perHeadPrice" body) = Num R → (0 < R)%Q → whole R →
  truthy (guestCount_of body) = true →
  parseInt (guestCount_of body) = Num G → (0 < G)%Q → whole G →
  minGuests_of body = Num M → (M <= G)%Q →
  whole_services (field "additionalServices" body) →
  (G * R + services_sum (field "additionalServices" body) < exact_bound)%Q →
  ∃ t, (t == G * R + services_sum (field "additionalServices" body))%Q
       ∧ resolveGuestCount body = Next (Num G)
       ∧ computeTotal body (Num G) = Next (VNum (Num t)).
Proof.
  intros Hpt Htr HR HRpos (r & Hr & HRw) Htg HG HGpos (g & Hg & HGw) HM HMG Hserv Hbound.
  assert (whole (services_sum (field "additionalServices" body))) as (x & Hx & Hsum).
  { destruct (field "additionalServices" body); try (by exists 0%Z).
    by apply services_sum_whole. }
  assert (g * r + x < 2 ^ 53)%Z as Hlt.
  { by rewrite Zlt_Qlt, inject_Z_plus, inject_Z_mult, <- HGw, <- HRw, <- Hsum. }
  assert (0 <= g * r)%Z as Hgr by lia.
  assert (round64 (G * R) = inject_Z (g * r)) as Hprod.
  { apply round64_whole; [|lia]. by rewrite HGw, HRw, inject_Z_mult. }
  destruct (addServices_whole (inject_Z (g * r)) (field "additionalServices" body))
    as (t & Hadd & Ht); [by exists (g * r)%Z|done| |].
  { by rewrite inject_Z_mult, <- HGw, <- HRw. }
  exists t. split; [|split].
  - by rewrite Ht, inject_Z_mult, HGw, HRw.
  - unfold resolveGuestCount. rewrite Htg, HG. simpl.
    by rewrite (Qle_bool_false G 0 HGpos).
  - unfold computeTotal, computePrice, pricingType_of. rewrite Hpt, Htr, HR, HM. simpl.
    rewrite (Qle_bool_false R 0 HRpos), (Qle_bool_true M G HMG). simpl.
    by rewrite Hprod.
Qed.

(** The date check lets through a date equal to now and stops a date
    before now. *)
Lemma validateDate_now now body :
  truthy (field "date" body) = true → newDate (field "date" body) = of_Z now →
  validateDate now body = Next ().
Proof.
  intros Ht Hd. unfold validateDate. rewrite Ht, Hd. simpl.
  by rewrite (Qle_bool_true (inject_Z now) (inject_Z now) (Qle_refl _)).
Qed.

Lemma validateDate_past now body t :
  truthy (field "date" body) = true → newDate (field "date" body) = Num t →
  (t < inject_Z now)%Q →
  validateDate now body
  = Return (ErrorJson 400 "Booking date must be in the future" None).
Proof.
  intros Ht Hd Hlt. unfold validateDate. rewrite Ht, Hd. simpl.
  by rewrite (Qle_bool_false (inject_Z now) t Hlt).
Qed.

End Create.

(** *** The handler on concrete requests *)

Import Reference Scenario.
#[local] Existing Instance runtime.

(** The total of the example is 4800. *)
Lemma per_head_request_run :
  ∃ b db',
    Booking.createBooking venue5 accept_all pg_column midnight user7 per_head_request empty_db
    = (BookingJson 201 1 b, db')
    ∧ totalPrice b = n 4800 ∧ status b = pending ∧ rows db' !! 1%Z = Some b.
Proof. eexists _, _. split; [by vm_compute|]. by vm_compute. Qed.

Lemma totalPrice_ignored_example :
  agree_except "totalPrice" per_head_request (<["totalPrice" := n 1]> per_head_request)
  ∧ Booking.createBooking venue5 accept_all pg_column midnight user7 per_head_request empty_db
    = Booking.createBooking venue5 accept_all pg_column midnight user7
        (<["totalPrice" := n 1]> per_head_request) empty_db.
Proof.
  assert (agree_except "totalPrice" per_head_request
            (<["totalPrice" := n 1]> per_head_request)) as Hag.
  { intros k Hk. by rewrite lookup_insert_ne. }
  split; [exact Hag|].
  exact (totalPrice_ignored venue5 accept_all pg_column midnight user7 _ _ empty_db Hag).
Defined.

(** C1 on a per-head request of 80 guests at 50 a head, minimum 50, with
    one service whose price is the string 500: the request is in the domain
    of the claim, which gives 80 * 50 + 500 = 4500.  The handler parses the
    price per head and the guest count but not the price of a service, so
    [+] concatenates: the total that it computes is the string 40000500, and
    the booking is stored with the total 40000500. *)
Lemma string_price_total :
  field "pricingType" string_price_request = VStr "per_head"
  ∧ parseFloat (field "perHeadPrice" string_price_request) = Num 50
  ∧ parseInt (guestCount_of string_price_request) = Num 80
  ∧ minGuests_of string_price_request = Num 50
  ∧ computeTotal string_price_request (Num 80) = Next (VStr "40000500")
  ∧ ∃ b db',
      Booking.createBooking venue5 accept_all pg_column midnight user7
        string_price_request empty_db
      = (BookingJson 201 1 b, db')
      ∧ totalPrice b = n 40000500 ∧ rows db' !! 1%Z = Some b.
Proof.
  repeat split; try (by vm_compute).
  eexists _, _. split; [by vm_compute|]. split; by vm_compute.
Qed.

(** With the price 500 as a number the total is 4500. *)
Lemma number_price_run :
  computeTotal
    (<["additionalServices" := VArr [obj [("price", n 500)]]]> per_head_request) (Num 80)
  = Next (n 4500).
Proof. by vm_compute. Qed.

(** Sums and products are those of the doubles: 3 * 0.1 and 0.1 + 0.2 are
    both the double 0.30000000000000004 and are not 3/10. *)
Lemma rounded_arithmetic :
  num_mul (Num 3) (Num (round64 (1 # 10)))
  = num_add (Num (round64 (1 # 10))) (Num (round64 (2 # 10)))
  ∧ num_mul (Num 3) (Num (round64 (1 # 10)))
    = Num (1351079888211149 # 4503599627370496)
  ∧ Qeq_bool (1351079888211149 # 4503599627370496) (3 # 10) = false.
Proof. repeat split; by vm_compute. Qed.

(** User 7 sends the request without a status and with the status
    confirmed: the booking is stored as pending and as confirmed. *)
Lemma initial_status_example :
  ((Booking.createBooking venue5 accept_all pg_column midnight user7
      per_head_request empty_db).1 = BookingJson 201 1 (row1 pending)
   ∧ rows (Booking.createBooking venue5 accept_all pg_column midnight user7
             per_head_request empty_db).2 !! 1%Z = Some (row1 pending)
   ∧ status (row1 pending) = pending)
  ∧ ((Booking.createBooking venue5 accept_all pg_column midnight user7
        (<["status" := VStr "confirmed"]> per_head_request) empty_db).1
     = BookingJson 201 1 (row1 confirmed)
     ∧ rows (Booking.createBooking venue5 accept_all pg_column midnight user7
               (<["status" := VStr "confirmed"]> per_head_request) empty_db).2 !! 1%Z
       = Some (row1 confirmed)
     ∧ status (row1 confirmed) = confirmed).
Proof.
  split.
  - apply (proj1 (initial_status_from_body venue5 accept_all pg_column midnight user7
                    per_head_request empty_db)
             (VStr "7") (Num 80)
             {| p_flatPrice := VUndefined; p_perHeadPrice := n 50;
                p_minGuests := n 50; p_totalPrice := Num 4000 |}
             (n 4800) pending (row1 pending));
      vm_compute; reflexivity.
  - apply (proj1 (initial_status_from_body venue5 accept_all pg_column midnight user7
                    (<["status" := VStr "confirmed"]> per_head_request) empty_db)
             (VStr "7") (Num 80)
             {| p_flatPrice := VUndefined; p_perHeadPrice := n 50;
                p_minGuests := n 50; p_totalPrice := Num 4000 |}
             (n 4800) confirmed (row1 confirmed));
      vm_compute; reflexivity.
Defined.

(** C8 on a request for the very instant of its date: the date is not later
    than now, and the request is accepted and the booking stored. *)
Lemma date_equal_now_accepted :
  newDate (field "date" today_request) = of_Z midnight
  ∧ ∃ b db',
      Booking.createBooking venue5 accept_all pg_column midnight user7 today_request empty_db
      = (BookingJson 201 1 b, db')
      ∧ date b = VStr "2026-11-02" ∧ rows db' !! 1%Z = Some b.
Proof.
  split; [by vm_compute|]. eexists _, _. split; [by vm_compute|]. by vm_compute.
Qed.

End CreateProps.

(** ** Properties of the status update and of the deletion *)

Module StatusProps.
Import JS Booking BookingSpec.

Lemma set_status_attribute st b :
  set_attributes [("status", VStr (status_name st))] b = Some (with_status st b).
Proof. by destruct b, st. Qed.

Lemma Qceiling_lt_3 (q : Q) : (Qceiling q < 3)%Z ↔ (q <= 2)%Q.
Proof.
  split.
  - intros Hc. apply Qle_trans with (inject_Z (Qceiling q)); [apply Qle_ceiling|].
    change (inject_Z (Qceiling q) <= inject_Z 2)%Q. rewrite <- Zle_Qle. lia.
  - intros Hq. apply (Qceiling_resp_le q 2) in Hq.
    change (Qceiling 2) with 2%Z in Hq. lia.
Qed.

Section Status.
Context `{JSRuntime}.

Lemma may_confirmb_spec p b : may_confirmb p b = true ↔ may_confirm p b.
Proof.
  unfold may_confirmb, may_confirm, is_admin, owning_vendor.
  rewrite orb_true_iff, andb_true_iff, bool_decide_eq_true, !String.eqb_eq. tauto.
Qed.

Lemma Booking_update_status key b st db :
  Booking_update key b [("status", VStr (status_name st))] db
  = Next (with_status st b, with_row key (with_status st b) db).
Proof. unfold Booking_update. by rewrite set_status_attribute. Qed.

(** The test on the days left: below three exactly when the date is at most
    two days away. *)
Lemma late_iff now b :
  num_lt (daysDifference now b) (Num 3) = true
  ↔ ∃ t, newDate (date b) = Num t ∧ (t - inject_Z now <= 2 * day_ms)%Q.
Proof.
  unfold daysDifference. destruct (newDate (date b)) as [|t]; simpl.
  { split; [discriminate|]. by intros (t & ? & _). }
  rewrite negb_true_iff.
  assert (Qle_bool 3 (inject_Z (Qceiling ((t - inject_Z now) / day_ms))) = false
          ↔ (Qceiling ((t - inject_Z now) / day_ms) < 3)%Z) as ->.
  { change 3%Q with (inject_Z 3).
    destruct (Qle_bool _ _) eqn:E.
    - apply Qle_bool_iff in E. rewrite <- Zle_Qle in E. split; [done|lia].
    - split; [intros _|done]. apply Z.lt_nge. intros Hge.
      rewrite Zle_Qle in Hge. apply Qle_bool_iff in Hge. congruence. }
  rewrite Qceiling_lt_3.
  assert ((t - inject_Z now) / day_ms <= 2 ↔ t - inject_Z now <= 2 * day_ms)%Q as ->.
  { rewrite <- (Qmult_le_r _ _ day_ms) by done.
    rewrite (Qmult_comm _ day_ms), Qmult_div_r by done. reflexivity. }
  split; [by exists t|]. by intros (t' & [= <-] & Ht).
Qed.

Lemma updateStatus_body_spec now p key b body db :
  updateStatus_body now p key b body db
  = match requested body with
    | None =>
        Return (errorResponse 400 "Invalid status value"
                  (VStr "Status must be one of: pending, confirmed, cancelled"))
    | Some st =>
        if decide (status b = st) then Return (BookingJson 200 key b)
        else _ ← checkTransition now p b st;
             Next (with_status st b, with_row key (with_status st b) db)
    end.
Proof.
  unfold updateStatus_body, requested.
  destruct (truthy (field "status" body)); [|done].
  destruct (status_of_value (field "status" body)) as [st|]; [|done].
  cbv beta iota. case_decide; [done|]. by rewrite Booking_update_status.
Qed.

Lemma requested_name body st :
  field "status" body = VStr (status_name st) → requested body = Some st.
Proof.
  intros Hreq. unfold requested. rewrite Hreq.
  rewrite CreateProps.status_of_value_of_name. by destruct st.
Qed.

Lemma updateBookingStatus_granted now p key body db b :
  rows db !! key = Some b → canAccessBooking p b = Some true →
  updateBookingStatus now p key body db
  = match updateStatus_body now p key b body db with
    | Return r => (r, db)
    | Throw _ => (errorResponse 500 "Failed to update booking status" VNull, db)
    | Next (b', db') => (BookingJson 200 key b', db')
    end.
Proof.
  intros Hrow Hacc. unfold updateBookingStatus, requireBookingOwnership.
  by rewrite Hrow, Hacc.
Qed.

Lemma updateBookingStatus_refused now p key body db b :
  rows db !! key = Some b → canAccessBooking p b ≠ Some true →
  ∃ c m, updateBookingStatus now p key body db = (ErrorJson c m None, db)
         ∧ (canAccessBooking p b = Some false → c = 403%Z).
Proof.
  intros Hrow Hacc. unfold updateBookingStatus, requireBookingOwnership.
  rewrite Hrow. destruct (canAccessBooking p b) as [[|]|]; [done| |];
    eexists _, _; (split; [reflexivity|done]).
Qed.

(** C2 as the code has it: a status update on a cancelled booking leaves
    it cancelled unless the caller has access to the booking and asks for
    [pending], which is then set, or asks for [confirmed] as an admin or as
    the vendor of the booking, which is then set. *)
Theorem leaving_cancelled now p key body db b :
  rows db !! key = Some b → status b = cancelled →
  status_at key (updateBookingStatus now p key body db).2
  = Some (after_cancelled p b body).
Proof.
  intros Hrow Hst.
  assert (status_at key db = Some cancelled) as Hsame.
  { unfold status_at. rewrite Hrow. simpl. by rewrite Hst. }
  assert (∀ st, status_at key (with_row key (with_status st b) db) = Some st) as Hset.
  { intros st. unfold status_at, with_row. simpl. by rewrite lookup_insert_eq. }
  unfold after_cancelled. case_bool_decide as Hacc.
  - rewrite (updateBookingStatus_granted now p key body db b Hrow Hacc).
    rewrite updateStatus_body_spec.
    destruct (requested body) as [[]|]; rewrite ?Hst; simpl; try done.
    unfold may_confirmb.
    destruct (String.eqb (role p) "admin"); simpl; [done|].
    destruct (String.eqb (role p) "vendor"); simpl; [|done].
    by destruct (same_string (vendorId b) (id p)) as [[|]|]; simpl.
  - by destruct (updateBookingStatus_refused now p key body db b Hrow Hacc)
      as (c & m & -> & _).
Qed.

Lemma canAccessBooking_printable p b :
  printable (id p) → printable (userId b) → printable (vendorId b) →
  is_Some (canAccessBooking p b).
Proof.
  intros [i Hi] [u Hu] [v Hv]. unfold canAccessBooking, same_string.
  rewrite Hi, Hu, Hv. cbn.
  destruct (String.eqb (role p) "admin"), (truthy (userId b)), (String.eqb u i),
    (String.eqb (role p) "vendor" && truthy (vendorId b)); cbn; by eexists.
Qed.

(** C5 as the code has it: a status update to [confirmed] on a booking
    that is not confirmed yet succeeds only for an admin or the vendor of
    the booking; every other principal gets 403 and the store is left as
    it was. *)
Theorem confirm_guard now p key body db b :
  rows db !! key = Some b → status b ≠ confirmed →
  field "status" body = VStr "confirmed" →
  printable (id p) → printable (userId b) → printable (vendorId b) →
  (is_success (updateBookingStatus now p key body db).1 = true → may_confirm p b)
  ∧ (¬ may_confirm p b →
     is_forbidden (updateBookingStatus now p key body db).1 = true
     ∧ (updateBookingStatus now p key body db).2 = db).
Proof.
  intros Hrow Hst Hreq Hi Hu Hv.
  destruct (canAccessBooking_printable p b Hi Hu Hv) as [acc Hacc].
  destruct acc.
  - rewrite (updateBookingStatus_granted now p key body db b Hrow Hacc).
    rewrite updateStatus_body_spec, (requested_name body confirmed Hreq).
    destruct (decide (status b = confirmed)) as [|_]; [done|].
    rewrite <- may_confirmb_spec. unfold may_confirmb.
    destruct Hi as [i Hi], Hv as [v Hv].
    unfold checkTransition, same_string. rewrite Hi, Hv. simpl.
    destruct (String.eqb (role p) "admin"); simpl; [by split|].
    destruct (String.eqb (role p) "vendor"); simpl; [|by split].
    destruct (String.eqb v i); simpl; by split.
  - destruct (updateBookingStatus_refused now p key body db b Hrow) as (c & m & -> & Hc);
      [congruence|].
    rewrite (Hc Hacc). by simpl.
Qed.

(** A status update to the status that the booking has answers the booking
    and changes nothing, whoever asks among those with access. *)
Lemma same_status_noop now p key body db b :
  rows db !! key = Some b → canAccessBooking p b = Some true →
  field "status" body = VStr (status_name (status b)) →
  updateBookingStatus now p key body db = (BookingJson 200 key b, db).
Proof.
  intros Hrow Hacc Hreq.
  rewrite (updateBookingStatus_granted now p key body db b Hrow Hacc).
  rewrite updateStatus_body_spec, (requested_name body _ Hreq).
  by destruct (decide (status b = status b)).
Qed.

(** The notice rule as the handler applies it: a cancellation by a
    principal with access fails with 403 exactly when the booking is confirmed, the principal has
    the role user and the date is at most two days after now; in every
    other case it sets the status to [cancelled]. *)
Theorem cancel_policy now p key body db b :
  rows db !! key = Some b → canAccessBooking p b = Some true →
  field "status" body = VStr "cancelled" → status b ≠ cancelled →
  (short_notice now p b →
     is_forbidden (updateBookingStatus now p key body db).1 = true
     ∧ (updateBookingStatus now p key body db).2 = db)
  ∧ (¬ short_notice now p b →
     updateBookingStatus now p key body db
     = (BookingJson 200 key (with_status cancelled b),
        with_row key (with_status cancelled b) db)).
Proof.
  intros Hrow Hacc Hreq Hst.
  rewrite (updateBookingStatus_granted now p key body db b Hrow Hacc).
  rewrite updateStatus_body_spec, (requested_name body cancelled Hreq).
  unfold short_notice.
  destruct (decide (status b = cancelled)) as [|_]; [done|].
  rewrite <- late_iff. unfold checkTransition.
  destruct (decide (status b = confirmed)) as [Hc|Hc]; simpl.
  - destruct (num_lt (daysDifference now b) (Num 3)) eqn:Hlate; simpl.
    + destruct (String.eqb_spec (role p) "user") as [Hu|Hu]; simpl.
      * split; [done|]. intros []. done.
      * split; [|done]. by intros (_ & ? & _).
    + split; [|done]. by intros (_ & _ & ?).
  - split; [|done]. by intros (? & _).
Qed.

(** The keys of the deletion stamp are no attributes of the model: setting
    them leaves the row as it is. *)
Lemma deletion_stamp_dropped k v b :
  k ∈ ["deletedBy"; "deletedAt"; "deletionReason"] → set_attribute k v b = Some b.
Proof.
  intros Hk. destruct b.
  repeat (apply elem_of_cons in Hk as [->|Hk]; [reflexivity|]).
  by apply elem_of_nil in Hk.
Qed.

Lemma set_deletion_values now p body b :
  set_attributes (deletion_values now p body) b = Some (with_status cancelled b).
Proof.
  destruct b. unfold deletion_values, set_attributes.
  by destruct (id p), (js_or (field "reason" body) (VStr "User requested deletion")).
Qed.

(** The deletion by an admin or by the user of the booking sets the status
    to [cancelled] and leaves every other column of the row as it was; the
    row stays in the table. *)
Lemma deleteBooking_soft now p key body db b :
  rows db !! key = Some b → canAccessBooking p b = Some true →
  is_admin p ∨ same_string (userId b) (id p) = Some true →
  deleteBooking now p key body db
  = (DeletedJson, with_row key (with_status cancelled b) db).
Proof.
  intros Hrow Hacc Hmay. unfold deleteBooking, requireBookingOwnership.
  rewrite Hrow, Hacc. unfold deleteBooking_body, Booking_update.
  rewrite set_deletion_values.
  destruct Hmay as [Hadm|Hown].
  - unfold is_admin in Hadm. by rewrite Hadm.
  - rewrite Hown. by destruct (String.eqb (role p) "admin").
Qed.

(** The deletion by another principal, the vendor of the booking included,
    is answered 403. *)
Lemma deleteBooking_refused now p key body db b :
  rows db !! key = Some b → canAccessBooking p b = Some true →
  ¬ is_admin p → same_string (userId b) (id p) = Some false →
  deleteBooking now p key body db
  = (ErrorJson 403 "Only administrators or the booking owner can delete bookings" None,
     db).
Proof.
  intros Hrow Hacc Hadm Hown. unfold deleteBooking, requireBookingOwnership.
  rewrite Hrow, Hacc. unfold deleteBooking_body. rewrite Hown.
  destruct (String.eqb_spec (role p) "admin"); [done|]. by simpl.
Qed.

End Status.

(** *** The handlers on concrete requests *)

Import Reference Scenario.
#[local] Existing Instance runtime.

(** The user who owns the cancelled booking 12 asks for [pending] and gets
    it. *)
Lemma reopen_cancelled_run :
  updateBookingStatus noon user7 12 (ask "pending") (db12 cancelled "2026-12-20")
  = (BookingJson 200 12 (booking12 pending "2026-12-20"),
     with_row 12 (booking12 pending "2026-12-20") (db12 cancelled "2026-12-20")).
Proof. by vm_compute. Qed.

(** C2 fails on the reference runtime: after the request above the
    cancelled booking 12 is pending. *)
Lemma cancelled_is_final_fails : ¬ cancelled_is_final.
Proof.
  intros Hfinal.
  specialize (Hfinal noon user7 12%Z (ask "pending") (db12 cancelled "2026-12-20")
                (booking12 cancelled "2026-12-20") eq_refl eq_refl).
  rewrite reopen_cancelled_run in Hfinal. by vm_compute in Hfinal.
Qed.

Lemma leaving_cancelled_example :
  rows (db12 cancelled "2026-12-20") !! 12%Z = Some (booking12 cancelled "2026-12-20")
  ∧ status (booking12 cancelled "2026-12-20") = cancelled
  ∧ status_at 12 (updateBookingStatus noon vendor3 12 (ask "confirmed")
                    (db12 cancelled "2026-12-20")).2
    = Some (after_cancelled vendor3 (booking12 cancelled "2026-12-20") (ask "confirmed")).
Proof.
  split; [reflexivity|]. split; [reflexivity|].
  apply (leaving_cancelled noon vendor3 12 (ask "confirmed")
           (db12 cancelled "2026-12-20") (booking12 cancelled "2026-12-20"));
    reflexivity.
Defined.

(** The user who owns the confirmed booking 12 asks for [confirmed] and is
    answered the booking. *)
Lemma confirm_again_run :
  updateBookingStatus noon user7 12 (ask "confirmed") (db12 confirmed "2026-12-20")
  = (BookingJson 200 12 (booking12 confirmed "2026-12-20"), db12 confirmed "2026-12-20").
Proof. by vm_compute. Qed.

(** C5 fails on the reference runtime: the request above succeeds for a
    principal who is neither an admin nor the vendor of the booking. *)
Lemma confirm_only_by_vendor_or_admin_fails : ¬ confirm_only_by_vendor_or_admin.
Proof.
  intros Hclaim.
  destruct (Hclaim noon user7 12%Z (ask "confirmed") (db12 confirmed "2026-12-20")
              (booking12 confirmed "2026-12-20")) as [Hok _];
    try reflexivity; try (by eexists).
  rewrite confirm_again_run in Hok.
  destruct (Hok eq_refl) as [Hadmin|[Hvendor _]]; discriminate.
Qed.

Lemma confirm_guard_example :
  status (booking12 pending "2026-12-20") ≠ confirmed
  ∧ (is_success (updateBookingStatus noon user7 12 (ask "confirmed")
                   (db12 pending "2026-12-20")).1 = true
     → may_confirm user7 (booking12 pending "2026-12-20"))
  ∧ (¬ may_confirm user7 (booking12 pending "2026-12-20") →
     is_forbidden (updateBookingStatus noon user7 12 (ask "confirmed")
                     (db12 pending "2026-12-20")).1 = true
     ∧ (updateBookingStatus noon user7 12 (ask "confirmed")
          (db12 pending "2026-12-20")).2 = db12 pending "2026-12-20").
Proof.
  split; [discriminate|].
  apply (confirm_guard noon user7 12 (ask "confirmed") (db12 pending "2026-12-20")
           (booking12 pending "2026-12-20"));
    first [reflexivity | discriminate | by eexists].
Defined.

(** Two and a half days before the date, the user who owns the confirmed
    booking 12 cancels it. *)
Lemma late_cancel_run :
  updateBookingStatus noon user7 12 (ask "cancelled") (db12 confirmed "2026-11-05")
  = (BookingJson 200 12 (booking12 cancelled "2026-11-05"),
     with_row 12 (booking12 cancelled "2026-11-05") (db12 confirmed "2026-11-05")).
Proof. by vm_compute. Qed.

(** The rule of three days of notice fails on the reference runtime: the
    date of booking 12 is fewer than three days after now and the request
    above is not answered 403. *)
Lemma three_day_notice_fails : ¬ three_day_notice.
Proof.
  intros Hclaim.
  specialize (Hclaim noon user7 12%Z (ask "cancelled") (db12 confirmed "2026-11-05")
                (booking12 confirmed "2026-11-05") (inject_Z 1793836800000)
                eq_refl eq_refl eq_refl eq_refl eq_refl eq_refl eq_refl).
  rewrite late_cancel_run in Hclaim. discriminate.
Qed.

(** C6 on the confirmed booking 12 of user 7, dated 2026-11-05, at noon of
    2026-11-02.  The date is two and a half days after now, fewer than
    three.  The handler rounds the difference up to whole days, finds 3,
    which is not below 3, and the cancellation by the user is answered 200
    and stored; the claim, like the comment and the message of the handler,
    refuses a cancellation with less than three days of notice. *)
Lemma short_notice_cancel_accepted :
  status (booking12 confirmed "2026-11-05") = confirmed
  ∧ role user7 = "user"
  ∧ canAccessBooking user7 (booking12 confirmed "2026-11-05") = Some true
  ∧ newDate (date (booking12 confirmed "2026-11-05")) = of_Z 1793836800000
  ∧ (inject_Z 1793836800000 - inject_Z noon < 3 * day_ms)%Q
  ∧ daysDifference noon (booking12 confirmed "2026-11-05") = Num 3
  ∧ updateBookingStatus noon user7 12 (ask "cancelled") (db12 confirmed "2026-11-05")
    = (BookingJson 200 12 (booking12 cancelled "2026-11-05"),
       with_row 12 (booking12 cancelled "2026-11-05") (db12 confirmed "2026-11-05")).
Proof. repeat split; by vm_compute. Qed.

Lemma cancel_policy_example :
  short_notice noon user7 (booking12 confirmed "2026-11-04")
  ∧ is_forbidden (updateBookingStatus noon user7 12 (ask "cancelled")
                    (db12 confirmed "2026-11-04")).1 = true
  ∧ (updateBookingStatus noon user7 12 (ask "cancelled")
       (db12 confirmed "2026-11-04")).2 = db12 confirmed "2026-11-04".
Proof.
  assert (short_notice noon user7 (booking12 confirmed "2026-11-04")) as Hshort.
  { split; [reflexivity|]. split; [reflexivity|].
    exists (inject_Z 1793750400000). split; [reflexivity|]. by vm_compute. }
  split; [exact Hshort|].
  apply (cancel_policy noon user7 12 (ask "cancelled") (db12 confirmed "2026-11-04")
           (booking12 confirmed "2026-11-04"));
    first [reflexivity | discriminate | exact Hshort].
Defined.

(** C9 on the deletion of booking 12 by the admin with the reason test: the
    booking is cancelled and can still be read, and the row holds nothing
    of who deleted it, when and why. *)
Lemma delete_stores_no_stamp :
  deleteBooking noon admin1 12 {[ "reason" := VStr "test" ]} (db12 pending "2026-12-20")
  = (DeletedJson,
     with_row 12 (booking12 cancelled "2026-12-20") (db12 pending "2026-12-20"))
  ∧ getBooking admin1 12
      (with_row 12 (booking12 cancelled "2026-12-20") (db12 pending "2026-12-20"))
    = BookingJson 200 12 (booking12 cancelled "2026-12-20")
  ∧ set_attribute "deletedBy" (id admin1) (booking12 cancelled "2026-12-20")
    = Some (booking12 cancelled "2026-12-20")
  ∧ set_attribute "deletionReason" (VStr "test") (booking12 cancelled "2026-12-20")
    = Some (booking12 cancelled "2026-12-20").
Proof. repeat split; by vm_compute. Qed.

(** The vendor of booking 12 may not delete it. *)
Lemma vendor_delete_refused :
  deleteBooking noon vendor3 12 {[ "reason" := VStr "test" ]} (db12 pending "2026-12-20")
  = (ErrorJson 403 "Only administrators or the booking owner can delete bookings" None,
     db12 pending "2026-12-20").
Proof. by vm_compute. Qed.

End StatusProps.

(** ** Properties of the quote routes *)

Module QuoteProps.
Import JS Quotes QuoteSpec.

Lemma write_staged f w s :
  tx w = Some s →
  (∃ w', write true f w = (inl DatabaseError, w') ∧ store w' = store w)
  ∨ (∃ w', write true f w = (inr (), w') ∧ store w' = store w
           ∧ tx w' = Some (f s) ∧ invoiceSeq w' = invoiceSeq w).
Proof.
  intros Hs. unfold write. rewrite Hs.
  destruct (faults w) as [|[] rest]; [right|left|right]; by eexists.
Qed.

Lemma DB_bind_eq {A B} (m : DB A) (f : A → DB B) w :
  (m ≫= f) w
  = match m w with
    | (inl e, w') => (inl e, w')
    | (inr a, w') => f a w'
    end.
Proof. reflexivity. Qed.

Lemma InvoiceItem_create_eq item w :
  InvoiceItem_create true item w
  = match write true (add_invoiceItem item) w with
    | (inl e, w') => (inl e, w')
    | (inr _, w') => (inr item, w')
    end.
Proof. reflexivity. Qed.

Section Quote.
Context `{JSRuntime}.

Lemma create_all_staged k items : ∀ w s,
  tx w = Some s →
  (∃ e w', create_all (λ item, InvoiceItem_create true (invoiceItem_of k item)) items w
           = (inl e, w') ∧ store w' = store w)
  ∨ (∃ w', create_all (λ item, InvoiceItem_create true (invoiceItem_of k item)) items w
           = (inr (invoiceItem_of k <$> items), w')
           ∧ store w' = store w
           ∧ tx w' = Some (foldl (λ s' item, add_invoiceItem (invoiceItem_of k item) s')
                             s items)
           ∧ invoiceSeq w' = invoiceSeq w).
Proof.
  induction items as [|item items IH]; intros w s Hs.
  - right. by exists w.
  - cbn [create_all]. rewrite DB_bind_eq, InvoiceItem_create_eq.
    destruct (write_staged (add_invoiceItem (invoiceItem_of k item)) w s Hs)
      as [(w1 & -> & Hst)|(w1 & -> & Hst & Htx & Hseq)].
    { left. by eexists _, _. }
    rewrite DB_bind_eq.
    destruct (IH w1 _ Htx) as [(e & w2 & -> & Hst2)|(w2 & -> & Hst2 & Htx2 & Hseq2)].
    + left. exists e, w2. split; [done|congruence].
    + right. exists w2. repeat split; [congruence|done|congruence].
Qed.

Lemma invoice_transaction_staged now key q items w s :
  tx w = Some s →
  (∃ e w', invoice_transaction now key q items w = (inl e, w') ∧ store w' = store w)
  ∨ (∃ w', invoice_transaction now key q items w
           = (inr (invoiceSeq w, invoice_of now key q,
                   invoiceItem_of (invoiceSeq w) <$> items), w')
           ∧ store w' = store w
           ∧ tx w' = Some (put_quote key (set_quote_status invoiced q)
                             (foldl (λ s' item,
                                       add_invoiceItem (invoiceItem_of (invoiceSeq w) item) s')
                                (put_invoice (invoiceSeq w) (invoice_of now key q) s)
                                items))).
Proof.
  intros Hs. unfold invoice_transaction. rewrite DB_bind_eq. unfold Invoice_create.
  set (w0 := {| store := store w; tx := tx w;
                invoiceSeq := (invoiceSeq w + 1)%Z; faults := faults w |}).
  destruct (write_staged (put_invoice (invoiceSeq w) (invoice_of now key q)) w0 s Hs)
    as [(w1 & -> & Hst)|(w1 & -> & Hst & Htx & Hseq)].
  { left. by eexists _, _. }
  rewrite DB_bind_eq.
  destruct (create_all_staged (invoiceSeq w) items w1 _ Htx)
    as [(e & w2 & -> & Hst2)|(w2 & -> & Hst2 & Htx2 & Hseq2)].
  { left. eexists _, _. split; [done|]. by rewrite Hst2, Hst. }
  rewrite DB_bind_eq. unfold Quote_update.
  destruct (write_staged (put_quote key (set_quote_status invoiced q)) w2 _ Htx2)
    as [(w3 & -> & Hst3)|(w3 & -> & Hst3 & Htx3 & Hseq3)].
  { left. eexists _, _. split; [done|]. by rewrite Hst3, Hst2, Hst. }
  right. exists w3. split; [done|]. split; [by rewrite Hst3, Hst2, Hst|done].
Qed.

(** The transaction commits everything the callback staged, or nothing. *)
Lemma invoice_transaction_atomic now key q w :
  (∃ e w', transaction (invoice_transaction now key q (items_of key (store w))) w
           = (inl e, w') ∧ store w' = store w)
  ∨ (∃ w', transaction (invoice_transaction now key q (items_of key (store w))) w
           = (inr (invoiceSeq w, invoice_of now key q,
                   invoiceItem_of (invoiceSeq w) <$> items_of key (store w)), w')
           ∧ store w' = invoiced_store now key q (invoiceSeq w) (store w)).
Proof.
  unfold transaction.
  set (w0 := {| store := store w; tx := Some (store w);
                invoiceSeq := invoiceSeq w; faults := faults w |}).
  destruct (invoice_transaction_staged now key q (items_of key (store w)) w0 (store w) eq_refl)
    as [(e & w1 & -> & Hst)|(w1 & -> & Hst & Htx)].
  { left. by eexists _, _. }
  destruct (faults w1) as [|[] rest].
  - right. eexists. split; [done|]. simpl. by rewrite Htx.
  - left. by eexists _, _.
  - right. eexists. split; [done|]. simpl. by rewrite Htx.
Qed.

(** C4: creating the invoice of a quote succeeds only when the quote is
    accepted; for a quote in another status it fails and the tables are as
    before; and whenever it runs, either the invoice, its items and the
    status [invoiced] of the quote are all written and the answer is 201,
    or the answer is an error and the tables are as before. *)
Theorem invoice_all_or_nothing scope now p key w :
  (∀ q, quotes (store w) !! key = Some q → status q ≠ accepted →
        code (createInvoiceFromQuote scope now p key w).1 ≠ 201%Z
        ∧ store (createInvoiceFromQuote scope now p key w).2 = store w)
  ∧ ((code (createInvoiceFromQuote scope now p key w).1 = 201%Z
      ∧ ∃ q, quotes (store w) !! key = Some q ∧ status q = accepted
             ∧ store (createInvoiceFromQuote scope now p key w).2
               = invoiced_store now key q (invoiceSeq w) (store w))
     ∨ (code (createInvoiceFromQuote scope now p key w).1 ≠ 201%Z
        ∧ store (createInvoiceFromQuote scope now p key w).2 = store w)).
Proof.
  unfold createInvoiceFromQuote, route.
  destruct (hasRole ["service_provider"] p); simpl; [|by split; [|right]].
  unfold createInvoice_body, mbind, DB_bind, Quote_findByPk_items.
  destruct (quotes (store w) !! key) as [q|] eqn:Hq; simpl; [|by split; [|right]].
  destruct (strict_eq (serviceProviderId q) (id p)); simpl;
    [|by split; [intros ? [= <-]|right]].
  case_bool_decide as Hst; simpl; [|by split; [intros ? [= <-]|right]].
  split; [by intros ? [= <-]|].
  destruct scope; [|by right].
  destruct (invoice_transaction_atomic now key q w)
    as [(e & w1 & -> & Hs)|(w1 & -> & Hs)]; simpl.
  - by right.
  - left. split; [done|]. by exists q.
Qed.

Lemma write_committed f w :
  head (faults w) ≠ Some true →
  ∃ w', write false f w = (inr (), w') ∧ store w' = f (store w).
Proof.
  intros Hok. unfold write. destruct (faults w) as [|[] rest]; [|done|]; by eexists.
Qed.

(** Accepting a quote that is past its validity marks it expired and is
    answered with the expiry error. *)
Lemma accept_expired now p key w q t :
  quotes (store w) !! key = Some q → role p = "user" →
  strict_eq (userId q) (id p) = true →
  status q = sent ∨ status q = viewed →
  newDate (validUntil q) = Num t → (t < inject_Z now)%Q →
  head (faults w) ≠ Some true →
  code (acceptQuote now p key w).1 = 400%Z
  ∧ body (acceptQuote now p key w).1 = ErrorBody "This quote has expired"
  ∧ store (acceptQuote now p key w).2 = put_quote key (set_quote_status expired q) (store w).
Proof.
  intros Hq Hrole Hid Hst Hd Hlt Hok.
  unfold acceptQuote, route, hasRole. rewrite Hrole. simpl.
  unfold acceptQuote_body. rewrite DB_bind_eq. simpl. rewrite Hq, Hid. simpl.
  replace (negb (bool_decide (status q = sent)) && negb (bool_decide (status q = viewed)))
    with false by (by destruct Hst as [-> | ->]).
  rewrite Hd. simpl. rewrite (CreateProps.Qle_bool_false _ _ Hlt). simpl.
  rewrite DB_bind_eq. unfold Quote_update.
  by destruct (write_committed (put_quote key (set_quote_status expired q)) w Hok)
    as (w' & -> & Hw').
Qed.

(** Rejecting a quote does not look at its validity: the quote becomes
    rejected. *)
Lemma reject_unchecked now p key w q :
  quotes (store w) !! key = Some q → role p = "user" →
  strict_eq (userId q) (id p) = true →
  status q = sent ∨ status q = viewed →
  head (faults w) ≠ Some true →
  code (rejectQuote now p key w).1 = 200%Z
  ∧ store (rejectQuote now p key w).2 = put_quote key (set_quote_status rejected q) (store w).
Proof.
  intros Hq Hrole Hid Hst Hok.
  unfold rejectQuote, route, hasRole. rewrite Hrole. simpl.
  unfold rejectQuote_body. rewrite DB_bind_eq. simpl. rewrite Hq, Hid. simpl.
  replace (negb (bool_decide (status q = sent)) && negb (bool_decide (status q = viewed)))
    with false by (by destruct Hst as [-> | ->]).
  rewrite DB_bind_eq. unfold Quote_update.
  by destruct (write_committed (put_quote key (set_quote_status rejected q)) w Hok)
    as (w' & -> & Hw').
Qed.

End Quote.

(** *** The routes on concrete requests *)

Import Reference.
#[local] Existing Instance runtime.

(** C3 on a rejection: at noon of 2026-11-02 the quote 5, sent and valid
    until midnight, is past its validity.  The client rejects it: the answer
    is 200 and the quote is rejected, not expired. *)
Lemma reject_expired_run :
  num_lt (newDate (validUntil (quote5 sent))) (of_Z 1793620800000) = true
  ∧ code (rejectQuote 1793620800000 client7 5 (world5 sent [])).1 = 200%Z
  ∧ store (rejectQuote 1793620800000 client7 5 (world5 sent [])).2 = store5 rejected.
Proof. repeat split; by vm_compute. Qed.

(** The same quote at the same time, accepted: the answer is 400 and the
    quote is expired. *)
Lemma accept_expired_run :
  code (acceptQuote 1793620800000 client7 5 (world5 sent [])).1 = 400%Z
  ∧ store (acceptQuote 1793620800000 client7 5 (world5 sent [])).2 = store5 expired.
Proof. repeat split; by vm_compute. Qed.

(** With [sequelize] in scope and no fault the invoice of the accepted
    quote 5 is created with its two items; a fault at the third write, the
    second item, leaves the tables as they were. *)
Lemma invoice_run :
  code (createInvoiceFromQuote true 0 provider9 5 (world5 accepted [])).1 = 201%Z
  ∧ store (createInvoiceFromQuote true 0 provider9 5 (world5 accepted [])).2
    = invoiced_store 0 5 (quote5 accepted) 1 (store5 accepted)
  ∧ length (invoiceItems (invoiced_store 0 5 (quote5 accepted) 1 (store5 accepted))) = 2
  ∧ code (createInvoiceFromQuote true 0 provider9 5
            (world5 accepted [false; false; true])).1 = 500%Z
  ∧ store (createInvoiceFromQuote true 0 provider9 5
             (world5 accepted [false; false; true])).2 = store5 accepted.
Proof. repeat split; by vm_compute. Qed.

(** Without a binding of [sequelize] the route answers 500 and writes
    nothing. *)
Lemma invoice_unbound_run :
  createInvoiceFromQuote false 0 provider9 5 (world5 accepted [])
  = ({| code := 500; body := ErrorBody "Error creating invoice" |}, world5 accepted []).
Proof. by vm_compute. Qed.

End QuoteProps.

(** ** Further properties of booking creation *)

Module CreateMore.
Import JS Booking BookingSpec MoreSpec.

Section Create.
Context `{JSRuntime}.
Variable venueService_get : value → option value.
Variable insert_ok : BookingAttrs → bool.
Variable column : ColumnType → value → option value.

Abbreviation createBooking := (createBooking venueService_get insert_ok column).
Abbreviation createBooking_body := (createBooking_body venueService_get insert_ok column).
Abbreviation Booking_row := (Booking_row column).

(** X1: a creation request either stores one new row under the next key of
    the sequence, leaving every other key as it was, or answers an error
    and leaves the store as it was. *)
Theorem create_one_row_or_nothing now p body db :
  (is_success (createBooking now p body db).1 = true
   ∧ ∃ b, (createBooking now p body db).1 = BookingJson 201 (nextId db) b
          ∧ rows (createBooking now p body db).2 !! nextId db = Some b
          ∧ nextId (createBooking now p body db).2 = (nextId db + 1)%Z
          ∧ ∀ k, k ≠ nextId db →
                 rows (createBooking now p body db).2 !! k = rows db !! k)
  ∨ (is_success (createBooking now p body db).1 = false
     ∧ (createBooking now p body db).2 = db).
Proof.
  destruct (createBooking now p body db) as [r db'] eqn:Hc.
  destruct r as [c m d|c e|c key b|]; simpl; try (right; split; [done|]).
  - unfold Booking.createBooking in Hc. repeat case_match; by simplify_eq.
  - unfold Booking.createBooking in Hc. repeat case_match; by simplify_eq.
  - left. split; [done|].
    apply CreateProps.createBooking_accepted in Hc
      as (u & priced & total & st & _ & _ & _ & _ & _ & _ & _ & -> & -> & -> & _).
    exists b. simpl. split; [done|]. split; [apply lookup_insert_eq|].
    split; [done|]. intros k Hk. by apply lookup_insert_ne.
  - unfold Booking.createBooking in Hc.
    destruct (createBooking_body now p body db) as [r|e|[[key' b'] db'']] eqn:Hbody;
      simplify_eq.
    by apply CreateProps.createBooking_body_only_errors in Hbody.
Qed.

(** The two outcomes of a creation request. *)
Lemma createBooking_cases now p body db :
  (∃ b, createBooking now p body db
        = (BookingJson 201 (nextId db) b,
           {| rows := <[nextId db := b]> (rows db); nextId := (nextId db + 1)%Z |}))
  ∨ (is_success (createBooking now p body db).1 = false
     ∧ (createBooking now p body db).2 = db).
Proof.
  destruct (createBooking now p body db) as [r db'] eqn:Hc.
  destruct r as [c m d|c e|c key b|]; simpl.
  - right. split; [done|].
    unfold Booking.createBooking in Hc. repeat case_match; by simplify_eq.
  - right. split; [done|].
    unfold Booking.createBooking in Hc. repeat case_match; by simplify_eq.
  - left. exists b.
    by apply CreateProps.createBooking_accepted in Hc
      as (u & priced & total & st & _ & _ & _ & _ & _ & _ & _ & -> & -> & -> & _).
  - unfold Booking.createBooking in Hc.
    destruct (createBooking_body now p body db) as [r|e|[[key' b'] db'']] eqn:Hbody;
      simplify_eq.
    by apply CreateProps.createBooking_body_only_errors in Hbody.
Qed.

(** X2: with flat pricing, a whole flat price P > 0 and services with
    whole prices, as long as the sum stays below 2^53, the total that the
    handler computes is P plus the prices of the additional services,
    whatever the guest count; the row that the request creates holds this
    total and the flat price P in its FLOAT columns. *)
Theorem flat_total now p body db (P : Q) :
  pricingType_of body = VStr "flat" →
  truthy (field "flatPrice" body) = true →
  parseFloat (field "flatPrice" body) = Num P → (0 < P)%Q → whole P →
  whole_services (field "additionalServices" body) →
  (P + services_sum (field "additionalServices" body) < exact_bound)%Q →
  ∃ t, (t == P + services_sum (field "additionalServices" body))%Q
       ∧ (∀ g, computeTotal body g = Next (VNum (Num t)))
       ∧ ∀ c key b db',
           createBooking now p body db = (BookingJson c key b, db') →
           column FLOAT (VNum (Num t)) = Some (totalPrice b)
           ∧ column FLOAT (VNum (Num P)) = Some (flatPrice b).
Proof.
  intros Hpt Htr HP HPpos HPw Hserv Hbound.
  destruct (CreateProps.addServices_whole P _ HPw Hserv Hbound) as (t & Hadd & Ht).
  assert (∀ g, computePrice body g
               = Next {| p_flatPrice := VNum (Num P);
                         p_perHeadPrice := field "perHeadPrice" body;
                         p_minGuests := field "minGuests" body;
                         p_totalPrice := Num P |}) as Hprice.
  { intros g. unfold computePrice. rewrite Hpt, Htr, HP. simpl.
    by rewrite (CreateProps.Qle_bool_false P 0 HPpos). }
  exists t. split; [done|]. split.
  - intros g. unfold computeTotal. rewrite Hprice. exact Hadd.
  - intros c key b db' Hc.
    apply CreateProps.createBooking_accepted in Hc
      as (u & priced & total & st & _ & _ & _ & _ & Hp & Hs & _ & _ & _ & _ & Hrow).
    rewrite Hprice in Hp. injection Hp as <-. simpl in Hs.
    rewrite Hadd in Hs. injection Hs as <-.
    by apply CreateProps.Booking_row_inv in Hrow
      as (_ & _ & _ & _ & _ & _ & ? & _ & _ & _ & ? & _).
Qed.

(** X3: a per-head request whose guest count is below the minimum is never
    accepted and stores nothing; when the price per head is valid the
    answer is the 400 that cites both numbers. *)
Theorem below_minimum_rejected now p body db (G M : Q) :
  pricingType_of body = VStr "per_head" →
  parseInt (guestCount_of body) = Num G →
  minGuests_of body = Num M → (G < M)%Q →
  is_success (createBooking now p body db).1 = false
  ∧ (createBooking now p body db).2 = db
  ∧ (truthy (field "perHeadPrice" body) = true →
     (∃ R, parseFloat (field "perHeadPrice" body) = Num R ∧ (0 < R)%Q) →
     computePrice body (Num G)
     = Return (ErrorJson 400
                 ("Guest count (" ++ show (VNum (Num G))
                  ++ ") below minimum required (" ++ show (VNum (Num M)) ++ ")")
                 None)).
Proof.
  intros Hpt HG HM Hlt.
  assert (num_lt (Num G) (Num M) = true) as Hlow.
  { simpl. by rewrite (CreateProps.Qle_bool_false M G Hlt). }
  assert (∀ priced, computePrice body (Num G) ≠ Next priced) as Hno.
  { intros priced. unfold computePrice. rewrite Hpt, HM, Hlow. simpl.
    by destruct (_ || _). }
  split; [|split].
  - destruct (createBooking_cases now p body db) as [[b Hc]|[Hf _]]; [|done].
    apply CreateProps.createBooking_accepted in Hc
      as (u & priced & total & st & _ & _ & _ & _ & Hp & _).
    rewrite HG in Hp. by apply Hno in Hp.
  - destruct (createBooking_cases now p body db) as [[b Hc]|[_ Hdb]]; [|done].
    apply CreateProps.createBooking_accepted in Hc
      as (u & priced & total & st & _ & _ & _ & _ & Hp & _).
    rewrite HG in Hp. by apply Hno in Hp.
  - intros Htr (R & HR & HRpos). unfold computePrice.
    rewrite Hpt, Htr, HR, HM, Hlow. simpl.
    by rewrite (CreateProps.Qle_bool_false R 0 HRpos).
Qed.

(** The user that the handler books for. *)
Lemma resolveUserId_Next p body u :
  resolveUserId p body = Next u →
  truthy u = true
  ∧ (role p ≠ "admin" → u = id p)
  ∧ (role p = "admin" → u = field "userId" body).
Proof.
  unfold resolveUserId. intros Hu.
  destruct (String.eqb_spec (role p) "admin") as [Hadm|Hadm]; simpl in Hu.
  - destruct (truthy (field "userId" body)) eqn:Ht; simpl in Hu; [|discriminate].
    rewrite Ht in Hu. simpl in Hu. injection Hu as <-. by repeat split.
  - assert (truthy (id p) = true ∧ u = id p) as [Ht Hid].
    { destruct (truthy (field "userId" body)); simpl in Hu.
      - destruct (same_string _ _); simpl in Hu; [|discriminate].
        destruct (truthy (id p)); simpl in Hu; [|discriminate].
        by injection Hu as <-.
      - destruct (truthy (id p)); simpl in Hu; [|discriminate].
        by injection Hu as <-. }
    rewrite Hid. by repeat split.
Qed.

(** X4: the booking that a principal other than an admin creates is for
    that principal, whatever [userId] the body carries: its [userId] is what
    the INTEGER column makes of the id of the principal.  The booking that
    an admin creates is for the [userId] of the body.  In both cases the
    value is one that the handler takes for present. *)
Theorem booking_is_for_caller now p body db c key b db' :
  createBooking now p body db = (BookingJson c key b, db') →
  (role p ≠ "admin" →
   truthy (id p) = true ∧ column INTEGER (id p) = Some (userId b))
  ∧ (role p = "admin" →
     truthy (field "userId" body) = true
     ∧ column INTEGER (field "userId" body) = Some (userId b)).
Proof.
  intros Hc.
  apply CreateProps.createBooking_accepted in Hc
    as (u & priced & total & st & Hu & _ & _ & _ & _ & _ & _ & _ & _ & _ & Hrow).
  apply CreateProps.Booking_row_inv in Hrow as (Hcol & _).
  apply resolveUserId_Next in Hu as (Ht & Hother & Hadmin).
  simpl in Hcol. split.
  - intros Hrole. by rewrite <- (Hother Hrole).
  - intros Hrole. by rewrite <- (Hadmin Hrole).
Qed.

(** The venue check that an accepted request has passed. *)
Lemma verifyVenue_Next body :
  verifyVenue venueService_get body = Next () →
  ∃ venue v,
    venueService_get (field "venueId" body) = Some venue
    ∧ get_prop "vendorId" venue = Some v
    ∧ same_string v (field "vendorId" body) = Some true.
Proof.
  unfold verifyVenue. intros Hv.
  destruct (truthy (field "venueId" body)); simpl in Hv; [|discriminate].
  destruct (truthy (field "vendorId" body)); simpl in Hv; [|discriminate].
  destruct (venueService_get (field "venueId" body)) as [venue|] eqn:Hvenue;
    simpl in Hv; [|discriminate].
  destruct (get_prop "vendorId" venue) as [v|] eqn:Hprop; simpl in Hv; [|discriminate].
  destruct (same_string v (field "vendorId" body)) as [[|]|] eqn:Hs; try discriminate.
  by exists venue, v.
Qed.

(** X5: a booking is stored only after the venue service has answered for
    the [venueId] of the request with a vendor whose id prints as the
    [vendorId] of the request; a failed call or another vendor stores
    nothing.  The row holds what the INTEGER columns make of the two ids. *)
Theorem venue_checked now p body db c key b db' :
  createBooking now p body db = (BookingJson c key b, db') →
  (∃ venue v,
     venueService_get (field "venueId" body) = Some venue
     ∧ get_prop "vendorId" venue = Some v
     ∧ same_string v (field "vendorId" body) = Some true)
  ∧ column INTEGER (field "venueId" body) = Some (venueId b)
  ∧ column INTEGER (field "vendorId" body) = Some (vendorId b).
Proof.
  intros Hc.
  apply CreateProps.createBooking_accepted in Hc
    as (u & priced & total & st & _ & Hv & _ & _ & _ & _ & _ & _ & _ & _ & Hrow).
  apply CreateProps.Booking_row_inv in Hrow as (_ & Hvenue & Hvendor & _).
  split; [by apply verifyVenue_Next|]. by split.
Qed.

(** X6: every booking that the handler stores comes from a request whose
    guest count parses to a positive number, whose date is not before the
    time of the request, and whose pricing type is flat or per_head; the
    row holds what the INTEGER column makes of the parsed guest count and
    the DATEONLY column of the date, and the pricing type itself. *)
Theorem created_row_invariants now p body db c key b db' :
  createBooking now p body db = (BookingJson c key b, db') →
  (∃ g, parseInt (guestCount_of body) = Num g ∧ (0 < g)%Q
        ∧ column INTEGER (VNum (Num g)) = Some (guestCount b))
  ∧ truthy (field "date" body) = true
  ∧ num_lt (newDate (field "date" body)) (of_Z now) = false
  ∧ column DATEONLY (field "date" body) = Some (date b)
  ∧ (pricingType b = VStr "flat" ∨ pricingType b = VStr "per_head").
Proof.
  intros Hc.
  apply CreateProps.createBooking_accepted in Hc
    as (u & priced & total & st & _ & _ & Hg & Hd & Hp & _ & _ & _ & _ & _ & Hrow).
  apply CreateProps.Booking_row_inv in Hrow
    as (_ & _ & _ & Hdate & Hguests & Hpt & _). simpl in Hdate, Hguests, Hpt.
  split; [|split; [|split; [|split]]].
  - unfold resolveGuestCount in Hg.
    destruct (truthy (guestCount_of body)); simpl in Hg; [|discriminate].
    destruct (parseInt (guestCount_of body)) as [|g]; simpl in Hg; [discriminate|].
    destruct (Qle_bool g 0) eqn:Hle; [discriminate|].
    exists g. split; [done|]. split; [|done]. apply Qnot_le_lt. intros Hle'.
    apply Qle_bool_iff in Hle'. congruence.
  - unfold validateDate in Hd. by destruct (truthy (field "date" body)).
  - unfold validateDate in Hd.
    destruct (truthy (field "date" body)); simpl in Hd; [|discriminate].
    by destruct (num_lt _ _).
  - done.
  - rewrite Hpt. unfold computePrice in Hp.
    destruct (pricingType_of body) as [| | |?|t| |]; simpl in Hp; try discriminate.
    destruct (String.eqb_spec t "flat") as [Ht|_]; [left; by rewrite Ht|].
    destruct (String.eqb_spec t "per_head") as [Ht|_]; [right; by rewrite Ht|].
    discriminate.
Qed.

(** X7: a principal other than an admin reads back the booking just
    created, when the INTEGER column prints the id of the principal as the
    principal carries it (an id without leading zeros, say) and gives the
    [vendorId] a value that prints: GET on the new key answers the stored
    row. *)
Theorem create_then_read now p body db c key b db' :
  createBooking now p body db = (BookingJson c key b, db') →
  role p ≠ "admin" → printable (id p) →
  (∀ v, column INTEGER (id p) = Some v → call_toString v = call_toString (id p)) →
  (∀ v, column INTEGER (field "vendorId" body) = Some v → printable v) →
  getBooking p key db' = BookingJson 200 key b.
Proof.
  intros Hc Hrole [i Hi] Hsame Hprint.
  apply CreateProps.createBooking_accepted in Hc
    as (u & priced & total & st & Hu & _ & _ & _ & _ & _ & _ & _ & _ & -> & Hrow).
  apply CreateProps.Booking_row_inv in Hrow as (Huser & _ & Hvendor & _).
  apply resolveUserId_Next in Hu as (_ & Hother & _).
  simpl in Huser, Hvendor. rewrite (Hother Hrole) in Huser.
  apply Hsame in Huser. destruct (Hprint _ Hvendor) as [x Hx].
  unfold getBooking. simpl. rewrite lookup_insert_eq.
  unfold same_string. rewrite Huser, Hi, Hx. simpl. rewrite String.eqb_refl.
  destruct (String.eqb (role p) "vendor"); simpl; by rewrite ?orb_true_r.
Qed.

End Create.

(** *** The further properties on concrete requests *)

Import Reference Scenario.
#[local] Existing Instance runtime.

Lemma created1_run :
  Booking.createBooking venue5 accept_all pg_column midnight user7 per_head_request empty_db
  = (BookingJson 201 1 created1, db1).
Proof. by vm_compute. Qed.

(** An id with a leading zero: the INTEGER column holds 7 for the id 07,
    and the principal who created the booking is refused its reading. *)
Lemma leading_zero_run :
  ∃ b db',
    Booking.createBooking venue5 accept_all pg_column midnight
      {| id := VStr "07"; role := "user" |} per_head_request empty_db
    = (BookingJson 201 1 b, db')
    ∧ userId b = n 7
    ∧ getBooking {| id := VStr "07"; role := "user" |} 1 db'
      = ErrorJson 403 "You do not have permission to access this booking" None.
Proof. eexists _, _. split; [by vm_compute|]. split; by vm_compute. Qed.

Lemma flat_total_example :
  ∃ t, (t == 5000 + services_sum (field "additionalServices" flat_request))%Q
       ∧ (∀ g, computeTotal flat_request g = Next (VNum (Num t)))
       ∧ ∀ c key b db',
           Booking.createBooking venue5 accept_all pg_column midnight user7
             flat_request empty_db
           = (BookingJson c key b, db') →
           pg_column FLOAT (VNum (Num t)) = Some (totalPrice b)
           ∧ pg_column FLOAT (VNum (Num 5000)) = Some (flatPrice b).
Proof.
  apply (flat_total venue5 accept_all pg_column midnight user7 flat_request empty_db 5000);
    try (by vm_compute).
  - exists 5000%Z. split; [lia|reflexivity].
  - repeat constructor. eexists. split; [reflexivity|]. right.
    eexists. split; [reflexivity|]. exists 250%Z. split; [lia|reflexivity].
Defined.

Lemma below_minimum_example :
  is_success (Booking.createBooking venue5 accept_all pg_column midnight user7
                small_party_request empty_db).1 = false
  ∧ (Booking.createBooking venue5 accept_all pg_column midnight user7
       small_party_request empty_db).2 = empty_db
  ∧ (truthy (field "perHeadPrice" small_party_request) = true →
     (∃ R, parseFloat (field "perHeadPrice" small_party_request) = Num R ∧ (0 < R)%Q) →
     computePrice small_party_request (Num 40)
     = Return (ErrorJson 400
                 ("Guest count (" ++ show (VNum (Num 40))
                  ++ ") below minimum required (" ++ show (VNum (Num 50)) ++ ")")
                 None)).
Proof.
  apply (below_minimum_rejected venue5 accept_all pg_column midnight user7
           small_party_request empty_db 40 50); by vm_compute.
Defined.

Lemma booking_is_for_caller_example :
  (role user7 ≠ "admin" →
   truthy (id user7) = true ∧ pg_column INTEGER (id user7) = Some (userId created1))
  ∧ (role user7 = "admin" →
     truthy (field "userId" per_head_request) = true
     ∧ pg_column INTEGER (field "userId" per_head_request) = Some (userId created1)).
Proof.
  exact (booking_is_for_caller venue5 accept_all pg_column midnight user7 per_head_request
           empty_db 201 1 created1 db1 created1_run).
Defined.

Lemma venue_checked_example :
  (∃ venue v,
     venue5 (field "venueId" per_head_request) = Some venue
     ∧ get_prop "vendorId" venue = Some v
     ∧ same_string v (field "vendorId" per_head_request) = Some true)
  ∧ pg_column INTEGER (field "venueId" per_head_request) = Some (venueId created1)
  ∧ pg_column INTEGER (field "vendorId" per_head_request) = Some (vendorId created1).
Proof.
  exact (venue_checked venue5 accept_all pg_column midnight user7 per_head_request
           empty_db 201 1 created1 db1 created1_run).
Defined.

Lemma created_row_invariants_example :
  (∃ g, parseInt (guestCount_of per_head_request) = Num g ∧ (0 < g)%Q
        ∧ pg_column INTEGER (VNum (Num g)) = Some (guestCount created1))
  ∧ truthy (field "date" per_head_request) = true
  ∧ num_lt (newDate (field "date" per_head_request)) (of_Z midnight) = false
  ∧ pg_column DATEONLY (field "date" per_head_request) = Some (date created1)
  ∧ (pricingType created1 = VStr "flat" ∨ pricingType created1 = VStr "per_head").
Proof.
  exact (created_row_invariants venue5 accept_all pg_column midnight user7 per_head_request
           empty_db 201 1 created1 db1 created1_run).
Defined.

Lemma create_then_read_example :
  role user7 ≠ "admin" ∧ printable (id user7)
  ∧ getBooking user7 1 db1 = BookingJson 200 1 created1.
Proof.
  assert (role user7 ≠ "admin") as Hrole by discriminate.
  assert (printable (id user7)) as Hid by (by eexists).
  split; [exact Hrole|]. split; [exact Hid|].
  apply (create_then_read venue5 accept_all pg_column midnight user7 per_head_request
           empty_db 201 1 created1 db1 created1_run Hrole Hid).
  - intros v Hv. vm_compute in Hv. by injection Hv as <-.
  - intros v Hv. vm_compute in Hv. injection Hv as <-. by eexists.
Defined.

End CreateMore.

(** ** Further properties of reading, updating and deleting a booking *)

Module RowProps.
Import JS Booking BookingSpec MoreSpec.

Lemma with_status_same b : with_status (status b) b = b.
Proof. by destruct b. Qed.

Lemma with_status_twice st st' b : with_status st (with_status st' b) = with_status st b.
Proof. done. Qed.

Lemma with_row_twice key b b' db : with_row key b (with_row key b' db) = with_row key b db.
Proof. unfold with_row. simpl. by rewrite insert_insert_eq. Qed.

Section Rows.
Context `{JSRuntime}.

Lemma canAccessBooking_with_status p st b :
  canAccessBooking p (with_status st b) = canAccessBooking p b.
Proof. done. Qed.

Lemma checkTransition_only_errors now p b st :
  only_errors (checkTransition now p b st).
Proof.
  intros r. unfold checkTransition. destruct st.
  - discriminate.
  - destruct (String.eqb (role p) "admin"); simpl; [discriminate|].
    destruct (String.eqb (role p) "vendor"); simpl; [|by intros [= <-]].
    destruct (same_string (vendorId b) (id p)) as [[|]|]; simpl;
      try discriminate. by intros [= <-].
  - repeat case_match; try discriminate. by intros [= <-].
Qed.

(** The outcomes of a status update on an existing row. *)
Lemma updateBookingStatus_cases now p key body db b :
  rows db !! key = Some b →
  (is_success (updateBookingStatus now p key body db).1 = false
   ∧ (updateBookingStatus now p key body db).2 = db)
  ∨ (canAccessBooking p b = Some true ∧ requested body = Some (status b)
     ∧ updateBookingStatus now p key body db = (BookingJson 200 key b, db))
  ∨ (∃ st, canAccessBooking p b = Some true ∧ requested body = Some st
           ∧ status b ≠ st
           ∧ updateBookingStatus now p key body db
             = (BookingJson 200 key (with_status st b),
                with_row key (with_status st b) db)).
Proof.
  intros Hrow.
  destruct (decide (canAccessBooking p b = Some true)) as [Hacc|Hacc].
  - rewrite (StatusProps.updateBookingStatus_granted now p key body db b Hrow Hacc).
    rewrite StatusProps.updateStatus_body_spec.
    destruct (requested body) as [st|]; [|by left].
    destruct (decide (status b = st)) as [<-|Hne]; [by right; left|].
    destruct (checkTransition now p b st) as [r|e|[]] eqn:Hcheck; simpl.
    + left. split; [|done]. by apply checkTransition_only_errors in Hcheck.
    + by left.
    + right; right. by exists st.
  - left.
    by destruct (StatusProps.updateBookingStatus_refused now p key body db b Hrow Hacc)
      as (c & m & -> & _).
Qed.

Lemma updateBookingStatus_missing now p key body db :
  rows db !! key = None →
  updateBookingStatus now p key body db = (ErrorJson 404 "Booking not found" None, db).
Proof.
  intros Hrow. unfold updateBookingStatus, requireBookingOwnership. by rewrite Hrow.
Qed.

(** The outcomes of a deletion of an existing row. *)
Lemma deleteBooking_cases now p key body db b :
  rows db !! key = Some b →
  (is_success (deleteBooking now p key body db).1 = false
   ∧ (deleteBooking now p key body db).2 = db)
  ∨ (canAccessBooking p b = Some true
     ∧ (is_admin p ∨ is_owner p b)
     ∧ deleteBooking now p key body db
       = (DeletedJson, with_row key (with_status cancelled b) db)).
Proof.
  intros Hrow. unfold deleteBooking, requireBookingOwnership. rewrite Hrow.
  destruct (canAccessBooking p b) as [[|]|] eqn:Hacc; try by left.
  unfold deleteBooking_body, Booking_update, is_admin, is_owner.
  rewrite StatusProps.set_deletion_values.
  destruct (String.eqb_spec (role p) "admin") as [Hadm|Hadm]; simpl.
  { right. split; [done|]. split; [by left|done]. }
  destruct (same_string (userId b) (id p)) as [[|]|]; simpl; try by left.
  right. split; [done|]. split; [by right|done].
Qed.

Lemma deleteBooking_missing now p key body db :
  rows db !! key = None →
  deleteBooking now p key body db = (ErrorJson 404 "Booking not found" None, db).
Proof.
  intros Hrow. unfold deleteBooking, requireBookingOwnership. by rewrite Hrow.
Qed.

(** X8: a status update and a deletion change at most the status of the
    row they address: the sequence, every other row and every other column
    stay as they are, and no row appears or disappears. *)
Theorem update_and_delete_frame now p key body db :
  let after_update := (updateBookingStatus now p key body db).2 in
  let after_delete := (deleteBooking now p key body db).2 in
  nextId after_update = nextId db ∧ nextId after_delete = nextId db
  ∧ (∀ k, k ≠ key → rows after_update !! k = rows db !! k
                    ∧ rows after_delete !! k = rows db !! k)
  ∧ match rows db !! key with
    | Some b => (∃ st, rows after_update !! key = Some (with_status st b))
                ∧ (∃ st, rows after_delete !! key = Some (with_status st b))
    | None => rows after_update !! key = None ∧ rows after_delete !! key = None
    end.
Proof.
  simpl. destruct (rows db !! key) as [b|] eqn:Hrow.
  - assert ((updateBookingStatus now p key body db).2 = db
            ∨ ∃ st, (updateBookingStatus now p key body db).2
                    = with_row key (with_status st b) db) as Hu.
    { destruct (updateBookingStatus_cases now p key body db b Hrow)
        as [[_ ->]|[(_ & _ & ->)|(st & _ & _ & _ & ->)]]; eauto. }
    assert ((deleteBooking now p key body db).2 = db
            ∨ ∃ st, (deleteBooking now p key body db).2
                    = with_row key (with_status st b) db) as Hd.
    { destruct (deleteBooking_cases now p key body db b Hrow)
        as [[_ ->]|(_ & _ & ->)]; eauto. }
    assert (∀ db', db' = db ∨ (∃ st, db' = with_row key (with_status st b) db) →
                   nextId db' = nextId db
                   ∧ (∀ k, k ≠ key → rows db' !! k = rows db !! k)
                   ∧ ∃ st, rows db' !! key = Some (with_status st b)) as Hframe.
    { intros db' [->|[st ->]].
      - split; [done|]. split; [done|]. exists (status b).
        by rewrite with_status_same.
      - split; [done|]. split.
        + intros k Hk. simpl. by rewrite lookup_insert_ne.
        + exists st. simpl. by rewrite lookup_insert_eq. }
    destruct (Hframe _ Hu) as (Hn1 & Hk1 & Hs1), (Hframe _ Hd) as (Hn2 & Hk2 & Hs2).
    repeat split; auto.
  - rewrite (updateBookingStatus_missing now p key body db Hrow),
      (deleteBooking_missing now p key body db Hrow). simpl.
    by repeat split.
Qed.

(** X9: a status update that has succeeded can be repeated at any later
    time: the repetition answers the same booking and leaves the store as
    the first one left it. *)
Theorem update_repeatable now now' p key body db b' db' :
  updateBookingStatus now p key body db = (BookingJson 200 key b', db') →
  updateBookingStatus now' p key body db' = (BookingJson 200 key b', db').
Proof.
  intros Hup.
  destruct (rows db !! key) as [b|] eqn:Hrow;
    [|by rewrite (updateBookingStatus_missing now p key body db Hrow) in Hup].
  assert (rows db' !! key = Some b' ∧ canAccessBooking p b' = Some true
          ∧ requested body = Some (status b')) as (Hrow' & Hacc' & Hreq').
  { destruct (updateBookingStatus_cases now p key body db b Hrow)
      as [[Hf _]|[(Hacc & Hreq & Heq)|(st & Hacc & Hreq & _ & Heq)]].
    - by rewrite Hup in Hf.
    - rewrite Heq in Hup. by simplify_eq.
    - rewrite Heq in Hup. simplify_eq. simpl.
      by rewrite lookup_insert_eq. }
  rewrite (StatusProps.updateBookingStatus_granted now' p key body db' b' Hrow' Hacc').
  rewrite StatusProps.updateStatus_body_spec, Hreq'.
  by destruct (decide (status b' = status b')).
Qed.

(** X10: a deletion succeeds exactly for an admin and for the user of the
    booking, among the principals that pass the ownership check; it then
    sets the status to [cancelled], keeps the row and every other column,
    and is answered 403 with the store untouched for the others, the vendor
    of the booking included. *)
Theorem delete_policy now p key body db b :
  rows db !! key = Some b → canAccessBooking p b = Some true →
  printable (id p) → printable (userId b) →
  (is_admin p ∨ is_owner p b →
     deleteBooking now p key body db
     = (DeletedJson, with_row key (with_status cancelled b) db))
  ∧ (¬ (is_admin p ∨ is_owner p b) →
     deleteBooking now p key body db
     = (ErrorJson 403 "Only administrators or the booking owner can delete bookings"
          None, db)).
Proof.
  intros Hrow Hacc [i Hi] [u Hu]. split.
  - intros Hmay. by apply (StatusProps.deleteBooking_soft now p key body db b).
  - intros Hnot. apply (StatusProps.deleteBooking_refused now p key body db b); try done.
    + intros Hadm. apply Hnot. by left.
    + unfold is_owner, same_string in *. rewrite Hu, Hi in *. simpl in *.
      destruct (String.eqb u i); [|done]. exfalso. apply Hnot. by right.
Qed.

(** X11: after a deletion the booking is still in the table with the
    status [cancelled]; the principal who deleted it reads it back, and a
    second deletion by the same principal succeeds and changes nothing. *)
Theorem delete_then_read_and_repeat now now' p key body body' db b db' :
  rows db !! key = Some b →
  deleteBooking now p key body db = (DeletedJson, db') →
  printable (id p) → printable (userId b) → printable (vendorId b) →
  rows db' !! key = Some (with_status cancelled b)
  ∧ getBooking p key db' = BookingJson 200 key (with_status cancelled b)
  ∧ deleteBooking now' p key body' db' = (DeletedJson, db').
Proof.
  intros Hrow Hdel [i Hi] [u Hu] [v Hv].
  destruct (deleteBooking_cases now p key body db b Hrow)
    as [[Hf _]|(Hacc & Hmay & Heq)]; [by rewrite Hdel in Hf|].
  rewrite Heq in Hdel. simplify_eq.
  assert (rows (with_row key (with_status cancelled b) db) !! key
          = Some (with_status cancelled b)) as Hrow'.
  { simpl. by rewrite lookup_insert_eq. }
  split; [done|]. split.
  - unfold getBooking. rewrite Hrow'. simpl.
    unfold is_admin, is_owner, same_string in *. rewrite Hi, Hu, Hv in *. simpl in *.
    destruct Hmay as [Hadm|Hown].
    + rewrite Hadm. simpl. by destruct (String.eqb u i).
    + injection Hown as ->.
      destruct (String.eqb (role p) "vendor"); simpl; by rewrite ?orb_true_r.
  - rewrite (StatusProps.deleteBooking_soft now' p key body' _ _ Hrow');
      [|by rewrite canAccessBooking_with_status|done].
    by rewrite with_status_twice, with_row_twice.
Qed.

(** X12: whoever passes the ownership check of the update and delete
    routes can read the booking. *)
Theorem access_implies_read p key db b :
  rows db !! key = Some b → canAccessBooking p b = Some true →
  printable (id p) → printable (userId b) → printable (vendorId b) →
  may_read p b ∧ getBooking p key db = BookingJson 200 key b.
Proof.
  intros Hrow Hacc [i Hi] [u Hu] [v Hv].
  unfold getBooking, may_read, is_admin, owning_vendor, is_owner. rewrite Hrow.
  unfold canAccessBooking, same_string in *. rewrite ?Hi, ?Hu, ?Hv in *. simpl in *.
  destruct (String.eqb_spec (role p) "admin") as [Hadm|Hadm]; simpl.
  { split; [by left|]. by destruct (String.eqb (role p) "vendor"). }
  destruct (truthy (userId b)); simpl in Hacc.
  - destruct (String.eqb u i) eqn:Hui; simpl in Hacc.
    + split; [by right; right|].
      destruct (String.eqb (role p) "vendor"); simpl; by rewrite ?orb_true_r.
    + destruct (String.eqb_spec (role p) "vendor") as [Hven|Hven]; simpl in *;
        [|discriminate].
      destruct (truthy (vendorId b)); simpl in Hacc; [|discriminate].
      injection Hacc as Hvi. rewrite Hvi. simpl. split; [|done].
      by right; left.
  - destruct (String.eqb_spec (role p) "vendor") as [Hven|Hven]; simpl in *;
      [|discriminate].
    destruct (truthy (vendorId b)); simpl in Hacc; [|discriminate].
    injection Hacc as Hvi. rewrite Hvi. simpl. split; [|done].
    by right; left.
Qed.

(** X13: GET on a booking answers it to an admin, to the vendor of the
    booking and to its user, and answers 403 to every other principal; on a
    key without a row it answers 404. *)
Theorem read_policy p key db :
  match rows db !! key with
  | None => getBooking p key db = ErrorJson 404 "Booking not found" None
  | Some b =>
      printable (id p) → printable (userId b) → printable (vendorId b) →
      (may_read p b → getBooking p key db = BookingJson 200 key b)
      ∧ (¬ may_read p b →
         getBooking p key db
         = ErrorJson 403 "You do not have permission to access this booking" None)
  end.
Proof.
  unfold getBooking. destruct (rows db !! key) as [b|]; [|done].
  intros [i Hi] [u Hu] [v Hv].
  unfold may_read, is_admin, owning_vendor, is_owner, same_string.
  rewrite Hi, Hu, Hv. simpl.
  destruct (String.eqb_spec (role p) "admin") as [Hadm|Hadm]; simpl.
  { split; [by destruct (String.eqb (role p) "vendor")|]. intros Hnot.
    exfalso. apply Hnot. by left. }
  destruct (String.eqb_spec (role p) "vendor") as [Hven|Hven]; simpl;
    destruct (String.eqb v i), (String.eqb u i); simpl;
    (split; [intros Hm|intros Hnot]); try done;
    try (exfalso; apply Hnot; auto; fail);
    destruct Hm as [?|[[? ?]|?]]; done.
Qed.

(** X14: the handlers that write keep the keys of the table below the
    next key of the sequence; on such a table a creation never replaces a
    row that is there. *)
Theorem keys_stay_below_sequence venueService_get insert_ok column now p key body db :
  wf_store db →
  wf_store (createBooking venueService_get insert_ok column now p body db).2
  ∧ wf_store (updateBookingStatus now p key body db).2
  ∧ wf_store (deleteBooking now p key body db).2
  ∧ ∀ k b, rows db !! k = Some b →
           rows (createBooking venueService_get insert_ok column now p body db).2 !! k
           = Some b.
Proof.
  intros Hwf.
  assert (∀ b', wf_store (with_row key b' db) ∨ rows db !! key = None) as Hput.
  { intros b'. destruct (rows db !! key) as [b|] eqn:Hrow; [left|by right].
    intros k [x Hx]. simpl in *. apply Hwf.
    destruct (decide (k = key)) as [->|Hk]; [by eexists|].
    rewrite lookup_insert_ne in Hx by done. by eexists. }
  split; [|split; [|split]].
  - destruct (CreateMore.createBooking_cases venueService_get insert_ok column now p body db)
      as [[b ->]|[_ ->]]; [|done].
    intros k [x Hx]. simpl in *.
    destruct (decide (k = nextId db)) as [->|Hk]; [lia|].
    rewrite lookup_insert_ne in Hx by done.
    assert (k < nextId db)%Z by (apply Hwf; by eexists). lia.
  - destruct (rows db !! key) as [b|] eqn:Hrow.
    + destruct (updateBookingStatus_cases now p key body db b Hrow)
        as [[_ ->]|[(_ & _ & ->)|(st & _ & _ & _ & ->)]]; try done.
      destruct (Hput (with_status st b)); [done|congruence].
    + by rewrite (updateBookingStatus_missing now p key body db Hrow).
  - destruct (rows db !! key) as [b|] eqn:Hrow.
    + destruct (deleteBooking_cases now p key body db b Hrow)
        as [[_ ->]|(_ & _ & ->)]; try done.
      destruct (Hput (with_status cancelled b)); [done|congruence].
    + by rewrite (deleteBooking_missing now p key body db Hrow).
  - intros k b Hrow.
    destruct (CreateMore.createBooking_cases venueService_get insert_ok column now p body db)
      as [[b' ->]|[_ ->]]; [|done].
    simpl. rewrite lookup_insert_ne; [done|].
    assert (k < nextId db)%Z by (apply Hwf; by eexists). lia.
Qed.

End Rows.

(** *** The further properties on concrete requests *)

Import Reference Scenario.
#[local] Existing Instance runtime.

Lemma update_repeatable_example :
  updateBookingStatus midnight user7 12 (ask "cancelled")
    (with_row 12 (booking12 cancelled "2026-11-05") (db12 confirmed "2026-11-05"))
  = (BookingJson 200 12 (booking12 cancelled "2026-11-05"),
     with_row 12 (booking12 cancelled "2026-11-05") (db12 confirmed "2026-11-05")).
Proof.
  exact (update_repeatable noon midnight user7 12 (ask "cancelled")
           (db12 confirmed "2026-11-05") _ _ StatusProps.late_cancel_run).
Defined.

Lemma delete_policy_example :
  (is_admin vendor3 ∨ is_owner vendor3 (booking12 pending "2026-12-20") →
     deleteBooking noon vendor3 12 ∅ (db12 pending "2026-12-20")
     = (DeletedJson,
        with_row 12 (with_status cancelled (booking12 pending "2026-12-20"))
          (db12 pending "2026-12-20")))
  ∧ (¬ (is_admin vendor3 ∨ is_owner vendor3 (booking12 pending "2026-12-20")) →
     deleteBooking noon vendor3 12 ∅ (db12 pending "2026-12-20")
     = (ErrorJson 403 "Only administrators or the booking owner can delete bookings"
          None, db12 pending "2026-12-20")).
Proof.
  apply (delete_policy noon vendor3 12 ∅ (db12 pending "2026-12-20")
           (booking12 pending "2026-12-20")); first [reflexivity | by eexists].
Defined.

Lemma admin_delete_run :
  deleteBooking noon admin1 12 ∅ (db12 confirmed "2026-12-20")
  = (DeletedJson,
     with_row 12 (booking12 cancelled "2026-12-20") (db12 confirmed "2026-12-20")).
Proof. by vm_compute. Qed.

Lemma delete_then_read_and_repeat_example :
  rows (with_row 12 (booking12 cancelled "2026-12-20") (db12 confirmed "2026-12-20")) !! 12%Z
  = Some (with_status cancelled (booking12 confirmed "2026-12-20"))
  ∧ getBooking admin1 12
      (with_row 12 (booking12 cancelled "2026-12-20") (db12 confirmed "2026-12-20"))
    = BookingJson 200 12 (with_status cancelled (booking12 confirmed "2026-12-20"))
  ∧ deleteBooking midnight admin1 12 (ask "x")
      (with_row 12 (booking12 cancelled "2026-12-20") (db12 confirmed "2026-12-20"))
    = (DeletedJson,
       with_row 12 (booking12 cancelled "2026-12-20") (db12 confirmed "2026-12-20")).
Proof.
  apply (delete_then_read_and_repeat noon midnight admin1 12 ∅ (ask "x")
           (db12 confirmed "2026-12-20") (booking12 confirmed "2026-12-20"));
    first [reflexivity | exact admin_delete_run | by eexists].
Defined.

Lemma access_implies_read_example :
  canAccessBooking vendor3 (booking12 pending "2026-12-20") = Some true
  ∧ may_read vendor3 (booking12 pending "2026-12-20")
  ∧ getBooking vendor3 12 (db12 pending "2026-12-20")
    = BookingJson 200 12 (booking12 pending "2026-12-20").
Proof.
  split; [reflexivity|].
  apply (access_implies_read vendor3 12 (db12 pending "2026-12-20")
           (booking12 pending "2026-12-20")); first [reflexivity | by eexists].
Defined.

Lemma keys_stay_below_sequence_example :
  wf_store (db12 pending "2026-12-20")
  ∧ wf_store (Booking.createBooking venue5 accept_all pg_column midnight user7 per_head_request
                (db12 pending "2026-12-20")).2
  ∧ wf_store (updateBookingStatus midnight user7 12 per_head_request
                (db12 pending "2026-12-20")).2
  ∧ wf_store (deleteBooking midnight user7 12 per_head_request
                (db12 pending "2026-12-20")).2
  ∧ ∀ k b, rows (db12 pending "2026-12-20") !! k = Some b →
           rows (Booking.createBooking venue5 accept_all pg_column midnight user7 per_head_request
                   (db12 pending "2026-12-20")).2 !! k = Some b.
Proof.
  assert (wf_store (db12 pending "2026-12-20")) as Hwf.
  { intros k [x Hx]. unfold db12 in *. simpl in *.
    apply lookup_singleton_Some in Hx as [<- _]. done. }
  split; [exact Hwf|].
  exact (keys_stay_below_sequence venue5 accept_all pg_column midnight user7 12
           per_head_request (db12 pending "2026-12-20") Hwf).
Defined.

End RowProps.

(** ** Properties of the authentication *)

Module AuthnProps.
Import JS Booking Authn MoreSpec.

Lemma append_empty (s : string) : s ++ "" = s.
Proof.
  induction s as [|a s IH]; [done|].
  change (String a (s ++ "") = String a s). by rewrite IH.
Qed.

Lemma split_space_spaceless t :
  spaceless t = true → split_space t = [t].
Proof.
  induction t as [|a t IH]; [done|]. simpl.
  destruct (Ascii.eqb a space); [done|]. simpl. intros Ht. by rewrite (IH Ht).
Qed.

Lemma split_space_app t rest :
  spaceless t = true →
  split_space (t ++ String space rest) = t :: split_space rest.
Proof.
  induction t as [|a t IH]; simpl.
  - done.
  - destruct (Ascii.eqb a space); [done|]. simpl. intros Ht. by rewrite (IH Ht).
Qed.

Lemma present_insert_ne k k' v (h : gmap string string) :
  k ≠ k' → present k' (<[k := v]> h) = present k' h.
Proof. intros Hk. unfold present. by rewrite lookup_insert_ne. Qed.

Section Middleware.
Variable jwt_verify : string → option value.
Variable headerValue : value → option string.

Abbreviation authenticateJWT := (authenticateJWT jwt_verify).
Abbreviation jwtMiddleware := (jwtMiddleware jwt_verify).
Abbreviation through_gateway := (through_gateway jwt_verify headerValue).

(** X15: the token is the text between the prefix and the next space.  A
    client that sends the header Bearer t, with a token t that has no space
    and is not empty, and no gateway headers, is authenticated exactly when
    the token verifies, as the principal of its payload; every other answer
    is the 401 for an invalid token. *)
Theorem bearer_round_trip (h : gmap string string) t rest :
  spaceless t = true → t ≠ "" →
  present "x-user-id" h && present "x-user-role" h = false →
  h !! "authorization" = Some ("Bearer " ++ t ++ rest) →
  rest = "" ∨ (∃ rest', rest = String space rest') →
  bearer_token ("Bearer " ++ t ++ rest) = Some t
  ∧ authenticateJWT h
    = match jwt_verify t with
      | Some decoded => Authenticated (principal_of decoded)
      | None => Unauthorized 401 "Invalid token"
      end.
Proof.
  intros Ht Hne Hgw Hauth Hrest.
  assert (bearer_token ("Bearer " ++ t ++ rest) = Some t) as Htok.
  { unfold bearer_token.
    change ("Bearer " ++ t ++ rest) with ("Bearer" ++ String space (t ++ rest)).
    rewrite split_space_app by done. simpl.
    destruct Hrest as [->|[rest' ->]].
    - by rewrite append_empty, split_space_spaceless.
    - by rewrite split_space_app. }
  split; [done|].
  unfold Authn.authenticateJWT, present in *. rewrite Hgw, Hauth. simpl.
  rewrite Htok. by destruct t.
Qed.

(** X16: the booking service answers an unauthenticated request with 401
    and nothing else, and it never verifies a token when both gateway
    headers are present: the principal is then the one the headers name. *)
Theorem authenticate_outcomes (h : gmap string string) :
  (∀ c m, authenticateJWT h = Unauthorized c m → c = 401%Z)
  ∧ (∀ i r, h !! "x-user-id" = Some i → h !! "x-user-role" = Some r →
            i ≠ "" → r ≠ "" →
            authenticateJWT h = Authenticated {| id := VStr i; role := r |})
  ∧ (∀ u, authenticateJWT h = Authenticated u →
          (∃ i r, h !! "x-user-id" = Some i ∧ h !! "x-user-role" = Some r
                  ∧ u = {| id := VStr i; role := r |})
          ∨ (∃ token decoded, token ≠ "" ∧ jwt_verify token = Some decoded
                              ∧ u = principal_of decoded)).
Proof.
  split; [|split].
  - intros c m. unfold Authn.authenticateJWT. repeat case_match; by intros [= <- _].
  - intros i r Hi Hr Hine Hrne. unfold Authn.authenticateJWT, present.
    rewrite Hi, Hr. simpl.
    destruct (String.eqb_spec i ""), (String.eqb_spec r ""); done.
  - intros u. unfold Authn.authenticateJWT.
    destruct (present "x-user-id" h && present "x-user-role" h) eqn:Hgw.
    + intros [= <-]. left. apply andb_true_iff in Hgw as [Hi Hr].
      unfold present in Hi, Hr.
      destruct (h !! "x-user-id") as [i|]; [|done].
      destruct (h !! "x-user-role") as [r|]; [|done]. by exists i, r.
    + repeat case_match; intros Heq; simplify_eq.
      right. eexists _, _. split; [|split; [eassumption|done]]. done.
Qed.

(** X17: behind the gateway the booking service acts for the principal of
    the verified token: when the id and the role of the payload give
    non-empty header texts, the service authenticates exactly that id and
    role, whatever X-User headers the client sent. *)
Theorem gateway_principal req decoded i r :
  jwtMiddleware req = Forward (Some decoded) → truthy decoded = true →
  headerValue (user_prop "id" decoded) = Some i →
  headerValue (user_prop "role" decoded) = Some r →
  i ≠ "" → r ≠ "" →
  through_gateway req = AtService (Authenticated {| id := VStr i; role := r |}).
Proof.
  intros Hgw Ht Hi Hr Hine Hrne.
  unfold Authn.through_gateway. rewrite Hgw. unfold onProxyReq.
  rewrite Ht, Hi, Hr. simpl.
  unfold Authn.authenticateJWT, present.
  rewrite lookup_insert_eq, lookup_insert_ne, lookup_insert_eq by done. simpl.
  by destruct (String.eqb_spec i ""), (String.eqb_spec r "").
Qed.

(** X18: on a path that is not public the X-User-Id and X-User-Role headers
    of the client have no effect: two requests that differ only in them
    fare alike at the gateway and at the service. *)
Theorem client_headers_ignored req1 req2 :
  (∀ token decoded, jwt_verify token = Some decoded → truthy decoded = true) →
  path req1 = path req2 → path req1 ∉ publicPaths →
  (∀ k, k ≠ "x-user-id" → k ≠ "x-user-role" →
        headers req1 !! k = headers req2 !! k) →
  through_gateway req1 = through_gateway req2.
Proof.
  intros Htruthy Hpath Hpub Hag.
  assert (headers req1 !! "authorization" = headers req2 !! "authorization") as Hauth
    by by apply Hag.
  unfold Authn.through_gateway, Authn.jwtMiddleware, present.
  rewrite <- Hpath, <- Hauth. rewrite bool_decide_eq_false_2 by done.
  destruct (_ || _); [done|].
  destruct (jwt_verify _) as [d|] eqn:Hd; [|done].
  unfold onProxyReq. rewrite (Htruthy _ _ Hd).
  destruct (headerValue (user_prop "id" d)) as [i|]; simpl; [|done].
  destruct (headerValue (user_prop "role" d)) as [r|]; simpl; [|done].
  f_equal. unfold Authn.authenticateJWT, present.
  rewrite !lookup_insert_eq.
  rewrite !(lookup_insert_ne _ "x-user-role" "x-user-id") by done.
  rewrite !lookup_insert_eq.
  rewrite !(lookup_insert_ne _ _ "authorization") by done.
  by rewrite Hauth.
Qed.

End Middleware.

(** *** The middleware on concrete requests *)

Import Reference.

Lemma bearer_round_trip_example :
  bearer_token ("Bearer " ++ "tok7" ++ "") = Some "tok7"
  ∧ Authn.authenticateJWT verify7 (headers plain_request)
    = match verify7 "tok7" with
      | Some decoded => Authenticated (principal_of decoded)
      | None => Unauthorized 401 "Invalid token"
      end.
Proof.
  apply (bearer_round_trip verify7 (headers plain_request) "tok7" "");
    first [reflexivity | discriminate | by left].
Defined.

Lemma gateway_principal_example :
  Authn.through_gateway verify7 ref_toString spoofed_request
  = AtService (Authenticated {| id := VStr "7"; role := "user" |}).
Proof.
  apply (gateway_principal verify7 ref_toString spoofed_request payload7 "7" "user");
    first [by vm_compute | discriminate].
Defined.

Lemma client_headers_ignored_example :
  Authn.through_gateway verify7 ref_toString spoofed_request
  = Authn.through_gateway verify7 ref_toString plain_request.
Proof.
  apply (client_headers_ignored verify7 ref_toString spoofed_request plain_request).
  - intros token decoded. unfold verify7.
    destruct (String.eqb token "tok7"); [by intros [= <-]|discriminate].
  - reflexivity.
  - simpl. unfold publicPaths. intros Hin.
    repeat (apply elem_of_cons in Hin as [Hin|Hin]; [discriminate|]).
    by apply elem_of_nil in Hin.
  - intros k Hid Hrole. unfold spoofed_request, plain_request. simpl.
    destruct (decide (k = "authorization")) as [->|Hk]; [reflexivity|].
    rewrite lookup_singleton_ne by done. by rewrite !lookup_insert_ne by done.
Defined.

End AuthnProps.

(** ** Properties of the list of bookings *)

Module ListProps.
Import JS Booking BookingList MoreSpec.

Lemma matchesb_spec sql_eq w row :
  matchesb sql_eq w row = true → matches sql_eq w row.
Proof.
  unfold matchesb, matches. rewrite !andb_true_iff. intros [[Hu Hv] Hs].
  repeat split.
  - intros v Hw. by rewrite Hw in Hu.
  - intros v Hw. by rewrite Hw in Hv.
  - intros st Hw. rewrite Hw in Hs. simpl in Hs. by apply bool_decide_eq_true in Hs.
Qed.

Section List.
Context `{JSRuntime}.
Variable findAndCountAll : Where → number → number → option (Z * list (Z * Booking)).
Variable sql_eq : value → value → bool.

Abbreviation listBookings := (listBookings findAndCountAll).

Lemma parse_or_nonzero v d : ¬ (d == 0)%Q → ∃ q, parse_or v d = Num q ∧ ¬ (q == 0)%Q.
Proof.
  intros Hd. unfold parse_or. destruct (parseInt v) as [|q]; [by exists d|].
  destruct (Qeq_bool q 0) eqn:Hq; [by exists d|].
  exists q. split; [done|]. intros Hq'. apply Qeq_bool_iff in Hq'. congruence.
Qed.

(** X19: the page and the limit of the answer are numbers other than 0, 1
    and 10 when the query gives none, and [pages] is the whole number of
    pages: with a positive limit l and total c, (pages - 1) * l < c <=
    pages * l. *)
Theorem pagination_bounds p query bookings pg :
  listBookings p query = ListJson bookings pg →
  ∃ (l g : Q) (n : Z),
    limit pg = Num l ∧ ¬ (l == 0)%Q
    ∧ page pg = Num g ∧ ¬ (g == 0)%Q
    ∧ pages pg = Num (inject_Z n)
    ∧ (isNaN (parseInt (field "limit" query)) = true → l = 10%Q)
    ∧ (isNaN (parseInt (field "page" query)) = true → g = 1%Q)
    ∧ ((0 < l)%Q →
       ((inject_Z n - 1) * l < inject_Z (total pg))%Q
       ∧ (inject_Z (total pg) <= inject_Z n * l)%Q).
Proof.
  unfold BookingList.listBookings.
  destruct (findAndCountAll _ _ _) as [[count rows']|]; [|discriminate].
  intros [= <- <-]. simpl.
  destruct (parse_or_nonzero (field "limit" query) 10) as (l & Hl & Hl0); [done|].
  destruct (parse_or_nonzero (field "page" query) 1) as (g & Hg & Hg0); [done|].
  rewrite Hl, Hg. simpl.
  destruct (Qeq_bool l 0) eqn:Hz; [by apply Qeq_bool_iff in Hz|].
  exists l, g, (Qceiling (inject_Z count / l)).
  repeat split; try done.
  - unfold parse_or in Hl. destruct (parseInt (field "limit" query)); [|done].
    intros _. by injection Hl.
  - unfold parse_or in Hg. destruct (parseInt (field "page" query)); [|done].
    intros _. by injection Hg.
  - pose proof (Qceiling_lt (inject_Z count / l)) as Hlt.
    rewrite <- Z.add_opp_r, inject_Z_plus in Hlt.
    change (inject_Z (- (1))) with (- (1))%Q in Hlt.
    apply (Qmult_lt_r _ _ l) in Hlt; [|done].
    rewrite (Qmult_comm (_ / l) l), Qmult_div_r in Hlt by done. exact Hlt.
  - pose proof (Qle_ceiling (inject_Z count / l)) as Hle.
    apply (Qmult_le_r _ _ l) in Hle; [|done].
    by rewrite (Qmult_comm (_ / l) l), Qmult_div_r in Hle by done.
Qed.

(** X20: when the database answers only rows that satisfy the where clause,
    a principal that is neither admin nor vendor is listed only bookings
    whose userId equals its id, a vendor only bookings whose vendorId
    equals its id, and a valid status filter leaves only bookings of that
    status; nothing in the query widens this. *)
Theorem list_is_scoped p query bookings pg :
  (∀ w l o c rs, findAndCountAll w l o = Some (c, rs) → Forall (matches sql_eq w) rs) →
  listBookings p query = ListJson bookings pg →
  Forall (λ row : Z * Booking,
            (role p ≠ "admin" → role p ≠ "vendor" → sql_eq (userId row.2) (id p) = true)
            ∧ (role p = "vendor" → sql_eq (vendorId row.2) (id p) = true)
            ∧ (∀ st, field "status" query = VStr (status_name st) → status row.2 = st))
         bookings.
Proof.
  intros Hsound. unfold BookingList.listBookings.
  destruct (findAndCountAll _ _ _) as [[count rows']|] eqn:Hfind; [|discriminate].
  intros [= <- <-]. apply Hsound in Hfind.
  eapply Forall_impl; [exact Hfind|].
  intros row (Hu & Hv & Hs). unfold listWhere in *. simpl in *.
  repeat split.
  - intros Hadm Hven. apply Hu.
    destruct (String.eqb_spec (role p) "admin"); [done|].
    by destruct (String.eqb_spec (role p) "vendor").
  - intros Hven. apply Hv. by rewrite Hven.
  - intros st Hq. apply Hs. rewrite Hq.
    rewrite CreateProps.status_of_value_of_name. by destruct st.
Qed.

End List.

(** *** The list on a concrete table *)

Import Reference Scenario.
#[local] Existing Instance runtime.

Lemma list_run :
  BookingList.listBookings (table_find two_bookings) user7 ∅
  = ListJson two_bookings
      {| total := 2; page := Num 1; limit := Num 10; pages := Num 1 |}.
Proof. by vm_compute. Qed.

Lemma pagination_bounds_example :
  ∃ (l g : Q) (n : Z),
    Num 10 = Num l ∧ ¬ (l == 0)%Q
    ∧ Num 1 = Num g ∧ ¬ (g == 0)%Q
    ∧ Num 1 = Num (inject_Z n)
    ∧ (isNaN (parseInt (field "limit" (∅ : gmap string value))) = true → l = 10%Q)
    ∧ (isNaN (parseInt (field "page" (∅ : gmap string value))) = true → g = 1%Q)
    ∧ ((0 < l)%Q →
       ((inject_Z n - 1) * l < inject_Z 2)%Q ∧ (inject_Z 2 <= inject_Z n * l)%Q).
Proof.
  exact (pagination_bounds (table_find two_bookings) user7 ∅ _ _ list_run).
Defined.

Lemma table_find_sound table w l o c rs :
  table_find table w l o = Some (c, rs) → Forall (matches printed_eq w) rs.
Proof.
  unfold table_find. destruct l as [|l], o as [|o]; try discriminate.
  intros [= <- <-]. apply Forall_take, Forall_drop, Forall_forall.
  intros row Hin. apply list_elem_of_filter in Hin as [Hm _].
  by apply matchesb_spec.
Qed.

Lemma list_is_scoped_example :
  Forall (λ row : Z * Booking,
            (role user7 ≠ "admin" → role user7 ≠ "vendor" →
             printed_eq (userId row.2) (id user7) = true)
            ∧ (role user7 = "vendor" → printed_eq (vendorId row.2) (id user7) = true)
            ∧ (∀ st, field "status" (∅ : gmap string value) = VStr (status_name st) →
                     status row.2 = st))
         two_bookings.
Proof.
  exact (list_is_scoped (table_find two_bookings) printed_eq user7 ∅ _ _
           (table_find_sound two_bookings) list_run).
Defined.

End ListProps.

(** ** Properties of the life of a quote *)

Module QuoteMore.
Import JS Quotes QuoteRoutes QuoteSpec QuoteLife.

Lemma write_cases f w :
  ∃ w', (write false f w = (inl DatabaseError, w') ∧ store w' = store w)
        ∨ (write false f w = (inr (), w') ∧ store w' = f (store w)).
Proof.
  unfold write. destruct (faults w) as [|[] rest]; eexists; [right|left|right]; done.
Qed.

Lemma write_ok f w :
  head (faults w) ≠ Some true →
  ∃ w', write false f w = (inr (), w') ∧ store w' = f (store w)
        ∧ faults w' = tail (faults w) ∧ invoiceSeq w' = invoiceSeq w.
Proof.
  intros Hok. unfold write. destruct (faults w) as [|[] rest]; [|done|]; by eexists.
Qed.

Lemma no_faults_head w : no_faults w → head (faults w) ≠ Some true.
Proof.
  unfold no_faults. destruct (faults w) as [|b rest]; [done|].
  intros Hf [= ->]. by apply Forall_cons in Hf as [? _].
Qed.

Lemma no_faults_tail w w' : no_faults w → faults w' = tail (faults w) → no_faults w'.
Proof.
  unfold no_faults. intros Hf ->. destruct (faults w); [done|].
  by apply Forall_cons in Hf as [_ ?].
Qed.

Lemma put_quote_twice key a b s :
  put_quote key a (put_quote key b s) = put_quote key a s.
Proof. unfold put_quote. simpl. by rewrite insert_insert_eq. Qed.

Lemma put_quote_lookup key a s : quotes (put_quote key a s) !! key = Some a.
Proof. unfold put_quote. simpl. by rewrite lookup_insert_eq. Qed.

Lemma items_of_put_quote key k a s : items_of key (put_quote k a s) = items_of key s.
Proof. reflexivity. Qed.

Lemma succeeds_ret {A} (a : A) : succeeds (ret a).
Proof. intros w Hw. by exists a, w. Qed.

Lemma succeeds_bind {A B} (m : DB A) (f : A → DB B) :
  succeeds m → (∀ a, succeeds (f a)) → succeeds (m ≫= f).
Proof.
  intros Hm Hf w Hw. rewrite QuoteProps.DB_bind_eq.
  destruct (Hm w Hw) as (a & w1 & -> & Hw1). by apply Hf.
Qed.

Lemma succeeds_write in_tx f : succeeds (write in_tx f).
Proof.
  intros w Hw. unfold write, no_faults in *.
  destruct (faults w) as [|b rest] eqn:Hfw.
  - destruct in_tx, (tx w); eexists _, _; split; try done; simpl; done.
  - apply Forall_cons in Hw as [-> Hrest].
    destruct in_tx, (tx w); eexists _, _; split; try done; simpl; done.
Qed.

Lemma succeeds_Invoice_create in_tx i : succeeds (Invoice_create in_tx i).
Proof.
  intros w Hw. unfold Invoice_create.
  destruct (succeeds_write in_tx (put_invoice (invoiceSeq w) i)
              {| store := store w; tx := tx w; invoiceSeq := (invoiceSeq w + 1)%Z;
                 faults := faults w |} Hw) as ([] & w1 & -> & Hw1).
  by eexists _, _.
Qed.

Lemma succeeds_create_all {A B} (create : A → DB B) items :
  (∀ x, succeeds (create x)) → succeeds (create_all create items).
Proof.
  intros Hc. induction items as [|x rest IH]; simpl.
  - apply succeeds_ret.
  - apply succeeds_bind; [apply Hc|]. intros y.
    apply succeeds_bind; [apply IH|]. intros ys. apply succeeds_ret.
Qed.

Lemma succeeds_transaction {A} (body : DB A) : succeeds body → succeeds (transaction body).
Proof.
  intros Hb w Hw. unfold transaction.
  destruct (Hb {| store := store w; tx := Some (store w);
                  invoiceSeq := invoiceSeq w; faults := faults w |} Hw)
    as (a & w1 & -> & Hw1).
  unfold no_faults in *. destruct (faults w1) as [|b rest] eqn:Hf1.
  - by eexists _, _.
  - apply Forall_cons in Hw1 as [-> Hrest]. by eexists _, _.
Qed.

Section Life.
Context `{JSRuntime}.

Lemma succeeds_invoice_transaction now key q items :
  succeeds (invoice_transaction now key q items).
Proof.
  unfold invoice_transaction.
  apply succeeds_bind; [apply succeeds_Invoice_create|]. intros invoiceId.
  apply succeeds_bind.
  { apply succeeds_create_all. intros item. unfold InvoiceItem_create.
    apply succeeds_bind; [apply succeeds_write|]. intros _. apply succeeds_ret. }
  intros its. apply succeeds_bind; [apply succeeds_write|]. intros _.
  apply succeeds_ret.
Qed.

Lemma hasRole_one r p : role p = r → hasRole [r] p = true.
Proof. intros <-. unfold hasRole. simpl. by rewrite String.eqb_refl. Qed.

Lemma hasRole_other r p : role p ≠ r → hasRole [r] p = false.
Proof.
  intros Hr. unfold hasRole. simpl.
  by destruct (String.eqb_spec (role p) r).
Qed.

(** Sending a draft by its provider. *)
Lemma send_ok p key w q :
  quotes (store w) !! key = Some q → status q = draft →
  role p = "service_provider" → strict_eq (serviceProviderId q) (id p) = true →
  head (faults w) ≠ Some true →
  ∃ w', sendQuote p key w
        = (MessageReply 200 "Quote sent successfully"
             (Some (set_quote_status sent q, items_of key (store w))), w')
        ∧ store w' = put_quote key (set_quote_status sent q) (store w)
        ∧ faults w' = tail (faults w) ∧ invoiceSeq w' = invoiceSeq w.
Proof.
  intros Hq Hst Hrole Hid Hok.
  unfold sendQuote. rewrite (hasRole_one _ _ Hrole). simpl.
  unfold sendQuote_body. rewrite QuoteProps.DB_bind_eq. simpl.
  rewrite Hq, Hid, Hst. simpl.
  rewrite QuoteProps.DB_bind_eq. unfold Quote_update.
  destruct (write_ok (put_quote key (set_quote_status sent q)) w Hok)
    as (w' & -> & Hs & Hf & Hi).
  rewrite QuoteProps.DB_bind_eq. unfold Quote_findByPk_items, ret.
  rewrite Hs, put_quote_lookup. simpl. by eexists.
Qed.

(** The first reading of a sent quote by its client. *)
Lemma view_ok p key w q :
  quotes (store w) !! key = Some q → status q = sent →
  role p = "user" → strict_eq (userId q) (id p) = true →
  head (faults w) ≠ Some true →
  ∃ w', getQuote p key w
        = (QuoteReply (set_quote_status viewed q) (items_of key (store w)), w')
        ∧ store w' = put_quote key (set_quote_status viewed q) (store w)
        ∧ faults w' = tail (faults w) ∧ invoiceSeq w' = invoiceSeq w.
Proof.
  intros Hq Hst Hrole Hid Hok.
  unfold getQuote, checkQuoteAccess, quoteAccess. rewrite Hq, Hrole, Hid. simpl.
  unfold getQuote_body. rewrite QuoteProps.DB_bind_eq.
  unfold Quote_findByPk_items. rewrite Hq. simpl. rewrite Hrole, Hst. simpl.
  rewrite QuoteProps.DB_bind_eq. unfold Quote_update.
  destruct (write_ok (put_quote key (set_quote_status viewed q)) w Hok)
    as (w' & -> & Hs & Hf & Hi).
  simpl. by eexists.
Qed.

(** Accepting a quote that is not past its validity. *)
Lemma accept_ok now p key w q :
  quotes (store w) !! key = Some q → status q = sent ∨ status q = viewed →
  role p = "user" → strict_eq (userId q) (id p) = true →
  num_lt (newDate (validUntil q)) (of_Z now) = false →
  head (faults w) ≠ Some true →
  ∃ w', acceptQuote now p key w
        = ({| code := 200;
              body := QuoteBody "Quote accepted successfully"
                        (Some (set_quote_status accepted q, items_of key (store w))) |}, w')
        ∧ store w' = put_quote key (set_quote_status accepted q) (store w)
        ∧ faults w' = tail (faults w) ∧ invoiceSeq w' = invoiceSeq w.
Proof.
  intros Hq Hst Hrole Hid Hd Hok.
  unfold acceptQuote, route. rewrite (hasRole_one _ _ Hrole). simpl.
  unfold acceptQuote_body. rewrite QuoteProps.DB_bind_eq. simpl. rewrite Hq, Hid. simpl.
  replace (negb (bool_decide (status q = sent)) && negb (bool_decide (status q = viewed)))
    with false by (by destruct Hst as [-> | ->]).
  rewrite Hd.
  rewrite QuoteProps.DB_bind_eq. unfold Quote_update.
  destruct (write_ok (put_quote key (set_quote_status accepted q)) w Hok)
    as (w' & -> & Hs & Hf & Hi).
  rewrite QuoteProps.DB_bind_eq. unfold Quote_findByPk_items, ret.
  rewrite Hs, put_quote_lookup. simpl. by eexists.
Qed.

(** The invoice of an accepted quote when no write throws. *)
Lemma invoice_ok now p key w q :
  quotes (store w) !! key = Some q → status q = accepted →
  role p = "service_provider" → strict_eq (serviceProviderId q) (id p) = true →
  no_faults w →
  code (createInvoiceFromQuote true now p key w).1 = 201%Z
  ∧ store (createInvoiceFromQuote true now p key w).2
    = invoiced_store now key q (invoiceSeq w) (store w).
Proof.
  intros Hq Hst Hrole Hid Hok.
  unfold createInvoiceFromQuote, route. rewrite (hasRole_one _ _ Hrole). simpl.
  unfold createInvoice_body. rewrite QuoteProps.DB_bind_eq.
  unfold Quote_findByPk_items. rewrite Hq. simpl. rewrite Hid, Hst. simpl.
  rewrite QuoteProps.DB_bind_eq.
  destruct (succeeds_transaction _
              (succeeds_invoice_transaction now key q (items_of key (store w))) w Hok)
    as (r & w1 & Hrun & _).
  destruct (QuoteProps.invoice_transaction_atomic now key q w)
    as [(e & w2 & Heq & _)|(w2 & Heq & Hs)]; [congruence|].
  rewrite Heq. done.
Qed.

(** X21: the routes send, read, accept and reject leave the tables as they
    are or change the status of the quote addressed, and nothing else,
    along an edge of the route: send from draft to sent; read from sent to
    viewed; accept from sent or viewed to accepted or expired; reject from
    sent or viewed to rejected.  A quote that is accepted, rejected,
    expired or invoiced is not changed by any of them. *)
Theorem status_edges now p key w :
  moved Send key (store w) (store (sendQuote p key w).2)
  ∧ moved Read key (store w) (store (getQuote p key w).2)
  ∧ moved Accept key (store w) (store (acceptQuote now p key w).2)
  ∧ moved Reject key (store w) (store (rejectQuote now p key w).2).
Proof.
  repeat split.
  - unfold sendQuote. destruct (hasRole _ p); simpl; [|by left].
    unfold sendQuote_body. rewrite QuoteProps.DB_bind_eq. simpl.
    destruct (quotes (store w) !! key) as [q|] eqn:Hq; simpl; [|by left].
    destruct (strict_eq _ _); simpl; [|by left].
    case_bool_decide as Hst; simpl; [|by left].
    rewrite QuoteProps.DB_bind_eq. unfold Quote_update.
    destruct (write_cases (put_quote key (set_quote_status sent q)) w)
      as (w' & [[-> Hs]|[-> Hs]]); simpl; [by left|].
    right. exists q, sent. by rewrite Hst.
  - unfold getQuote. destruct (checkQuoteAccess p key (store w)) as [|_]; [by left|].
    unfold getQuote_body. rewrite QuoteProps.DB_bind_eq. unfold Quote_findByPk_items.
    destruct (quotes (store w) !! key) as [q|] eqn:Hq; simpl; [|by left].
    destruct (String.eqb (role p) "user"); simpl; [|by left].
    case_bool_decide as Hst; simpl; [|by left].
    rewrite QuoteProps.DB_bind_eq. unfold Quote_update.
    destruct (write_cases (put_quote key (set_quote_status viewed q)) w)
      as (w' & [[-> Hs]|[-> Hs]]); simpl; [by left|].
    right. exists q, viewed. by rewrite Hst.
  - unfold acceptQuote, route. destruct (hasRole _ p); simpl; [|by left].
    unfold acceptQuote_body. rewrite QuoteProps.DB_bind_eq. simpl.
    destruct (quotes (store w) !! key) as [q|] eqn:Hq; simpl; [|by left].
    destruct (strict_eq _ _); simpl; [|by left].
    destruct (negb (bool_decide (status q = sent))
              && negb (bool_decide (status q = viewed))) eqn:Hst; simpl; [by left|].
    assert (status q = sent ∨ status q = viewed) as Hsv.
    { apply andb_false_iff in Hst as [Hst|Hst]; apply negb_false_iff in Hst;
        apply bool_decide_eq_true in Hst; auto. }
    destruct (num_lt _ _); rewrite QuoteProps.DB_bind_eq; unfold Quote_update.
    + destruct (write_cases (put_quote key (set_quote_status expired q)) w)
        as (w' & [[-> Hs]|[-> Hs]]); simpl; [by left|].
      right. exists q, expired. by destruct Hsv as [-> | ->].
    + destruct (write_cases (put_quote key (set_quote_status accepted q)) w)
        as (w' & [[-> Hs]|[-> Hs]]); simpl; [by left|].
      right. exists q, accepted. by destruct Hsv as [-> | ->].
  - unfold rejectQuote, route. destruct (hasRole _ p); simpl; [|by left].
    unfold rejectQuote_body. rewrite QuoteProps.DB_bind_eq. simpl.
    destruct (quotes (store w) !! key) as [q|] eqn:Hq; simpl; [|by left].
    destruct (strict_eq _ _); simpl; [|by left].
    destruct (negb (bool_decide (status q = sent))
              && negb (bool_decide (status q = viewed))) eqn:Hst; simpl; [by left|].
    assert (status q = sent ∨ status q = viewed) as Hsv.
    { apply andb_false_iff in Hst as [Hst|Hst]; apply negb_false_iff in Hst;
        apply bool_decide_eq_true in Hst; auto. }
    rewrite QuoteProps.DB_bind_eq. unfold Quote_update.
    destruct (write_cases (put_quote key (set_quote_status rejected q)) w)
      as (w' & [[-> Hs]|[-> Hs]]); simpl; [by left|].
    right. exists q, rejected. by destruct Hsv as [-> | ->].
Qed.

(** X22: when the client of a sent or viewed quote accepts it and the
    validity is not before now (an invalid date is not before any time),
    the answer is 200 with the quote and its items, and the quote is
    accepted. *)
Theorem accept_in_time now p key w q :
  quotes (store w) !! key = Some q → status q = sent ∨ status q = viewed →
  role p = "user" → strict_eq (userId q) (id p) = true →
  num_lt (newDate (validUntil q)) (of_Z now) = false →
  head (faults w) ≠ Some true →
  (acceptQuote now p key w).1
  = {| code := 200;
       body := QuoteBody "Quote accepted successfully"
                 (Some (set_quote_status accepted q, items_of key (store w))) |}
  ∧ store (acceptQuote now p key w).2
    = put_quote key (set_quote_status accepted q) (store w).
Proof.
  intros Hq Hst Hrole Hid Hd Hok.
  by destruct (accept_ok now p key w q Hq Hst Hrole Hid Hd Hok) as (w' & -> & Hs & _).
Qed.

(** X23: a principal who is not the client of a quote can neither accept
    nor reject it, and its reading of the quote writes nothing; a principal
    who is not the provider of a quote can neither send it nor create its
    invoice.  The refusals are 403 and leave the database as it is. *)
Theorem parties_only scope now p key w q :
  quotes (store w) !! key = Some q →
  (role p ≠ "user" ∨ strict_eq (userId q) (id p) = false →
   code (acceptQuote now p key w).1 = 403%Z ∧ (acceptQuote now p key w).2 = w
   ∧ code (rejectQuote now p key w).1 = 403%Z ∧ (rejectQuote now p key w).2 = w
   ∧ (getQuote p key w).2 = w)
  ∧ (role p ≠ "service_provider" ∨ strict_eq (serviceProviderId q) (id p) = false →
     (∃ m, (sendQuote p key w).1 = ErrorReply 403 m) ∧ (sendQuote p key w).2 = w
     ∧ code (createInvoiceFromQuote scope now p key w).1 = 403%Z
     ∧ (createInvoiceFromQuote scope now p key w).2 = w).
Proof.
  intros Hq. split.
  - intros Hp.
    assert (hasRole ["user"] p = false ∨
            (hasRole ["user"] p = true ∧ strict_eq (userId q) (id p) = false)) as Hgate.
    { destruct (String.eqb_spec (role p) "user") as [Hr|Hr].
      - right. split; [by apply hasRole_one|]. by destruct Hp.
      - left. by apply hasRole_other. }
    repeat split.
    + unfold acceptQuote, route. destruct Hgate as [-> | [-> Hid]]; [done|]. simpl.
      unfold acceptQuote_body. rewrite QuoteProps.DB_bind_eq. simpl. by rewrite Hq, Hid.
    + unfold acceptQuote, route. destruct Hgate as [-> | [-> Hid]]; [done|]. simpl.
      unfold acceptQuote_body. rewrite QuoteProps.DB_bind_eq. simpl. by rewrite Hq, Hid.
    + unfold rejectQuote, route. destruct Hgate as [-> | [-> Hid]]; [done|]. simpl.
      unfold rejectQuote_body. rewrite QuoteProps.DB_bind_eq. simpl. by rewrite Hq, Hid.
    + unfold rejectQuote, route. destruct Hgate as [-> | [-> Hid]]; [done|]. simpl.
      unfold rejectQuote_body. rewrite QuoteProps.DB_bind_eq. simpl. by rewrite Hq, Hid.
    + unfold getQuote, checkQuoteAccess. rewrite Hq.
      destruct (quoteAccess p q) eqn:Hacc; [|done].
      unfold getQuote_body. rewrite QuoteProps.DB_bind_eq. unfold Quote_findByPk_items.
      rewrite Hq. simpl.
      destruct (String.eqb_spec (role p) "user") as [Hr|Hr]; [|done].
      destruct Hp as [?|Hid]; [done|].
      unfold quoteAccess in Hacc. by rewrite Hr, Hid in Hacc.
  - intros Hp.
    assert (hasRole ["service_provider"] p = false ∨
            (hasRole ["service_provider"] p = true
             ∧ strict_eq (serviceProviderId q) (id p) = false)) as Hgate.
    { destruct (String.eqb_spec (role p) "service_provider") as [Hr|Hr].
      - right. split; [by apply hasRole_one|]. by destruct Hp.
      - left. by apply hasRole_other. }
    repeat split.
    + unfold sendQuote. destruct Hgate as [-> | [-> Hid]]; simpl; [by eexists|].
      unfold sendQuote_body. rewrite QuoteProps.DB_bind_eq. simpl. rewrite Hq, Hid.
      by eexists.
    + unfold sendQuote. destruct Hgate as [-> | [-> Hid]]; [done|]. simpl.
      unfold sendQuote_body. rewrite QuoteProps.DB_bind_eq. simpl. by rewrite Hq, Hid.
    + unfold createInvoiceFromQuote, route. destruct Hgate as [-> | [-> Hid]]; [done|].
      simpl. unfold createInvoice_body. rewrite QuoteProps.DB_bind_eq.
      unfold Quote_findByPk_items. rewrite Hq. simpl. by rewrite Hid.
    + unfold createInvoiceFromQuote, route. destruct Hgate as [-> | [-> Hid]]; [done|].
      simpl. unfold createInvoice_body. rewrite QuoteProps.DB_bind_eq.
      unfold Quote_findByPk_items. rewrite Hq. simpl. by rewrite Hid.
Qed.

(** The invoice of an accepted quote in the route module as it is, where
    [sequelize] is not bound: 500, and nothing is written. *)
Lemma invoice_unbound now p key w q :
  quotes (store w) !! key = Some q → status q = accepted →
  role p = "service_provider" → strict_eq (serviceProviderId q) (id p) = true →
  createInvoiceFromQuote false now p key w
  = ({| code := 500; body := ErrorBody "Error creating invoice" |}, w).
Proof.
  intros Hq Hst Hrole Hid.
  unfold createInvoiceFromQuote, route. rewrite (hasRole_one _ _ Hrole). simpl.
  unfold createInvoice_body. rewrite QuoteProps.DB_bind_eq.
  unfold Quote_findByPk_items. rewrite Hq. simpl. by rewrite Hid, Hst.
Qed.

(** X24: a draft that its provider sends and its client reads and accepts
    while it is valid, no write throwing: the reading answers the quote as
    viewed, the acceptance 200, and the quote is accepted in the tables.
    When its provider then asks for the invoice, the route module as it is,
    which does not bind [sequelize], answers 500 and leaves the quote
    accepted; with [sequelize] bound the answer is 201 and the tables at
    the end are those at the start with the quote invoiced and the invoice
    and its items created from the accepted quote. *)
Theorem draft_to_invoice now provider client key w q :
  quotes (store w) !! key = Some q → status q = draft →
  role provider = "service_provider" →
  strict_eq (serviceProviderId q) (id provider) = true →
  role client = "user" → strict_eq (userId q) (id client) = true →
  num_lt (newDate (validUntil q)) (of_Z now) = false →
  no_faults w →
  let w1 := (sendQuote provider key w).2 in
  let w2 := (getQuote client key w1).2 in
  let w3 := (acceptQuote now client key w2).2 in
  (getQuote client key w1).1
  = QuoteReply (set_quote_status viewed q) (items_of key (store w))
  ∧ code (acceptQuote now client key w2).1 = 200%Z
  ∧ store w3 = put_quote key (set_quote_status accepted q) (store w)
  ∧ createInvoiceFromQuote false now provider key w3
    = ({| code := 500; body := ErrorBody "Error creating invoice" |}, w3)
  ∧ code (createInvoiceFromQuote true now provider key w3).1 = 201%Z
  ∧ store (createInvoiceFromQuote true now provider key w3).2
    = invoiced_store now key (set_quote_status accepted q) (invoiceSeq w)
        (put_quote key (set_quote_status accepted q) (store w)).
Proof.
  intros Hq Hst Hrp Hip Hrc Hic Hd Hok.
  destruct (send_ok provider key w q Hq Hst Hrp Hip (no_faults_head w Hok))
    as (w1 & Hsend & Hs1 & Hf1 & Hi1).
  rewrite Hsend. simpl.
  pose proof (no_faults_tail w w1 Hok Hf1) as Hok1.
  assert (quotes (store w1) !! key = Some (set_quote_status sent q)) as Hq1.
  { by rewrite Hs1, put_quote_lookup. }
  destruct (view_ok client key w1 _ Hq1 eq_refl Hrc Hic (no_faults_head w1 Hok1))
    as (w2 & Hview & Hs2 & Hf2 & Hi2).
  rewrite Hview. simpl.
  pose proof (no_faults_tail w1 w2 Hok1 Hf2) as Hok2.
  assert (quotes (store w2) !! key = Some (set_quote_status viewed q)) as Hq2.
  { by rewrite Hs2, put_quote_lookup. }
  destruct (accept_ok now client key w2 _ Hq2 (or_intror eq_refl) Hrc Hic Hd
              (no_faults_head w2 Hok2))
    as (w3 & Haccept & Hs3 & Hf3 & Hi3).
  rewrite Haccept. simpl.
  pose proof (no_faults_tail w2 w3 Hok2 Hf3) as Hok3.
  assert (store w3 = put_quote key (set_quote_status accepted q) (store w)) as Hs3'.
  { rewrite Hs3, Hs2, Hs1. by rewrite !put_quote_twice. }
  assert (quotes (store w3) !! key = Some (set_quote_status accepted q)) as Hq3.
  { by rewrite Hs3', put_quote_lookup. }
  destruct (invoice_ok now provider key w3 _ Hq3 eq_refl Hrp Hip Hok3) as [Hc Hs4].
  split; [by rewrite Hs1|]. split; [done|]. split; [done|].
  split; [exact (invoice_unbound now provider key w3 _ Hq3 eq_refl Hrp Hip)|].
  split; [done|].
  rewrite Hs4, Hs3'. by rewrite Hi3, Hi2, Hi1.
Qed.

End Life.

(** *** The life of quote 5 *)

Import Reference.
#[local] Existing Instance runtime.

(** The client accepts quote 5 at the very time its validity ends. *)
Lemma accept_in_time_example :
  (acceptQuote 1793577600000 client7 5 (world5 viewed [])).1
  = {| code := 200;
       body := QuoteBody "Quote accepted successfully"
                 (Some (quote5 accepted, items5)) |}
  ∧ store (acceptQuote 1793577600000 client7 5 (world5 viewed [])).2 = store5 accepted.
Proof.
  exact (accept_in_time 1793577600000 client7 5 (world5 viewed []) (quote5 viewed)
           eq_refl (or_intror eq_refl) eq_refl eq_refl eq_refl
           ltac:(simpl; discriminate)).
Defined.

(** Client 8 is no party to quote 5. *)
Lemma parties_only_example :
  (code (acceptQuote 0 client8 5 (world5 sent [])).1 = 403%Z
   ∧ (acceptQuote 0 client8 5 (world5 sent [])).2 = world5 sent []
   ∧ code (rejectQuote 0 client8 5 (world5 sent [])).1 = 403%Z
   ∧ (rejectQuote 0 client8 5 (world5 sent [])).2 = world5 sent []
   ∧ (getQuote client8 5 (world5 sent [])).2 = world5 sent [])
  ∧ ((∃ m, (sendQuote client8 5 (world5 sent [])).1 = ErrorReply 403 m)
     ∧ (sendQuote client8 5 (world5 sent [])).2 = world5 sent []
     ∧ code (createInvoiceFromQuote true 0 client8 5 (world5 sent [])).1 = 403%Z
     ∧ (createInvoiceFromQuote true 0 client8 5 (world5 sent [])).2 = world5 sent []).
Proof.
  destruct (parties_only true 0 client8 5 (world5 sent []) (quote5 sent) eq_refl)
    as [Hclient Hprovider].
  split.
  - apply Hclient. by right.
  - apply Hprovider. by left.
Defined.

(** Quote 5 from draft to accepted, a day before its validity ends, and
    its invoice. *)
Lemma draft_to_invoice_example :
  let now := 1793491200000%Z in
  let w1 := (sendQuote provider9 5 (world5 draft [])).2 in
  let w2 := (getQuote client7 5 w1).2 in
  let w3 := (acceptQuote now client7 5 w2).2 in
  (getQuote client7 5 w1).1 = QuoteReply (quote5 viewed) items5
  ∧ code (acceptQuote now client7 5 w2).1 = 200%Z
  ∧ store w3 = store5 accepted
  ∧ createInvoiceFromQuote false now provider9 5 w3
    = ({| code := 500; body := ErrorBody "Error creating invoice" |}, w3)
  ∧ code (createInvoiceFromQuote true now provider9 5 w3).1 = 201%Z
  ∧ store (createInvoiceFromQuote true now provider9 5 w3).2
    = invoiced_store now 5 (quote5 accepted) 1 (store5 accepted).
Proof.
  exact (draft_to_invoice 1793491200000 provider9 client7 5 (world5 draft [])
           (quote5 draft) eq_refl eq_refl eq_refl eq_refl eq_refl eq_refl eq_refl
           (Forall_nil_2 _)).
Defined.

End QuoteMore.
